(** * Convex image studio: the generation lifecycle of [convex/images.ts]

    A shallow embedding of the backend module of the image studio (the
    provider adapter, the [list] / [create] / [update] functions and the
    [generate] action) together with the properties of the generation
    request lifecycle.

    Layout: the model of JavaScript numbers, then the provider adapter, the
    document store and the effect monad, the Convex functions, the form of
    [src/App.tsx] that calls them, and last the lemmas and theorems. *)

From Stdlib Require Import ZArith QArith Qround Lia Lqa Sorted Permutation.
From Stdlib Require Import PrimFloat.
From stdpp Require Import base option list strings gmap.

Local Open Scope string_scope.
Local Open Scope list_scope.

(** ** JavaScript numbers

    A [number] is an IEEE-754 double.  The model keeps the three special
    values apart and represents a finite double by the rational it denotes.
    Comparison, [Math.min] and [Math.max] are exact on doubles, so they are
    exact here; the arithmetic operations compute the exact rational result
    (no rounding to 53 bits) and are only applied to the literals of the
    dimension table, where [Binary64] below repeats the computation in
    machine doubles.  Negative zero is identified with zero. *)
Module JS.

Inductive number : Type :=
  | NaN
  | NegInfinity
  | Finite (q : Q)
  | Infinity.

Definition of_Z (z : Z) : number := Finite (inject_Z z).

(** [a < b]: false as soon as one side is [NaN]. *)
Definition lt (a b : number) : bool :=
  match a, b with
  | NaN, _ | _, NaN => false
  | Finite x, Finite y => negb (Qle_bool y x)
  | NegInfinity, NegInfinity => false
  | NegInfinity, _ => true
  | _, NegInfinity => false
  | Infinity, _ => false
  | Finite _, Infinity => true
  end.

Definition is_NaN (a : number) : bool :=
  match a with NaN => true | _ => false end.

(** [Math.max(a, b)] and [Math.min(a, b)]: [NaN] is contagious. *)
Definition Math_max (a b : number) : number :=
  if is_NaN a || is_NaN b then NaN else if lt b a then a else b.

Definition Math_min (a b : number) : number :=
  if is_NaN a || is_NaN b then NaN else if lt a b then a else b.

(** Sign of a finite value, with zero counted as positive (no [-0]). *)
Definition nonneg (q : Q) : bool := Qle_bool 0 q.
Definition is_zero (q : Q) : bool := Qeq_bool q 0.

Definition signed_inf (positive : bool) : number :=
  if positive then Infinity else NegInfinity.

(** [a * b], as the exact product.  The product of two doubles is the
    double nearest to the exact one, so the two agree wherever the exact
    product is itself a double; nothing is stated here about products that
    need rounding or overflow.  The module multiplies the entries of the
    dimension table, and integers by 64. *)
Definition mul (a b : number) : number :=
  match a, b with
  | NaN, _ | _, NaN => NaN
  | Finite x, Finite y => Finite (Qred (x * y))
  | Finite x, Infinity | Infinity, Finite x =>
      if is_zero x then NaN else signed_inf (nonneg x)
  | Finite x, NegInfinity | NegInfinity, Finite x =>
      if is_zero x then NaN else signed_inf (negb (nonneg x))
  | Infinity, Infinity | NegInfinity, NegInfinity => Infinity
  | Infinity, NegInfinity | NegInfinity, Infinity => NegInfinity
  end.

(** [a / b], as the exact quotient, with the same proviso as for [mul].
    The module divides 1024 by an entry of the dimension table, and by
    64. *)
Definition div (a b : number) : number :=
  match a, b with
  | NaN, _ | _, NaN => NaN
  | Finite x, Finite y =>
      if is_zero y
      then (if is_zero x then NaN else signed_inf (nonneg x))
      else Finite (Qred (x / y))
  | Finite _, (Infinity | NegInfinity) => Finite 0
  | Infinity, Finite y => signed_inf (nonneg y)
  | NegInfinity, Finite y => signed_inf (negb (nonneg y))
  | (Infinity | NegInfinity), (Infinity | NegInfinity) => NaN
  end.

(** [Math.round(a)]: the nearest integer, halves going up. *)
Definition Math_round (a : number) : number :=
  match a with
  | Finite q => of_Z (Qfloor (q + (1 # 2)))
  | _ => a
  end.

(** Truthiness of a string-or-nullish value: [undefined], [null] and the
    empty string are falsy. *)
Definition truthy (s : option string) : bool :=
  match s with
  | None => false
  | Some s => negb (String.eqb s "")
  end.

(** [a ?? b]. *)
Definition nullish {A : Type} (a : option A) (b : A) : A :=
  match a with
  | Some x => x
  | None => b
  end.

(** Values a [throw] can carry: an [Error] object with its message, or
    anything that is not an instance of [Error]. *)
Inductive thrown : Type :=
  | Error (message : string)
  | NotAnError.

(** Names every plain object inherits from [Object.prototype]; a property
    read with one of these keys does not yield [undefined]. *)
Definition Object_prototype_keys : list string :=
  [ "constructor"; "__proto__"; "hasOwnProperty"; "isPrototypeOf";
    "propertyIsEnumerable"; "toLocaleString"; "toString"; "valueOf";
    "__defineGetter__"; "__defineSetter__"; "__lookupGetter__";
    "__lookupSetter__" ].

Definition inherited_key (k : string) : bool :=
  existsb (String.eqb k) Object_prototype_keys.

End JS.

Abbreviation number := JS.number.

(** ** Constants and types of the module *)

Definition FAL_MODEL_NAME : string := "fal-ai/nano-banana-pro".
Definition HUGGINGFACE_MODEL_NAME : string := "ByteDance/SDXL-Lightning".

Definition HUGGINGFACE_BASE_SIZE : number := JS.of_Z 1024.

(** The literal unions are strings at run time; the validators below are what
    restricts them. *)
Definition AspectRatio := string.
Definition Resolution := string.
Definition OutputFormat := string.
Definition Provider := string.

(** *** Validators ([convex/values]) as predicates *)

Definition v_literal (lit : string) (x : string) : bool := String.eqb x lit.

Definition v_union {A : Type} (vs : list (A -> bool)) (x : A) : bool :=
  existsb (fun v => v x) vs.

Definition v_optional {A : Type} (v : A -> bool) (x : option A) : bool :=
  match x with
  | None => true
  | Some a => v a
  end.

Definition v_string (x : string) : bool := true.
Definition v_number (x : number) : bool := true.

Definition aspectRatioValidator : string -> bool :=
  v_union [ v_literal "1:1"; v_literal "4:3"; v_literal "3:2";
            v_literal "16:9"; v_literal "9:16" ].
Definition resolutionValidator : string -> bool :=
  v_union [ v_literal "1K"; v_literal "2K"; v_literal "4K" ].
Definition outputFormatValidator : string -> bool :=
  v_union [ v_literal "png"; v_literal "jpeg"; v_literal "webp" ].
Definition providerValidator : string -> bool :=
  v_union [ v_literal "fal"; v_literal "huggingface" ].

(** ** Provider adapter *)

(** The own properties of [ASPECT_RATIO_MAP], in source order. *)
Definition ASPECT_RATIO_MAP : list (string * (number * number)) :=
  [ ("1:1", (JS.of_Z 1, JS.of_Z 1));
    ("4:3", (JS.of_Z 4, JS.of_Z 3));
    ("3:2", (JS.of_Z 3, JS.of_Z 2));
    ("16:9", (JS.of_Z 16, JS.of_Z 9));
    ("9:16", (JS.of_Z 9, JS.of_Z 16)) ].

Fixpoint own_property {A : Type} (obj : list (string * A)) (key : string)
  : option A :=
  match obj with
  | [] => None
  | (k, x) :: rest => if String.eqb key k then Some x else own_property rest key
  end.

(** The outcome of the property read [obj[key]] on an object literal. *)
Inductive property (A : Type) : Type :=
  | Own (x : A)
  | Inherited
  | Undefined.
Arguments Own {A} x.
Arguments Inherited {A}.
Arguments Undefined {A}.

Definition get_property {A : Type} (obj : list (string * A)) (key : string)
  : property A :=
  match own_property obj key with
  | Some x => Own x
  | None => if JS.inherited_key key then Inherited else Undefined
  end.

Definition roundToMultiple (value multiple : number) : number :=
  JS.Math_max multiple (JS.mul (JS.Math_round (JS.div value multiple)) multiple).

Definition normalizeProvider (provider : option string) : Provider :=
  match provider with
  | Some p => if String.eqb p "huggingface" then "huggingface" else "fal"
  | None => "fal"
  end.

Record Dimensions := { width : number; height : number }.

(** [ASPECT_RATIO_MAP[aspectRatio] ?? [1, 1]] followed by the array
    destructuring: an inherited member of [Object.prototype] is not nullish
    and is not iterable, so the destructuring throws a [TypeError]. *)
Definition resolveHuggingFaceDimensions (aspectRatio : AspectRatio)
  : JS.thrown + Dimensions :=
  match
    match get_property ASPECT_RATIO_MAP aspectRatio with
    | Own entry => inr entry
    | Undefined => inr (JS.of_Z 1, JS.of_Z 1)
    | Inherited => inl (JS.Error "ASPECT_RATIO_MAP[aspectRatio] is not iterable")
    end
  with
  | inl e => inl e
  | inr (ratioWidth, ratioHeight) =>
      let scale := JS.div HUGGINGFACE_BASE_SIZE (JS.Math_max ratioWidth ratioHeight) in
      let width := roundToMultiple (JS.mul ratioWidth scale) (JS.of_Z 64) in
      let height := roundToMultiple (JS.mul ratioHeight scale) (JS.of_Z 64) in
      inr {| width := width; height := height |}
  end.

(** ** The [images] table and the outside world *)

(** A document of the [images] table (the schema), without the system
    fields.  The time stamps are readings of [Date.now()], integral
    milliseconds. *)
Module Doc.
Record t := mk {
  prompt : string;
  model : string;
  provider : string;
  aspectRatio : string;
  resolution : string;
  outputFormat : string;
  numImages : number;
  status : string;
  createdAt : Z;
  updatedAt : Z;
  imageUrls : option (list string);
  requestId : option string;
  error : option string;
}.
End Doc.

(** Document ids: the position of the document in insertion order. *)
Definition Id := nat.
Definition Blob := string.
Definition StorageId := nat.

Module HfRequest.
Record t := mk {
  model : string;
  inputs : string;
  width : number;
  height : number;
}.
End HfRequest.

Module FalInput.
Record t := mk {
  prompt : string;
  aspect_ratio : string;
  resolution : string;
  output_format : string;
  num_images : number;
}.
End FalInput.

Module FalResult.
Record image := mkImage { url : option string }.
Record data_t := mkData { images : option (list image) }.
Record t := mk {
  data : option data_t;
  requestId : option string;
}.
End FalResult.

(** What the action reads from outside: the environment variables, the
    clock, the two providers and the URL service of the file storage.  The
    clock and the Hugging Face client are indexed by the number of earlier
    calls, so successive calls may answer differently. *)
Module Env.
Record t := mk {
  HF_TOKEN : option string;
  FAL_KEY : option string;
  Date_now : nat -> Z;
  textToImage : HfRequest.t -> nat -> JS.thrown + Blob;
  getUrl : StorageId -> option string;
  subscribe : string -> FalInput.t -> JS.thrown + FalResult.t;
}.
End Env.

(** The mutable state: the table, the file storage and the call counters. *)
Module World.
Record t := mk {
  images : list Doc.t;
  storage : list Blob;
  clock_reads : nat;
  hf_calls : nat;
}.
End World.

(** *** The effect monad: state, exceptions and loop fuel *)

Inductive outcome (A : Type) : Type :=
  | Return (a : A)
  | Throw (e : JS.thrown)
  | OutOfFuel.
Arguments Return {A} a.
Arguments Throw {A} e.
Arguments OutOfFuel {A}.

Definition M (A : Type) : Type := World.t -> outcome A * World.t.

#[export] Instance M_ret : MRet M := fun A a w => (Return a, w).

#[export] Instance M_bind : MBind M := fun A B k m w =>
  match m w with
  | (Return a, w') => k a w'
  | (Throw e, w') => (Throw e, w')
  | (OutOfFuel, w') => (OutOfFuel, w')
  end.

Definition throw {A : Type} (e : JS.thrown) : M A := fun w => (Throw e, w).

Definition out_of_fuel {A : Type} : M A := fun w => (OutOfFuel, w).

(** [try { body } catch (error) { handler }]. *)
Definition try_catch {A : Type} (body : M A) (handler : JS.thrown -> M A) : M A :=
  fun w =>
    match body w with
    | (Throw e, w') => handler e w'
    | r => r
    end.

(** A call that either throws or returns. *)
Definition lift {A : Type} (r : JS.thrown + A) : M A :=
  match r with
  | inl e => throw e
  | inr a => mret a
  end.

Definition get_images : M (list Doc.t) := fun w => (Return (World.images w), w).

Definition put_images (table : list Doc.t) : M unit := fun w =>
  (Return tt,
   World.mk table (World.storage w) (World.clock_reads w) (World.hf_calls w)).

(** The error Convex raises when the arguments of a function do not match
    its validators; the handler does not run. *)
Definition ArgumentValidationError : JS.thrown :=
  JS.Error "ArgumentValidationError: Value does not match validator.".

Definition validated {Args A : Type} (validator : Args -> bool)
    (handler : Args -> M A) (args : Args) : M A :=
  if validator args then handler args else throw ArgumentValidationError.

(** *** The record store and the blob store

    The durable record store and the blob store are external collaborators
    of the module; the spec gives their interface ([insert(fields) -> id],
    [patch(id, partialFields) -> void], [queryByCreatedAtDesc(limit) ->
    records], [store(binaryImage) -> storageId], [getUrl(storageId) ->
    string|null]). *)

(** Modelled from the spec: [insert(fields) -> id], the [db.insert] of the
    record store.  Ids are handed out in insertion order. *)
Definition db_insert (d : Doc.t) : M Id :=
  table ← get_images;
  _ ← put_images (table ++ [d]);
  mret (length table).

(** Modelled from the spec: [patch(id, partialFields) -> void], the
    [db.patch] of the record store.  Patching a missing document throws. *)
Definition db_patch (id : Id) (f : Doc.t -> Doc.t) : M unit :=
  table ← get_images;
  match table !! id with
  | Some d => put_images (<[id := f d]> table)
  | None => throw (JS.Error "Update on nonexistent document ID")
  end.

(** Modelled from the spec: the index [by_created_at] of the record store,
    kept in descending order.  A document enters in front of the first entry
    that is not newer, so that among equal [createdAt] the later insertion
    comes first. *)
Fixpoint index_insert (d : Doc.t) (idx : list Doc.t) : list Doc.t :=
  match idx with
  | [] => [d]
  | x :: rest =>
      if (Doc.createdAt x <=? Doc.createdAt d)%Z
      then d :: idx
      else x :: index_insert d rest
  end.

(** Modelled from the spec: [queryByCreatedAtDesc], that is
    [.withIndex("by_created_at").order("desc")]. *)
Definition by_created_at_desc (table : list Doc.t) : list Doc.t :=
  fold_left (fun idx d => index_insert d idx) table [].

(** Modelled from the spec: the limit of [queryByCreatedAtDesc(limit)].  The
    argument of [.take(n)] has to be a non-negative integer. *)
Definition take_count (n : number) : option nat :=
  match n with
  | JS.Finite q =>
      if Qeq_bool q (inject_Z (Qfloor q)) && JS.nonneg q
      then Some (Z.to_nat (Qfloor q))
      else None
  | _ => None
  end.

(** Modelled from the spec: [.take(n)] on the ordered rows. *)
Definition db_take (n : number) (rows : list Doc.t) : M (list Doc.t) :=
  match take_count n with
  | Some k => mret (take k rows)
  | None => throw (JS.Error "take: n must be a non-negative integer")
  end.

(** Modelled from the spec: [store(binaryImage) -> storageId] of the blob
    store.  Storage ids are handed out in order. *)
Definition storage_store (blob : Blob) : M StorageId := fun w =>
  (Return (length (World.storage w)),
   World.mk (World.images w) (World.storage w ++ [blob])
            (World.clock_reads w) (World.hf_calls w)).

(** ** The Convex functions of the module *)

Module CreateArgs.
Record t := mk {
  prompt : string;
  model : string;
  provider : string;
  aspectRatio : string;
  resolution : string;
  outputFormat : string;
  numImages : number;
  status : string;
  createdAt : Z;
  updatedAt : Z;
}.
Definition validator (a : t) : bool :=
  v_string (prompt a) && v_string (model a) && providerValidator (provider a)
  && aspectRatioValidator (aspectRatio a) && resolutionValidator (resolution a)
  && outputFormatValidator (outputFormat a) && v_number (numImages a)
  && v_string (status a).
End CreateArgs.

Module UpdateArgs.
Record t := mk {
  id : Id;
  status : option string;
  imageUrls : option (list string);
  requestId : option string;
  error : option string;
  updatedAt : Z;
}.
Definition validator (a : t) : bool :=
  v_optional v_string (status a) && v_optional (forallb v_string) (imageUrls a)
  && v_optional v_string (requestId a) && v_optional v_string (error a).
End UpdateArgs.

Module GenerateArgs.
Record t := mk {
  prompt : string;
  aspectRatio : string;
  resolution : string;
  outputFormat : string;
  numImages : option number;
  provider : option string;
}.
Definition validator (a : t) : bool :=
  v_string (prompt a) && aspectRatioValidator (aspectRatio a)
  && resolutionValidator (resolution a)
  && outputFormatValidator (outputFormat a)
  && v_optional v_number (numImages a)
  && v_optional providerValidator (provider a).
End GenerateArgs.

Module GenerateResult.
Record t := mk {
  id : Id;
  imageUrls : list string;
  requestId : option string;
}.
End GenerateResult.

(** [list]: the most recent documents, newest first. *)
Definition list_handler (limit : option number) : M (list Doc.t) :=
  let cappedLimit := JS.nullish limit (JS.of_Z 24) in
  table ← get_images;
  db_take cappedLimit (by_created_at_desc table).

Definition list_ : option number -> M (list Doc.t) :=
  validated (v_optional v_number) list_handler.

(** [create]: [db.insert("images", args)]. *)
Definition create_handler (args : CreateArgs.t) : M Id :=
  db_insert
    {| Doc.prompt := CreateArgs.prompt args;
       Doc.model := CreateArgs.model args;
       Doc.provider := CreateArgs.provider args;
       Doc.aspectRatio := CreateArgs.aspectRatio args;
       Doc.resolution := CreateArgs.resolution args;
       Doc.outputFormat := CreateArgs.outputFormat args;
       Doc.numImages := CreateArgs.numImages args;
       Doc.status := CreateArgs.status args;
       Doc.createdAt := CreateArgs.createdAt args;
       Doc.updatedAt := CreateArgs.updatedAt args;
       Doc.imageUrls := None;
       Doc.requestId := None;
       Doc.error := None |}.

Definition create : CreateArgs.t -> M Id :=
  validated CreateArgs.validator create_handler.

(** The effect of [db.patch(id, fields)] on the document, where [fields] is
    the argument object without [id]: a key that is present replaces the
    field, an absent key leaves it alone. *)
Definition patch_fields (fields : UpdateArgs.t) (d : Doc.t) : Doc.t :=
  {| Doc.prompt := Doc.prompt d;
     Doc.model := Doc.model d;
     Doc.provider := Doc.provider d;
     Doc.aspectRatio := Doc.aspectRatio d;
     Doc.resolution := Doc.resolution d;
     Doc.outputFormat := Doc.outputFormat d;
     Doc.numImages := Doc.numImages d;
     Doc.status := JS.nullish (UpdateArgs.status fields) (Doc.status d);
     Doc.createdAt := Doc.createdAt d;
     Doc.updatedAt := UpdateArgs.updatedAt fields;
     Doc.imageUrls :=
       match UpdateArgs.imageUrls fields with
       | Some urls => Some urls
       | None => Doc.imageUrls d
       end;
     Doc.requestId :=
       match UpdateArgs.requestId fields with
       | Some r => Some r
       | None => Doc.requestId d
       end;
     Doc.error :=
       match UpdateArgs.error fields with
       | Some e => Some e
       | None => Doc.error d
       end |}.

(** [update]: [db.patch(id, fields)]. *)
Definition update_handler (args : UpdateArgs.t) : M unit :=
  db_patch (UpdateArgs.id args) (patch_fields args).

Definition update : UpdateArgs.t -> M unit :=
  validated UpdateArgs.validator update_handler.

(** [array.filter(Boolean)] on the URLs of the returned images. *)
Fixpoint filter_Boolean (urls : list (option string)) : list string :=
  match urls with
  | [] => []
  | Some u :: rest =>
      if JS.truthy (Some u) then u :: filter_Boolean rest else filter_Boolean rest
  | None :: rest => filter_Boolean rest
  end.

Section Generate.

Variable env : Env.t.

Definition Date_now : M Z := fun w =>
  (Return (Env.Date_now env (World.clock_reads w)),
   World.mk (World.images w) (World.storage w)
            (S (World.clock_reads w)) (World.hf_calls w)).

Definition hf_textToImage (req : HfRequest.t) : M Blob := fun w =>
  lift (Env.textToImage env req (World.hf_calls w))
       (World.mk (World.images w) (World.storage w)
                 (World.clock_reads w) (S (World.hf_calls w))).

Definition storage_getUrl (storageId : StorageId) : M (option string) :=
  mret (Env.getUrl env storageId).

Definition fal_subscribe (endpoint : string) (input : FalInput.t)
  : M FalResult.t :=
  lift (Env.subscribe env endpoint input).

(** The loop [for (let index = 0; index < numImages; index += 1)] of the
    Hugging Face branch, from the state [index], [imageUrls].  [fuel] bounds
    the number of iterations. *)
Fixpoint hf_loop (fuel : nat) (index : nat) (numImages : number)
    (req : HfRequest.t) (imageUrls : list string) : M (list string) :=
  if JS.lt (JS.of_Z (Z.of_nat index)) numImages then
    match fuel with
    | O => out_of_fuel
    | S fuel' =>
        imageBlob ← hf_textToImage req;
        storageId ← storage_store imageBlob;
        url ← storage_getUrl storageId;
        hf_loop fuel' (S index) numImages req
          (match url with
           | Some u => if JS.truthy url then imageUrls ++ [u] else imageUrls
           | None => imageUrls
           end)
    end
  else mret imageUrls.

(** The handler of [generate].  [new InferenceClient(token)] and
    [fal.config({ credentials })] only hand the credential to the client
    objects and are left out. *)
Definition generate_handler (fuel : nat) (args : GenerateArgs.t)
  : M GenerateResult.t :=
  requestedAt ← Date_now;
  let provider := normalizeProvider (GenerateArgs.provider args) in
  let numImages :=
    JS.Math_min (JS.of_Z 4)
      (JS.Math_max (JS.of_Z 1)
         (JS.nullish (GenerateArgs.numImages args) (JS.of_Z 1))) in
  let modelName :=
    if String.eqb provider "huggingface"
    then HUGGINGFACE_MODEL_NAME else FAL_MODEL_NAME in
  let resolvedResolution :=
    if String.eqb provider "huggingface"
    then "1K" else GenerateArgs.resolution args in
  let resolvedOutputFormat :=
    if String.eqb provider "huggingface"
    then "png" else GenerateArgs.outputFormat args in
  imageId ← create
    {| CreateArgs.prompt := GenerateArgs.prompt args;
       CreateArgs.model := modelName;
       CreateArgs.provider := provider;
       CreateArgs.aspectRatio := GenerateArgs.aspectRatio args;
       CreateArgs.resolution := resolvedResolution;
       CreateArgs.outputFormat := resolvedOutputFormat;
       CreateArgs.numImages := numImages;
       CreateArgs.status := "queued";
       CreateArgs.createdAt := requestedAt;
       CreateArgs.updatedAt := requestedAt |};
  try_catch
    (if String.eqb provider "huggingface" then
       let huggingFaceToken := Env.HF_TOKEN env in
       _ ← (if negb (JS.truthy huggingFaceToken)
            then throw (JS.Error "Missing HF_TOKEN environment variable.")
            else mret tt);
       dims ← lift (resolveHuggingFaceDimensions (GenerateArgs.aspectRatio args));
       imageUrls ← hf_loop fuel 0 numImages
         {| HfRequest.model := HUGGINGFACE_MODEL_NAME;
            HfRequest.inputs := GenerateArgs.prompt args;
            HfRequest.width := width dims;
            HfRequest.height := height dims |} [];
       _ ← (if Nat.eqb (length imageUrls) 0
            then throw (JS.Error "Hugging Face returned no images.")
            else mret tt);
       now ← Date_now;
       _ ← update
         {| UpdateArgs.id := imageId;
            UpdateArgs.status := Some "complete";
            UpdateArgs.imageUrls := Some imageUrls;
            UpdateArgs.requestId := None;
            UpdateArgs.error := None;
            UpdateArgs.updatedAt := now |};
       mret {| GenerateResult.id := imageId;
               GenerateResult.imageUrls := imageUrls;
               GenerateResult.requestId := None |}
     else
       let falKey := Env.FAL_KEY env in
       _ ← (if negb (JS.truthy falKey)
            then throw (JS.Error "Missing FAL_KEY environment variable.")
            else mret tt);
       result ← fal_subscribe FAL_MODEL_NAME
         {| FalInput.prompt := GenerateArgs.prompt args;
            FalInput.aspect_ratio := GenerateArgs.aspectRatio args;
            FalInput.resolution := resolvedResolution;
            FalInput.output_format := resolvedOutputFormat;
            FalInput.num_images := numImages |};
       let imageUrls :=
         JS.nullish
           (data ← FalResult.data result;
            images ← FalResult.images data;
            Some (filter_Boolean (map FalResult.url images)))
           [] in
       let requestId := FalResult.requestId result in
       now ← Date_now;
       _ ← update
         {| UpdateArgs.id := imageId;
            UpdateArgs.status := Some "complete";
            UpdateArgs.imageUrls := Some imageUrls;
            UpdateArgs.requestId := requestId;
            UpdateArgs.error := None;
            UpdateArgs.updatedAt := now |};
       mret {| GenerateResult.id := imageId;
               GenerateResult.imageUrls := imageUrls;
               GenerateResult.requestId := requestId |})
    (fun error =>
       let message :=
         match error with
         | JS.Error message => message
         | JS.NotAnError => "Unexpected image generation error."
         end in
       now ← Date_now;
       _ ← update
         {| UpdateArgs.id := imageId;
            UpdateArgs.status := Some "failed";
            UpdateArgs.imageUrls := None;
            UpdateArgs.requestId := None;
            UpdateArgs.error := Some message;
            UpdateArgs.updatedAt := now |};
       throw error).

Definition generate (fuel : nat) : GenerateArgs.t -> M GenerateResult.t :=
  validated GenerateArgs.validator (generate_handler fuel).

End Generate.

(** ** Vocabulary of the statements *)

(** The clamp of the requested image count, as [generate] writes it. *)
Abbreviation clamped x :=
  (JS.Math_min (JS.of_Z 4) (JS.Math_max (JS.of_Z 1) (JS.nullish x (JS.of_Z 1)))).

(** [x] lies in the closed interval [[1, 4]]. *)
Definition in_1_4 (x : number) : Prop :=
  exists q : Q, x = JS.Finite q /\ (1 <= q)%Q /\ (q <= 4)%Q.

(** [w] is a multiple of 64, at least 64, and no other multiple of 64 is
    closer to [x]. *)
Definition nearest_multiple_of_64 (x : Q) (w : Z) : Prop :=
  (exists k : Z, w = 64 * k /\ 1 <= k)%Z /\
  (inject_Z w - 32 <= x /\ x < inject_Z w + 32)%Q.

(** The input fields and the creation time of [d] are those [generate]
    derives from [args] when it starts in [w]. *)
Definition created_by (env : Env.t) (args : GenerateArgs.t) (w : World.t)
    (d : Doc.t) : Prop :=
  let provider := normalizeProvider (GenerateArgs.provider args) in
  Doc.prompt d = GenerateArgs.prompt args
  /\ Doc.model d = (if String.eqb provider "huggingface"
                   then HUGGINGFACE_MODEL_NAME else FAL_MODEL_NAME)
  /\ Doc.provider d = provider
  /\ Doc.aspectRatio d = GenerateArgs.aspectRatio args
  /\ Doc.resolution d = (if String.eqb provider "huggingface"
                        then "1K" else GenerateArgs.resolution args)
  /\ Doc.outputFormat d = (if String.eqb provider "huggingface"
                          then "png" else GenerateArgs.outputFormat args)
  /\ Doc.numImages d = clamped (GenerateArgs.numImages args)
  /\ Doc.createdAt d = Env.Date_now env (World.clock_reads w).

Definition completed_with (res : GenerateResult.t) (d : Doc.t) : Prop :=
  Doc.status d = "complete"
  /\ Doc.imageUrls d = Some (GenerateResult.imageUrls res)
  /\ Doc.requestId d = GenerateResult.requestId res
  /\ Doc.error d = None.

Definition failed_with (e : JS.thrown) (d : Doc.t) : Prop :=
  Doc.status d = "failed"
  /\ Doc.imageUrls d = None
  /\ Doc.requestId d = None
  /\ Doc.error d = Some match e with
                        | JS.Error message => message
                        | JS.NotAnError => "Unexpected image generation error."
                        end.

(** Where a value caught by [generate] comes from: one of its own three
    [throw] statements, or a provider call. *)
Definition failure_cause (env : Env.t) (e : JS.thrown) : Prop :=
  e = JS.Error "Missing HF_TOKEN environment variable."
  \/ e = JS.Error "Missing FAL_KEY environment variable."
  \/ e = JS.Error "Hugging Face returned no images."
  \/ (exists req k, Env.textToImage env req k = inl e)
  \/ (exists endpoint input, Env.subscribe env endpoint input = inl e).

(** The fields no patch may touch. *)
Definition same_inputs (d d' : Doc.t) : Prop :=
  Doc.prompt d' = Doc.prompt d
  /\ Doc.model d' = Doc.model d
  /\ Doc.provider d' = Doc.provider d
  /\ Doc.aspectRatio d' = Doc.aspectRatio d
  /\ Doc.resolution d' = Doc.resolution d
  /\ Doc.outputFormat d' = Doc.outputFormat d
  /\ Doc.numImages d' = Doc.numImages d
  /\ Doc.createdAt d' = Doc.createdAt d.

(** Every document of [w] is still there in [w'], under the same id and with
    the same input fields. *)
Definition keeps_inputs (w w' : World.t) : Prop :=
  forall (i : nat) (d : Doc.t),
    World.images w !! i = Some d ->
    exists d', World.images w' !! i = Some d' /\ same_inputs d d'.

Definition frame {A : Type} (m : M A) : Prop :=
  forall w : World.t, keeps_inputs w (snd (m w)).

Definition newest_first (rows : list Doc.t) : Prop :=
  StronglySorted (fun a b => (Doc.createdAt b <= Doc.createdAt a)%Z) rows.

(** The number of iterations of [for (index = 0; index < n; index += 1)]
    when [n] is at most 4 (or [NaN]). *)
Definition loop_count (n : number) : nat :=
  length (List.filter (fun i => JS.lt (JS.of_Z (Z.of_nat i)) n) (seq 0 4)).

(** The URLs the storage offers for the next [count] stored files. *)
Definition offered_urls (env : Env.t) (w : World.t) (count : nat)
  : list (option string) :=
  map (fun i => Env.getUrl env (length (World.storage w) + i)) (seq 0 count).

(** *** The same computation in binary64

    The quotient [value / multiple] that [roundToMultiple] hands to
    [Math.round], computed with the machine operations of IEEE-754 doubles,
    and the test that [Math.round] takes it to the integer [k]. *)
Module Binary64.

(** The double of a small integer, built by doubling (exact below 2^53). *)
Fixpoint of_pos (p : positive) : float :=
  match p with
  | xH => 1%float
  | xO p' => PrimFloat.mul 2%float (of_pos p')
  | xI p' => PrimFloat.add (PrimFloat.mul 2%float (of_pos p')) 1%float
  end.

Definition of_Z (z : Z) : float :=
  match z with
  | Z0 => 0%float
  | Zpos p => of_pos p
  | Zneg p => PrimFloat.opp (of_pos p)
  end.

Definition Math_max (a b : float) : float :=
  if PrimFloat.ltb a b then b else a.

Definition scale (ratioWidth ratioHeight : float) : float :=
  PrimFloat.div (of_Z 1024) (Math_max ratioWidth ratioHeight).

Definition quotient (component ratioWidth ratioHeight : float) : float :=
  PrimFloat.div (PrimFloat.mul component (scale ratioWidth ratioHeight)) (of_Z 64).

Definition rounds_to (q : float) (k : Z) : bool :=
  PrimFloat.leb (PrimFloat.sub (of_Z k) 0.5%float) q
  && PrimFloat.ltb q (PrimFloat.add (of_Z k) 0.5%float)
  && PrimFloat.eqb (PrimFloat.mul (of_Z k) (of_Z 64)) (of_Z (64 * k)).

(** One row of the dimension table: the ratio and the multiples of 64 that
    are expected for the width and the height. *)
Definition agrees (row : string * (Z * Z) * (Z * Z)) : Prop :=
  let '(key, (rw, rh), (kw, kh)) := row in
  own_property ASPECT_RATIO_MAP key = Some (JS.of_Z rw, JS.of_Z rh)
  /\ resolveHuggingFaceDimensions key
     = inr {| width := JS.of_Z (64 * kw); height := JS.of_Z (64 * kh) |}
  /\ rounds_to (quotient (of_Z rw) (of_Z rw) (of_Z rh)) kw = true
  /\ rounds_to (quotient (of_Z rh) (of_Z rw) (of_Z rh)) kh = true.

End Binary64.

(** ** Sample environments and requests *)

Definition empty_world : World.t := World.mk [] [] 0 0.

Definition sample_clock (n : nat) : Z := (1700000000000 + Z.of_nat n)%Z.

Definition sample_env (textToImage : HfRequest.t -> nat -> JS.thrown + Blob)
    (getUrl : StorageId -> option string)
    (subscribe : string -> FalInput.t -> JS.thrown + FalResult.t) : Env.t :=
  {| Env.HF_TOKEN := Some "hf_token";
     Env.FAL_KEY := Some "fal_key";
     Env.Date_now := sample_clock;
     Env.textToImage := textToImage;
     Env.getUrl := getUrl;
     Env.subscribe := subscribe |}.

Definition sample_args (numImages : option number) (provider : option string)
  : GenerateArgs.t :=
  {| GenerateArgs.prompt := "a red fox";
     GenerateArgs.aspectRatio := "16:9";
     GenerateArgs.resolution := "4K";
     GenerateArgs.outputFormat := "webp";
     GenerateArgs.numImages := numImages;
     GenerateArgs.provider := provider |}.

Definition blob_always : HfRequest.t -> nat -> JS.thrown + Blob :=
  fun _ _ => inr "png bytes".

Definition url_of (i : StorageId) : option string :=
  Some ("https://files.example/" ++ String (Ascii.ascii_of_nat (48 + i)) "")%string.

(** The fal endpoint answers with an empty image list. *)
Definition fal_no_images : string -> FalInput.t -> JS.thrown + FalResult.t :=
  fun _ _ =>
    inr {| FalResult.data := Some {| FalResult.images := Some [] |};
           FalResult.requestId := Some "req-1" |}.

(** The fal endpoint fails with an [Error] whose message is empty. *)
Definition fal_silent_error : string -> FalInput.t -> JS.thrown + FalResult.t :=
  fun _ _ => inl (JS.Error "").

(** The fal endpoint fails with a provider error. *)
Definition fal_unavailable : string -> FalInput.t -> JS.thrown + FalResult.t :=
  fun _ _ => inl (JS.Error "429 Too Many Requests").

Definition fal_two_images : string -> FalInput.t -> JS.thrown + FalResult.t :=
  fun _ _ =>
    inr {| FalResult.data :=
             Some {| FalResult.images :=
                       Some [ {| FalResult.url := Some "https://fal.example/a" |};
                              {| FalResult.url := Some "" |};
                              {| FalResult.url := Some "https://fal.example/b" |} ] |};
           FalResult.requestId := Some "req-2" |}.

(** The second Hugging Face call fails; the others return an image. *)
Definition second_call_throws : HfRequest.t -> nat -> JS.thrown + Blob :=
  fun _ k => if Nat.eqb k 1 then inl (JS.Error "503 Service Unavailable")
             else inr "png bytes".

(** The storage has no URL for the second and the fourth stored file. *)
Definition urls_for_even_ids (i : StorageId) : option string :=
  if Nat.even i then url_of i else None.

Definition a_doc (createdAt : Z) : Doc.t :=
  {| Doc.prompt := "a red fox";
     Doc.model := FAL_MODEL_NAME;
     Doc.provider := "fal";
     Doc.aspectRatio := "1:1";
     Doc.resolution := "2K";
     Doc.outputFormat := "jpeg";
     Doc.numImages := JS.of_Z 2;
     Doc.status := "queued";
     Doc.createdAt := createdAt;
     Doc.updatedAt := createdAt;
     Doc.imageUrls := None;
     Doc.requestId := None;
     Doc.error := None |}.

(** Five documents, listed in insertion order. *)
Definition five_docs_world : World.t :=
  World.mk [ a_doc 10; a_doc 30; a_doc 20; a_doc 50; a_doc 40 ] [] 5 0.

(** * The studio form ([src/App.tsx])

    The component keeps its state in [useState] cells; a handler is a
    function from the state of the render it was created in to the state
    after its setters have been applied.  The browser is present as the
    [window] the theme is read from and written to. *)

Module ProviderOption.
Record t := mk {
  id : string;
  label : string;
  model : string;
  description : string;
}.
End ProviderOption.

Definition providerOptions : list ProviderOption.t :=
  [ {| ProviderOption.id := "fal";
       ProviderOption.label := "Fal.ai";
       ProviderOption.model := "Nano Banana Pro";
       ProviderOption.description :=
         "Premium quality and full control over aspect ratio, resolution, and output format." |};
    {| ProviderOption.id := "huggingface";
       ProviderOption.label := "Hugging Face";
       ProviderOption.model := "SDXL Lightning";
       ProviderOption.description :=
         "Free API tier; outputs 1024px PNG images for quick experiments." |} ].

Definition aspectRatios : list string := [ "1:1"; "4:3"; "3:2"; "16:9"; "9:16" ].
Definition resolutions : list string := [ "1K"; "2K"; "4K" ].
Definition outputFormats : list string := [ "png"; "jpeg"; "webp" ].

(** What the component touches of the browser: [window.localStorage], the
    answer of [window.matchMedia(query).matches] and
    [document.documentElement.dataset.theme]. *)
Module Window.
Record t := mk {
  localStorage : gmap string string;
  matchMedia : string -> bool;
  dataset_theme : option string;
}.
End Window.

(** [getInitialTheme]; [None] is a run without [window]. *)
Definition getInitialTheme (window : option Window.t) : string :=
  match window with
  | None => "light"
  | Some window =>
      let storedTheme := Window.localStorage window !! "theme" in
      let preferred :=
        if Window.matchMedia window "(prefers-color-scheme: dark)"
        then "dark" else "light" in
      match storedTheme with
      | Some stored =>
          if String.eqb stored "light" || String.eqb stored "dark"
          then stored else preferred
      | None => preferred
      end
  end.

(** The effect that runs when [theme] has changed. *)
Definition theme_effect (theme : string) (window : Window.t) : Window.t :=
  {| Window.localStorage := <["theme" := theme]> (Window.localStorage window);
     Window.matchMedia := Window.matchMedia window;
     Window.dataset_theme := Some theme |}.

Definition toggleTheme (current : string) : string :=
  if String.eqb current "light" then "dark" else "light".

(** The state cells of [App]. *)
Module Form.
Record t := mk {
  theme : string;
  prompt : string;
  provider : string;
  aspectRatio : string;
  resolution : string;
  outputFormat : string;
  numImages : number;
  isGenerating : bool;
  error : option string;
}.
End Form.

Definition initial_form (window : option Window.t) : Form.t :=
  {| Form.theme := getInitialTheme window;
     Form.prompt := "";
     Form.provider := "fal";
     Form.aspectRatio := "1:1";
     Form.resolution := "1K";
     Form.outputFormat := "png";
     Form.numImages := JS.of_Z 1;
     Form.isGenerating := false;
     Form.error := None |}.

Definition setTheme (f : string -> string) (ui : Form.t) : Form.t :=
  Form.mk (f (Form.theme ui)) (Form.prompt ui) (Form.provider ui)
          (Form.aspectRatio ui) (Form.resolution ui) (Form.outputFormat ui)
          (Form.numImages ui) (Form.isGenerating ui) (Form.error ui).

Definition setPrompt (value : string) (ui : Form.t) : Form.t :=
  Form.mk (Form.theme ui) value (Form.provider ui)
          (Form.aspectRatio ui) (Form.resolution ui) (Form.outputFormat ui)
          (Form.numImages ui) (Form.isGenerating ui) (Form.error ui).

Definition setProvider (value : string) (ui : Form.t) : Form.t :=
  Form.mk (Form.theme ui) (Form.prompt ui) value
          (Form.aspectRatio ui) (Form.resolution ui) (Form.outputFormat ui)
          (Form.numImages ui) (Form.isGenerating ui) (Form.error ui).

Definition setAspectRatio (value : string) (ui : Form.t) : Form.t :=
  Form.mk (Form.theme ui) (Form.prompt ui) (Form.provider ui)
          value (Form.resolution ui) (Form.outputFormat ui)
          (Form.numImages ui) (Form.isGenerating ui) (Form.error ui).

Definition setResolution (value : string) (ui : Form.t) : Form.t :=
  Form.mk (Form.theme ui) (Form.prompt ui) (Form.provider ui)
          (Form.aspectRatio ui) value (Form.outputFormat ui)
          (Form.numImages ui) (Form.isGenerating ui) (Form.error ui).

Definition setOutputFormat (value : string) (ui : Form.t) : Form.t :=
  Form.mk (Form.theme ui) (Form.prompt ui) (Form.provider ui)
          (Form.aspectRatio ui) (Form.resolution ui) value
          (Form.numImages ui) (Form.isGenerating ui) (Form.error ui).

Definition setNumImages (value : number) (ui : Form.t) : Form.t :=
  Form.mk (Form.theme ui) (Form.prompt ui) (Form.provider ui)
          (Form.aspectRatio ui) (Form.resolution ui) (Form.outputFormat ui)
          value (Form.isGenerating ui) (Form.error ui).

Definition setIsGenerating (value : bool) (ui : Form.t) : Form.t :=
  Form.mk (Form.theme ui) (Form.prompt ui) (Form.provider ui)
          (Form.aspectRatio ui) (Form.resolution ui) (Form.outputFormat ui)
          (Form.numImages ui) value (Form.error ui).

Definition setError (value : option string) (ui : Form.t) : Form.t :=
  Form.mk (Form.theme ui) (Form.prompt ui) (Form.provider ui)
          (Form.aspectRatio ui) (Form.resolution ui) (Form.outputFormat ui)
          (Form.numImages ui) (Form.isGenerating ui) value.

Definition handleProviderChange (value : string) (ui : Form.t) : Form.t :=
  let ui := setProvider value ui in
  let ui :=
    if String.eqb value "huggingface"
    then setOutputFormat "png" (setResolution "1K" ui)
    else ui in
  setError None ui.

Definition handleReset (ui : Form.t) : Form.t :=
  let ui := setPrompt "" ui in
  let ui := setProvider "fal" ui in
  let ui := setAspectRatio "1:1" ui in
  let ui := setResolution "1K" ui in
  let ui := setOutputFormat "png" ui in
  let ui := setNumImages (JS.of_Z 1) ui in
  setError None ui.

(** The [onChange] of the image count; [value] is
    [Number(event.target.value)]. *)
Definition clampImages (value : number) : number :=
  if JS.is_NaN value then JS.of_Z 1
  else JS.Math_min (JS.of_Z 4) (JS.Math_max (JS.of_Z 1) value).

Definition images_onChange (value : number) (ui : Form.t) : Form.t :=
  let clamped := clampImages value in
  setNumImages clamped ui.

(** The argument object [handleSubmit] passes to [generateImage]. *)
Definition request (trimmedPrompt : string) (ui : Form.t) : GenerateArgs.t :=
  {| GenerateArgs.prompt := trimmedPrompt;
     GenerateArgs.aspectRatio := Form.aspectRatio ui;
     GenerateArgs.resolution := Form.resolution ui;
     GenerateArgs.outputFormat := Form.outputFormat ui;
     GenerateArgs.numImages := Some (Form.numImages ui);
     GenerateArgs.provider := Some (Form.provider ui) |}.

(** The function [useAction(api.images.generate)] hands to the component:
    the call runs the action on the backend and its promise settles with the
    outcome, which is taken to reach the browser.  When the action throws,
    the promise is rejected with what the Convex client makes of the
    failure, [report e]; nothing is assumed about [report]. *)
Definition useAction {Args A : Type} (report : JS.thrown -> JS.thrown)
    (action : Args -> M A) : Args -> M A := fun args w =>
  match action args w with
  | (Throw e, w') => (Throw (report e), w')
  | r => r
  end.

Section Submit.

(** [String.prototype.trim]. *)
Variable trim : string -> string.

(** [handleSubmit] up to the [await]: the new state and the request that
    is sent, if one is. *)
Definition handleSubmit_start (ui : Form.t) : Form.t * option GenerateArgs.t :=
  let trimmedPrompt := trim (Form.prompt ui) in
  if negb (JS.truthy (Some trimmedPrompt))
  then (setError (Some "Describe the image you want to create.") ui, None)
  else
    let ui' := setError None (setIsGenerating true ui) in
    (ui', Some (request trimmedPrompt ui)).

(** [handleSubmit] from the point where the awaited call has settled: the
    rest of the [try], or the [catch], and then the [finally].  The setters
    act on the state of that moment. *)
Definition handleSubmit_settle (settled : JS.thrown + GenerateResult.t)
    (ui : Form.t) : Form.t :=
  let ui :=
    match settled with
    | inr _ => setPrompt "" ui
    | inl err =>
        let message :=
          match err with
          | JS.Error message => message
          | JS.NotAnError => "Unable to generate image."
          end in
        setError (Some message) ui
    end in
  setIsGenerating false ui.

(** [handleSubmit] with nothing else happening while the call is awaited;
    [generateImage] is the action behind [useAction].  A call that never
    settles leaves the handler suspended. *)
Definition handleSubmit (generateImage : GenerateArgs.t -> M GenerateResult.t)
    (ui : Form.t) (w : World.t) : Form.t * World.t :=
  match handleSubmit_start ui with
  | (ui', None) => (ui', w)
  | (ui', Some args) =>
      match generateImage args w with
      | (Return res, w') => (handleSubmit_settle (inr res) ui', w')
      | (Throw err, w') => (handleSubmit_settle (inl err) ui', w')
      | (OutOfFuel, w') => (ui', w')
      end
  end.

(** What can happen to the form: the controls the component renders, and
    the settling of a call that is under way. *)
Inductive Event : Type :=
  | ProviderButton (option_ : ProviderOption.t)
  | PromptInput (value : string)
  | AspectRatioSelect (value : string)
  | ResolutionSelect (value : string)
  | FormatSelect (value : string)
  | ImagesInput (value : number)
  | ResetButton
  | ThemeToggle
  | SubmitButton
  | Settled (settled : JS.thrown + GenerateResult.t).

(** The event is one the rendered controls can produce: a provider button
    exists for each of [providerOptions], a [select] yields one of its
    [option]s, the resolution and the format [select] are [disabled] for
    Hugging Face, the submit button is [disabled] while generating, and a
    call settles only while one is under way. *)
Definition offered (ui : Form.t) (ev : Event) : Prop :=
  match ev with
  | ProviderButton option_ => In option_ providerOptions
  | AspectRatioSelect value => In value aspectRatios
  | ResolutionSelect value =>
      In value resolutions /\ Form.provider ui <> "huggingface"
  | FormatSelect value =>
      In value outputFormats /\ Form.provider ui <> "huggingface"
  | SubmitButton => Form.isGenerating ui = false
  | Settled _ => Form.isGenerating ui = true
  | PromptInput _ | ImagesInput _ | ResetButton | ThemeToggle => True
  end.

Definition handle (ev : Event) (ui : Form.t) : Form.t :=
  match ev with
  | ProviderButton option_ => handleProviderChange (ProviderOption.id option_) ui
  | PromptInput value => setPrompt value ui
  | AspectRatioSelect value => setAspectRatio value ui
  | ResolutionSelect value => setResolution value ui
  | FormatSelect value => setOutputFormat value ui
  | ImagesInput value => images_onChange value ui
  | ResetButton => handleReset ui
  | ThemeToggle => setTheme toggleTheme ui
  | SubmitButton => fst (handleSubmit_start ui)
  | Settled settled => handleSubmit_settle settled ui
  end.

(** The state after a sequence of events, and the condition that each of
    them is offered in the state it meets. *)
Fixpoint run (evs : list Event) (ui : Form.t) : Form.t :=
  match evs with
  | [] => ui
  | ev :: evs => run evs (handle ev ui)
  end.

Fixpoint all_offered (evs : list Event) (ui : Form.t) : Prop :=
  match evs with
  | [] => True
  | ev :: evs => offered ui ev /\ all_offered evs (handle ev ui)
  end.

End Submit.

(** *** The gallery card of a document (the body of [images.map]) *)

Definition primaryImage (image : Doc.t) : option string :=
  urls ← Doc.imageUrls image; urls !! 0.

Definition extraImages (image : Doc.t) : nat :=
  match Doc.imageUrls image with
  | Some urls => if (1 <? length urls)%nat then length urls - 1 else 0
  | None => 0
  end.

Definition providerLabel (image : Doc.t) : string :=
  if String.eqb (Doc.provider image) "huggingface" then "Hugging Face" else "Fal.ai".

(** What the card renders: the [src] of the [<img>] ([None]: the
    placeholder), the status pill, the [+n] badge, the provider label and
    the error paragraph. *)
Module Card.
Record t := mk {
  img : option string;
  status : string;
  count : option nat;
  provider : string;
  error : option string;
}.
End Card.

Definition card (image : Doc.t) : Card.t :=
  {| Card.img :=
       if JS.truthy (primaryImage image) then primaryImage image else None;
     Card.status := Doc.status image;
     Card.count :=
       if (0 <? extraImages image)%nat then Some (extraImages image) else None;
     Card.provider := providerLabel image;
     Card.error :=
       if JS.truthy (Doc.error image) then Doc.error image else None |}.

(** ** Vocabulary for the form *)

(** The settings of the form are values the backend accepts, and for
    Hugging Face they are the ones the backend will store. *)
Definition form_ok (ui : Form.t) : Prop :=
  In (Form.provider ui) [ "fal"; "huggingface" ]
  /\ In (Form.aspectRatio ui) aspectRatios
  /\ In (Form.resolution ui) resolutions
  /\ In (Form.outputFormat ui) outputFormats
  /\ in_1_4 (Form.numImages ui)
  /\ (Form.provider ui = "huggingface" ->
      Form.resolution ui = "1K" /\ Form.outputFormat ui = "png").

(** The settings of [ui'] are those of [ui]. *)
Definition same_settings (ui ui' : Form.t) : Prop :=
  Form.theme ui' = Form.theme ui
  /\ Form.provider ui' = Form.provider ui
  /\ Form.aspectRatio ui' = Form.aspectRatio ui
  /\ Form.resolution ui' = Form.resolution ui
  /\ Form.outputFormat ui' = Form.outputFormat ui
  /\ Form.numImages ui' = Form.numImages ui.

(** A [trim] that knows the space character only. *)
Fixpoint trim_start (s : string) : string :=
  match s with
  | String a rest =>
      if Ascii.eqb a (Ascii.ascii_of_nat 32) then trim_start rest else s
  | EmptyString => s
  end.

Definition trim_spaces (s : string) : string :=
  String.rev (trim_start (String.rev (trim_start s))).

Definition huggingface_option : ProviderOption.t :=
  {| ProviderOption.id := "huggingface";
     ProviderOption.label := "Hugging Face";
     ProviderOption.model := "SDXL Lightning";
     ProviderOption.description :=
       "Free API tier; outputs 1024px PNG images for quick experiments." |}.

Definition a_window : Window.t :=
  {| Window.localStorage := {[ "theme" := "solarized" ]};
     Window.matchMedia := fun _ => true;
     Window.dataset_theme := None |}.

(** ** More samples *)

Definition sample_create (aspectRatio : string) (createdAt : Z) : CreateArgs.t :=
  {| CreateArgs.prompt := "a red fox";
     CreateArgs.model := FAL_MODEL_NAME;
     CreateArgs.provider := "fal";
     CreateArgs.aspectRatio := aspectRatio;
     CreateArgs.resolution := "2K";
     CreateArgs.outputFormat := "jpeg";
     CreateArgs.numImages := JS.of_Z 2;
     CreateArgs.status := "queued";
     CreateArgs.createdAt := createdAt;
     CreateArgs.updatedAt := createdAt |}.

(** The patch [generate] sends from its catch block. *)
Definition sample_failed_patch (id : Id) : UpdateArgs.t :=
  {| UpdateArgs.id := id;
     UpdateArgs.status := Some "failed";
     UpdateArgs.imageUrls := None;
     UpdateArgs.requestId := None;
     UpdateArgs.error := Some "503 Service Unavailable";
     UpdateArgs.updatedAt := 70 |}.

Definition a_complete_doc : Doc.t :=
  {| Doc.prompt := "a red fox";
     Doc.model := FAL_MODEL_NAME;
     Doc.provider := "fal";
     Doc.aspectRatio := "1:1";
     Doc.resolution := "2K";
     Doc.outputFormat := "jpeg";
     Doc.numImages := JS.of_Z 1;
     Doc.status := "complete";
     Doc.createdAt := 10;
     Doc.updatedAt := 11;
     Doc.imageUrls := Some [ "https://fal.example/a" ];
     Doc.requestId := Some "req-2";
     Doc.error := None |}.

Definition one_complete_world : World.t := World.mk [ a_complete_doc ] [] 2 0.

(** The URL list [generate] extracts from the answer of the fal endpoint:
    [result.data?.images?.map((image) => image.url).filter(Boolean) ?? []]. *)
Definition fal_urls (result : FalResult.t) : list string :=
  JS.nullish
    (data ← FalResult.data result;
     images ← FalResult.images data;
     Some (filter_Boolean (map FalResult.url images)))
    [].

(** ** Invariants of the table and statements about runs *)

(** No URL of the list is the empty string. *)
Definition urls_truthy (urls : list string) : Prop :=
  Forall (fun u => u <> "") urls.

(** No document of the table carries an empty URL. *)
Definition no_empty_urls (w : World.t) : Prop :=
  forall (d : Doc.t) (urls : list string),
    d ∈ World.images w -> Doc.imageUrls d = Some urls -> urls_truthy urls.

(** [m] keeps the invariant [I] of the world, whatever its outcome, and a
    value it returns satisfies [Q]. *)
Definition keeps {A : Type} (I : World.t -> Prop) (m : M A) (Q : A -> Prop)
  : Prop :=
  forall w : World.t,
    I w -> I (snd (m w)) /\ forall a, fst (m w) = Return a -> Q a.

Definition env_without_credentials
    (subscribe : string -> FalInput.t -> JS.thrown + FalResult.t) : Env.t :=
  {| Env.HF_TOKEN := None;
     Env.FAL_KEY := Some "";
     Env.Date_now := sample_clock;
     Env.textToImage := blob_always;
     Env.getUrl := url_of;
     Env.subscribe := subscribe |}.

(** * Properties *)

(** ** Numbers and rounding *)

Lemma mul_of_Z (a b : Z) : JS.mul (JS.of_Z a) (JS.of_Z b) = JS.of_Z (a * b).
Proof.
  unfold JS.mul, JS.of_Z. f_equal.
  rewrite <- inject_Z_mult. apply inject_Z_Qred.
Qed.

Lemma lt_of_Z (a b : Z) : JS.lt (JS.of_Z a) (JS.of_Z b) = (a <? b)%Z.
Proof.
  unfold JS.lt, JS.of_Z.
  destruct (Z.ltb_spec a b) as [H | H].
  - destruct (Qle_bool (inject_Z b) (inject_Z a)) eqn:E; [| reflexivity].
    apply Qle_bool_iff in E. rewrite <- Zle_Qle in E. lia.
  - destruct (Qle_bool (inject_Z b) (inject_Z a)) eqn:E; [reflexivity |].
    exfalso. rewrite Zle_Qle in H. apply Qle_bool_iff in H. congruence.
Qed.

Lemma Math_max_of_Z (a b : Z) :
  JS.Math_max (JS.of_Z a) (JS.of_Z b) = JS.of_Z (Z.max a b).
Proof.
  unfold JS.Math_max. cbn [JS.is_NaN JS.of_Z orb]. fold (JS.of_Z a) (JS.of_Z b).
  rewrite lt_of_Z. destruct (Z.ltb_spec b a); f_equal; lia.
Qed.

Lemma round_div_64 (v : Q) :
  JS.Math_round (JS.div (JS.Finite v) (JS.of_Z 64))
  = JS.of_Z (Qfloor (v / 64 + (1 # 2))).
Proof.
  unfold JS.div, JS.of_Z. cbn [JS.is_zero]. 
  change (JS.is_zero (inject_Z 64)) with false. cbn iota.
  unfold JS.Math_round, JS.of_Z. do 2 f_equal.
  apply Qfloor_comp. rewrite Qred_correct. reflexivity.
Qed.

Lemma roundToMultiple_64 (v : Q) :
  roundToMultiple (JS.Finite v) (JS.of_Z 64)
  = JS.of_Z (64 * Z.max 1 (Qfloor (v / 64 + (1 # 2)))).
Proof.
  unfold roundToMultiple. rewrite round_div_64, mul_of_Z, Math_max_of_Z.
  f_equal. lia.
Qed.

Lemma round_nearest (v : Q) (k : Z) :
  k = Qfloor (v / 64 + (1 # 2)) ->
  (inject_Z (64 * k) - 32 <= v /\ v < inject_Z (64 * k) + 32)%Q.
Proof.
  intros ->. set (x := (v / 64 + (1 # 2))%Q).
  pose proof (Qfloor_le x) as Hlo. pose proof (Qlt_floor x) as Hhi.
  rewrite inject_Z_plus in Hhi. rewrite inject_Z_mult.
  assert (Hx : (x == v * (1 # 64) + (1 # 2))%Q) by (unfold x; field).
  change (inject_Z 64) with 64%Q. change (inject_Z 1) with 1%Q in Hhi.
  generalize dependent (inject_Z (Qfloor x)). intros z Hlo Hhi.
  generalize dependent x. intros x Hlo Hhi Hx.
  split; lra.
Qed.

Lemma roundToMultiple_64_nearest (v : Q) :
  exists k : Z,
    roundToMultiple (JS.Finite v) (JS.of_Z 64) = JS.of_Z (64 * k)
    /\ (1 <= k)%Z
    /\ ((32 <= v)%Q -> (inject_Z (64 * k) - 32 <= v /\ v < inject_Z (64 * k) + 32)%Q)
    /\ ((v < 32)%Q -> k = 1%Z).
Proof.
  exists (Z.max 1 (Qfloor (v / 64 + (1 # 2)))).
  split; [apply roundToMultiple_64 |]. split; [lia |].
  pose proof (round_nearest v _ eq_refl) as [Hlo Hhi].
  set (k := Qfloor (v / 64 + (1 # 2))) in *.
  split.
  - intros Hv. assert (1 <= k)%Z as Hk.
    { destruct (Z.le_gt_cases 1 k) as [|Hk]; [assumption | exfalso].
      assert (k <= 0)%Z as Hk0 by lia. rewrite Zle_Qle in Hk0.
      rewrite inject_Z_mult in Hhi. change (inject_Z 64) with 64%Q in Hhi.
      change (inject_Z 0) with 0%Q in Hk0. lra. }
    rewrite Z.max_r by assumption. split; assumption.
  - intros Hv. destruct (Z.le_gt_cases k 1) as [Hk | Hk]; [lia | exfalso].
    assert (2 <= k)%Z as Hk2 by lia. rewrite Zle_Qle in Hk2.
    rewrite inject_Z_mult in Hlo. change (inject_Z 64) with 64%Q in Hlo.
    change (inject_Z 2) with 2%Q in Hk2. lra.
Qed.

(* Closes one case of the dimension table with explicit witnesses. *)
Ltac table_case rw rh w h kw kh :=
  exists rw, rh, w, h; repeat split;
  try (exists kw; split; reflexivity || discriminate);
  try (exists kh; split; reflexivity || discriminate);
  try (vm_compute; congruence).

Lemma resolve_shape (aspectRatio : string) :
  get_property ASPECT_RATIO_MAP aspectRatio <> Inherited ->
  exists rw rh w h : Z,
    match own_property ASPECT_RATIO_MAP aspectRatio with
    | Some entry => entry
    | None => (JS.of_Z 1, JS.of_Z 1)
    end = (JS.of_Z rw, JS.of_Z rh)
    /\ resolveHuggingFaceDimensions aspectRatio
       = inr {| width := JS.of_Z w; height := JS.of_Z h |}
    /\ nearest_multiple_of_64 (inject_Z rw * 1024 / inject_Z (Z.max rw rh)) w
    /\ nearest_multiple_of_64 (inject_Z rh * 1024 / inject_Z (Z.max rw rh)) h.
Proof.
  unfold resolveHuggingFaceDimensions, get_property.
  cbn [own_property ASPECT_RATIO_MAP].
  destruct (String.eqb aspectRatio "1:1") eqn:E1.
  { intros _. table_case 1%Z 1%Z 1024%Z 1024%Z 16%Z 16%Z. }
  destruct (String.eqb aspectRatio "4:3") eqn:E2.
  { intros _. table_case 4%Z 3%Z 1024%Z 768%Z 16%Z 12%Z. }
  destruct (String.eqb aspectRatio "3:2") eqn:E3.
  { intros _. table_case 3%Z 2%Z 1024%Z 704%Z 16%Z 11%Z. }
  destruct (String.eqb aspectRatio "16:9") eqn:E4.
  { intros _. table_case 16%Z 9%Z 1024%Z 576%Z 16%Z 9%Z. }
  destruct (String.eqb aspectRatio "9:16") eqn:E5.
  { intros _. table_case 9%Z 16%Z 576%Z 1024%Z 9%Z 16%Z. }
  destruct (JS.inherited_key aspectRatio); [congruence |].
  intros _. table_case 1%Z 1%Z 1024%Z 1024%Z 16%Z 16%Z.
Qed.

(** ** Running the effects *)

Lemma bind_run {A B : Type} (m : M A) (k : A -> M B) (w : World.t) :
  (m ≫= k) w =
  match m w with
  | (Return a, w') => k a w'
  | (Throw e, w') => (Throw e, w')
  | (OutOfFuel, w') => (OutOfFuel, w')
  end.
Proof. reflexivity. Qed.

Lemma UpdateArgs_validator_true (a : UpdateArgs.t) : UpdateArgs.validator a = true.
Proof.
  unfold UpdateArgs.validator.
  assert (forall l, forallb v_string l = true) as Hall by (induction l; auto).
  destruct a as [i s u r e t]; destruct s, u, r, e; cbn; rewrite ?Hall; reflexivity.
Qed.

Lemma update_run (a : UpdateArgs.t) (w : World.t) (l : list Doc.t) (d : Doc.t) :
  World.images w = l ++ [d] ->
  UpdateArgs.id a = length l ->
  update a w =
  (Return tt,
   World.mk (l ++ [patch_fields a d]) (World.storage w)
            (World.clock_reads w) (World.hf_calls w)).
Proof.
  intros Hw Hid. unfold update, validated. rewrite UpdateArgs_validator_true.
  unfold update_handler, db_patch. rewrite bind_run. unfold get_images at 1.
  cbn beta iota. rewrite Hw, Hid.
  rewrite list_lookup_middle by reflexivity.
  unfold put_images. do 2 f_equal.
  rewrite insert_app_r_alt by lia. rewrite Nat.sub_diag. reflexivity.
Qed.

Lemma create_run (a : CreateArgs.t) (w : World.t) :
  CreateArgs.validator a = true ->
  exists d,
    create a w =
    (Return (length (World.images w)),
     World.mk (World.images w ++ [d]) (World.storage w)
              (World.clock_reads w) (World.hf_calls w))
    /\ Doc.prompt d = CreateArgs.prompt a
    /\ Doc.model d = CreateArgs.model a
    /\ Doc.provider d = CreateArgs.provider a
    /\ Doc.aspectRatio d = CreateArgs.aspectRatio a
    /\ Doc.resolution d = CreateArgs.resolution a
    /\ Doc.outputFormat d = CreateArgs.outputFormat a
    /\ Doc.numImages d = CreateArgs.numImages a
    /\ Doc.status d = CreateArgs.status a
    /\ Doc.createdAt d = CreateArgs.createdAt a
    /\ Doc.updatedAt d = CreateArgs.updatedAt a
    /\ Doc.imageUrls d = None /\ Doc.requestId d = None /\ Doc.error d = None.
Proof.
  intros Hv. unfold create, validated. rewrite Hv.
  unfold create_handler, db_insert. eexists. split; [reflexivity |].
  cbn. repeat split; reflexivity.
Qed.

Lemma validator_fields (a : GenerateArgs.t) :
  GenerateArgs.validator a = true ->
  aspectRatioValidator (GenerateArgs.aspectRatio a) = true
  /\ resolutionValidator (GenerateArgs.resolution a) = true
  /\ outputFormatValidator (GenerateArgs.outputFormat a) = true
  /\ (GenerateArgs.provider a = None
      \/ GenerateArgs.provider a = Some "fal"
      \/ GenerateArgs.provider a = Some "huggingface").
Proof.
  unfold GenerateArgs.validator. intros H.
  apply andb_prop in H. destruct H as [H Hp].
  repeat (apply andb_prop in H; destruct H as [H ?]).
  repeat split; try assumption.
  destruct (GenerateArgs.provider a) as [p |]; [| auto].
  cbn in Hp. unfold v_literal in Hp.
  apply orb_prop in Hp. destruct Hp as [Hp | Hp].
  - apply String.eqb_eq in Hp. subst. auto.
  - apply orb_prop in Hp. destruct Hp as [Hp | Hp]; [| discriminate].
    apply String.eqb_eq in Hp. subst. auto.
Qed.

Lemma valid_aspectRatio_resolves (s : string) :
  aspectRatioValidator s = true ->
  exists dims, resolveHuggingFaceDimensions s = inr dims.
Proof.
  unfold aspectRatioValidator, v_union, v_literal. cbn [existsb].
  intros H.
  repeat (apply orb_prop in H; destruct H as [H | H];
          [apply String.eqb_eq in H; subst; eexists; reflexivity |]).
  discriminate.
Qed.

Section Runs.
Variable env : Env.t.

Lemma hf_textToImage_run (req : HfRequest.t) (w : World.t) :
  hf_textToImage env req w =
  let w' := World.mk (World.images w) (World.storage w)
                     (World.clock_reads w) (S (World.hf_calls w)) in
  match Env.textToImage env req (World.hf_calls w) with
  | inl e => (Throw e, w')
  | inr blob => (Return blob, w')
  end.
Proof.
  unfold hf_textToImage. destruct (Env.textToImage env req (World.hf_calls w)); reflexivity.
Qed.

Lemma hf_loop_result (fuel index : nat) (n : number) (req : HfRequest.t)
    (urls : list string) (w : World.t) :
  JS.lt (JS.of_Z (Z.of_nat (index + fuel))) n = false ->
  exists w',
    World.images w' = World.images w
    /\ World.clock_reads w' = World.clock_reads w
    /\ ((exists l, hf_loop env fuel index n req urls w = (Return l, w'))
        \/ (exists e, hf_loop env fuel index n req urls w = (Throw e, w')
                      /\ exists k, Env.textToImage env req k = inl e)).
Proof.
  revert index urls w. induction fuel as [| fuel IH]; intros index urls w Hstop.
  - rewrite Nat.add_0_r in Hstop. cbn [hf_loop]. rewrite Hstop.
    exists w. repeat split. left. eexists. reflexivity.
  - cbn [hf_loop]. destruct (JS.lt (JS.of_Z (Z.of_nat index)) n).
    2:{ exists w. repeat split. left. eexists. reflexivity. }
    rewrite bind_run, hf_textToImage_run. cbv zeta.
    destruct (Env.textToImage env req (World.hf_calls w)) as [e | blob] eqn:Ecall.
    { exists (World.mk (World.images w) (World.storage w)
                       (World.clock_reads w) (S (World.hf_calls w))).
      split; [| split]; [reflexivity | reflexivity |].
      right. exists e. split; [reflexivity | eauto]. }
    rewrite bind_run. unfold storage_store at 1.
    rewrite bind_run. unfold storage_getUrl at 1, mret at 1, M_ret at 1.
    match goal with |- context [hf_loop env fuel (S index) n req ?u ?w1] =>
      destruct (IH (S index) u w1) as (w' & Hi & Hc & Hr) end.
    { rewrite <- Hstop. f_equal. f_equal. lia. }
    exists w'. split; [exact Hi |]. split; [exact Hc |]. exact Hr.
Qed.

Lemma clamp_stops (x : number) :
  JS.lt (JS.of_Z 4) (JS.Math_min (JS.of_Z 4) (JS.Math_max (JS.of_Z 1) x)) = false.
Proof.
  unfold JS.Math_min.
  destruct (JS.is_NaN (JS.of_Z 4) || JS.is_NaN (JS.Math_max (JS.of_Z 1) x)); [reflexivity |].
  destruct (JS.lt (JS.of_Z 4) (JS.Math_max (JS.of_Z 1) x)) eqn:E; [reflexivity | exact E].
Qed.

Lemma lt_stops_later (i j : nat) (n : number) :
  i <= j -> JS.lt (JS.of_Z (Z.of_nat i)) n = false ->
  JS.lt (JS.of_Z (Z.of_nat j)) n = false.
Proof.
  intros Hij. destruct n as [| | q |]; cbn; try reflexivity; try discriminate.
  intros H. apply negb_false_iff in H. apply negb_false_iff.
  apply Qle_bool_iff in H. apply Qle_bool_iff.
  eapply Qle_trans; [exact H |]. rewrite <- Zle_Qle. lia.
Qed.




(** [loop_count] is where the loop condition first fails. *)
Lemma loop_count_spec (n : number) :
  JS.lt (JS.of_Z 4) n = false ->
  (forall i, i < loop_count n -> JS.lt (JS.of_Z (Z.of_nat i)) n = true)
  /\ JS.lt (JS.of_Z (Z.of_nat (loop_count n))) n = false
  /\ loop_count n <= 4.
Proof.
  intros H4. unfold loop_count. cbn [seq List.filter].
  pose proof (lt_stops_later 0 1 n ltac:(lia)) as H01.
  pose proof (lt_stops_later 1 2 n ltac:(lia)) as H12.
  pose proof (lt_stops_later 2 3 n ltac:(lia)) as H23.
  destruct (JS.lt (JS.of_Z (Z.of_nat 0)) n) eqn:E0;
  destruct (JS.lt (JS.of_Z (Z.of_nat 1)) n) eqn:E1;
  destruct (JS.lt (JS.of_Z (Z.of_nat 2)) n) eqn:E2;
  destruct (JS.lt (JS.of_Z (Z.of_nat 3)) n) eqn:E3;
  try (specialize (H01 eq_refl); discriminate);
  try (specialize (H12 eq_refl); discriminate);
  try (specialize (H23 eq_refl); discriminate);
  cbn [length]; (split; [| split; [assumption | lia]]);
  intros i Hi; do 4 (destruct i as [| i]; [assumption || lia |]); lia.
Qed.

Lemma finish_failed (id : Id) (e : JS.thrown) (w : World.t) (l : list Doc.t) (d0 : Doc.t) :
  World.images w = l ++ [d0] -> id = length l ->
  exists d,
    (Date_now env ≫= λ now : Z,
       update
         {| UpdateArgs.id := id;
            UpdateArgs.status := Some "failed";
            UpdateArgs.imageUrls := None;
            UpdateArgs.requestId := None;
            UpdateArgs.error :=
              Some match e with
                   | JS.Error message => message
                   | JS.NotAnError => "Unexpected image generation error."
                   end;
            UpdateArgs.updatedAt := now |}
       ≫= λ _ : (), @throw GenerateResult.t e) w
    = (Throw e,
       World.mk (l ++ [d]) (World.storage w) (S (World.clock_reads w))
                (World.hf_calls w))
    /\ d = patch_fields
             {| UpdateArgs.id := id;
                UpdateArgs.status := Some "failed";
                UpdateArgs.imageUrls := None;
                UpdateArgs.requestId := None;
                UpdateArgs.error :=
                  Some match e with
                       | JS.Error message => message
                       | JS.NotAnError => "Unexpected image generation error."
                       end;
                UpdateArgs.updatedAt := Env.Date_now env (World.clock_reads w) |}
             d0.
Proof.
  intros Hw Hid. eexists. split; [| reflexivity].
  rewrite bind_run. unfold Date_now at 1. rewrite bind_run.
  erewrite update_run; [reflexivity | exact Hw | exact Hid].
Qed.

Lemma finish_complete (id : Id) (urls : list string) (rid : option string)
    (w : World.t) (l : list Doc.t) (d0 : Doc.t) :
  World.images w = l ++ [d0] -> id = length l ->
  exists d,
    (Date_now env ≫= λ now : Z,
       update
         {| UpdateArgs.id := id;
            UpdateArgs.status := Some "complete";
            UpdateArgs.imageUrls := Some urls;
            UpdateArgs.requestId := rid;
            UpdateArgs.error := None;
            UpdateArgs.updatedAt := now |}
       ≫= λ _ : (),
         mret {| GenerateResult.id := id;
                 GenerateResult.imageUrls := urls;
                 GenerateResult.requestId := rid |}) w
    = (Return {| GenerateResult.id := id;
                 GenerateResult.imageUrls := urls;
                 GenerateResult.requestId := rid |},
       World.mk (l ++ [d]) (World.storage w) (S (World.clock_reads w))
                (World.hf_calls w))
    /\ d = patch_fields
             {| UpdateArgs.id := id;
                UpdateArgs.status := Some "complete";
                UpdateArgs.imageUrls := Some urls;
                UpdateArgs.requestId := rid;
                UpdateArgs.error := None;
                UpdateArgs.updatedAt := Env.Date_now env (World.clock_reads w) |}
             d0.
Proof.
  intros Hw Hid. eexists. split; [| reflexivity].
  rewrite bind_run. unfold Date_now at 1. rewrite bind_run.
  erewrite update_run; [reflexivity | exact Hw | exact Hid].
Qed.

Lemma throw_run {A : Type} (e : JS.thrown) (w : World.t) :
  @throw A e w = (Throw e, w).
Proof. reflexivity. Qed.

Lemma ret_run {A : Type} (a : A) (w : World.t) : (mret a : M A) w = (Return a, w).
Proof. reflexivity. Qed.

End Runs.

Ltac project :=
  cbn [World.images World.storage World.clock_reads World.hf_calls
       patch_fields JS.nullish
       Doc.prompt Doc.model Doc.provider Doc.aspectRatio Doc.resolution
       Doc.outputFormat Doc.numImages Doc.status Doc.createdAt Doc.updatedAt
       Doc.imageUrls Doc.requestId Doc.error
       UpdateArgs.id UpdateArgs.status UpdateArgs.imageUrls
       UpdateArgs.requestId UpdateArgs.error UpdateArgs.updatedAt
       GenerateResult.id GenerateResult.imageUrls GenerateResult.requestId
       CreateArgs.prompt CreateArgs.model CreateArgs.provider
       CreateArgs.aspectRatio CreateArgs.resolution CreateArgs.outputFormat
       CreateArgs.numImages CreateArgs.status CreateArgs.createdAt
       CreateArgs.updatedAt].

Ltac project_in H :=
  cbn [World.images World.storage World.clock_reads World.hf_calls
       CreateArgs.prompt CreateArgs.model CreateArgs.provider
       CreateArgs.aspectRatio CreateArgs.resolution CreateArgs.outputFormat
       CreateArgs.numImages CreateArgs.status CreateArgs.createdAt
       CreateArgs.updatedAt] in H.

(* Runs the [create] call at the head of the goal; leaves the fields of the
   queued document as hypotheses. *)
Ltac created :=
  match goal with
  | Har : aspectRatioValidator _ = true,
    Hres : resolutionValidator _ = true,
    Hfmt : outputFormatValidator _ = true
    |- context [create ?a ?w1] =>
      let d0 := fresh "d0" in
      let Hc := fresh "Hc" in
      destruct (create_run a w1)
        as (d0 & Hc & ?F & ?F & ?F & ?F & ?F & ?F & ?F & ?F & ?F & ?F & ?F & ?F & ?F);
      [ unfold CreateArgs.validator;
        cbn -[aspectRatioValidator resolutionValidator outputFormatValidator];
        rewrite ?Har, ?Hres, ?Hfmt; reflexivity
      | repeat match goal with H : _ = _ |- _ => progress project_in H end;
        rewrite Hc; cbv iota beta; unfold try_catch; rewrite ?bind_run ]
  end.

Ltac fields :=
  project; repeat split; try reflexivity; try assumption; try congruence;
  try match goal with
      | |- match ?o with Some _ => _ | None => _ end = _ =>
          destruct o; congruence
      end.

(* The catch block, entered with the thrown value at the head of the goal. *)
Ltac failed_end :=
  match goal with
  | |- context [(Date_now ?env ≫= _) (World.mk (?l ++ [?d0]) ?s ?c ?h)] =>
      let d := fresh "d" in
      let Hrun := fresh "Hrun" in
      let Hd := fresh "Hd" in
      match goal with
      | |- context [@throw _ ?e] =>
          destruct (finish_failed env (length l) e (World.mk (l ++ [d0]) s c h)
                      l d0 eq_refl eq_refl) as (d & Hrun & Hd)
      end;
      project_in Hrun; rewrite Hrun;
      eexists _, d, _; split; [reflexivity |]; subst d;
      split; [reflexivity |]; split; [reflexivity |];
      split; [fields |]; split; [reflexivity |];
      right; eexists; split; [reflexivity |];
      split; [unfold failed_with; fields | unfold failure_cause; eauto 10]
  end.

Ltac complete_end :=
  match goal with
  | |- context [(Date_now ?env ≫= λ now, update (UpdateArgs.mk ?i _ (Some ?urls) ?rid _ _) ≫= _)
                  (World.mk (?l ++ [?d0]) ?s ?c ?h)] =>
      let d := fresh "d" in
      let Hrun := fresh "Hrun" in
      let Hd := fresh "Hd" in
      destruct (finish_complete env (length l) urls rid (World.mk (l ++ [d0]) s c h)
                  l d0 eq_refl eq_refl) as (d & Hrun & Hd);
      project_in Hrun; rewrite Hrun;
      eexists _, d, _; split; [reflexivity |]; subst d;
      split; [reflexivity |]; split; [reflexivity |];
      split; [fields |]; split; [reflexivity |];
      left; eexists; split; [reflexivity |];
      split; [reflexivity |]; split; [unfold completed_with; fields | fields]
  end.

Ltac fal_branch :=
  match goal with
  | |- context [JS.truthy (Env.FAL_KEY ?env)] =>
      destruct (JS.truthy (Env.FAL_KEY env)); cbn [negb];
      [ rewrite ret_run, bind_run; unfold fal_subscribe at 1;
        match goal with
        | |- context [Env.subscribe env ?ep ?inp] =>
            let Esub := fresh "Esub" in
            destruct (Env.subscribe env ep inp) as [e | result] eqn:Esub;
            cbn [lift];
            [ rewrite throw_run; failed_end
            | rewrite ret_run; complete_end ]
        end
      | rewrite throw_run; failed_end ]
  end.

Lemma generate_lifecycle (env : Env.t) (fuel : nat) (args : GenerateArgs.t) (w : World.t) :
  GenerateArgs.validator args = true -> 4 <= fuel ->
  exists r d w',
    generate env fuel args w = (r, w')
    /\ World.images w' = World.images w ++ [d]
    /\ World.clock_reads w' = S (S (World.clock_reads w))
    /\ created_by env args w d
    /\ Doc.updatedAt d = Env.Date_now env (S (World.clock_reads w))
    /\ ((exists res, r = Return res
           /\ GenerateResult.id res = length (World.images w)
           /\ completed_with res d
           /\ (Doc.provider d = "huggingface" -> GenerateResult.imageUrls res <> []))
        \/ (exists e, r = Throw e /\ failed_with e d /\ failure_cause env e)).
Proof.
  intros Hv Hfuel.
  destruct (validator_fields args Hv) as (Har & Hres & Hfmt & Hprov).
  unfold generate, validated. rewrite Hv. unfold generate_handler.
  rewrite bind_run. unfold Date_now at 1. cbv beta iota zeta.
  rewrite bind_run. unfold created_by.
  destruct w as [imgs sto clk hfc]. project.
  assert (JS.lt (JS.of_Z (Z.of_nat (0 + fuel))) (clamped (GenerateArgs.numImages args)) = false)
    as Hstop by (apply (lt_stops_later 4); [lia | apply clamp_stops]).
  destruct Hprov as [Hp | [Hp | Hp]]; rewrite Hp.
  - change (normalizeProvider None) with "fal".
    change (String.eqb "fal" "huggingface") with false. cbv iota.
    created. fal_branch.
  - change (normalizeProvider (Some "fal")) with "fal".
    change (String.eqb "fal" "huggingface") with false. cbv iota.
    created. fal_branch.
  - change (normalizeProvider (Some "huggingface")) with "huggingface".
    change (String.eqb "huggingface" "huggingface") with true. cbv iota.
    created.
    destruct (JS.truthy (Env.HF_TOKEN env)); cbn [negb].
    2:{ rewrite throw_run; failed_end. }
    rewrite ret_run, bind_run.
    destruct (valid_aspectRatio_resolves _ Har) as [dims ->]. cbn [lift].
    rewrite ret_run, bind_run.
    match goal with |- context [hf_loop env fuel 0 ?n ?req ?u ?w2] =>
      destruct (hf_loop_result env fuel 0 n req u w2 Hstop)
        as ([imgs' sto' clk' hfc'] & Hi & Hk & [[l Hl] | [e [Hl Horigin]]]);
      rewrite Hl; project_in Hi; project_in Hk; subst imgs' clk'
    end; [| failed_end].
    cbv iota beta. rewrite bind_run.
    destruct l as [| u l]; cbn [length Nat.eqb];
      [rewrite throw_run; failed_end |].
    rewrite ret_run. complete_end.
Qed.

(** ** The Hugging Face loop when every call returns *)

Lemma hf_loop_collects (env : Env.t) (count : nat) :
  forall (fuel index : nat) (n : number) (req : HfRequest.t)
         (urls : list string) (w : World.t),
    (forall i, i < count -> JS.lt (JS.of_Z (Z.of_nat (index + i))) n = true) ->
    JS.lt (JS.of_Z (Z.of_nat (index + count))) n = false ->
    count <= fuel ->
    (forall i, i < count ->
       exists blob, Env.textToImage env req (World.hf_calls w + i) = inr blob) ->
    exists sto',
      hf_loop env fuel index n req urls w
      = (Return (urls ++ filter_Boolean (offered_urls env w count)),
         World.mk (World.images w) sto' (World.clock_reads w)
                  (World.hf_calls w + count)).
Proof.
  induction count as [| count IH]; intros fuel index n req urls w Hlt Hstop Hfuel Hcalls.
  - rewrite Nat.add_0_r in Hstop.
    destruct fuel; cbn [hf_loop]; rewrite Hstop; exists (World.storage w);
      rewrite ret_run, app_nil_r, Nat.add_0_r; destruct w; reflexivity.
  - destruct fuel as [| fuel]; [lia |]. cbn [hf_loop].
    pose proof (Hlt 0 ltac:(lia)) as Hfirst. rewrite Nat.add_0_r in Hfirst.
    rewrite Hfirst.
    rewrite bind_run, hf_textToImage_run. cbv zeta.
    destruct (Hcalls 0) as [blob Hblob]; [lia |].
    rewrite Nat.add_0_r in Hblob. rewrite Hblob.
    rewrite bind_run. unfold storage_store at 1.
    rewrite bind_run. unfold storage_getUrl at 1. rewrite ret_run.
    match goal with |- context [hf_loop env fuel (S index) n req ?u ?w1] =>
      destruct (IH fuel (S index) n req u w1) as [sto' Hrun] end.
    + intros i Hi. replace (S index + i) with (index + S i) by lia. apply Hlt. lia.
    + replace (S index + count) with (index + S count) by lia. exact Hstop.
    + lia.
    + intros i Hi. cbn [World.hf_calls].
      replace (S (World.hf_calls w) + i) with (World.hf_calls w + S i) by lia.
      apply Hcalls. lia.
    + exists sto'. rewrite Hrun. cbn [World.images World.clock_reads World.hf_calls World.storage].
      f_equal; [| f_equal; lia]. f_equal.
      unfold offered_urls. cbn [seq map filter_Boolean World.storage].
      rewrite Nat.add_0_r, <- seq_shift, map_map, length_app. cbn [length].
      assert (map (fun i => Env.getUrl env (length (World.storage w) + 1 + i)) (seq 0 count)
              = map (fun i => Env.getUrl env (length (World.storage w) + S i)) (seq 0 count)) as ->.
      { apply map_ext. intros i. f_equal. lia. }
      destruct (Env.getUrl env (length (World.storage w))) as [u |]; [| reflexivity].
      destruct (JS.truthy (Some u)); [| reflexivity].
      rewrite <- app_assoc. reflexivity.
Qed.

Lemma generate_hf_run (env : Env.t) (fuel : nat) (args : GenerateArgs.t)
    (w : World.t) (dims : Dimensions) (count : nat) :
  GenerateArgs.validator args = true ->
  GenerateArgs.provider args = Some "huggingface" ->
  JS.truthy (Env.HF_TOKEN env) = true ->
  resolveHuggingFaceDimensions (GenerateArgs.aspectRatio args) = inr dims ->
  (forall i, i < count ->
     JS.lt (JS.of_Z (Z.of_nat i)) (clamped (GenerateArgs.numImages args)) = true) ->
  JS.lt (JS.of_Z (Z.of_nat count)) (clamped (GenerateArgs.numImages args)) = false ->
  count <= fuel ->
  (forall i, i < count ->
     exists blob,
       Env.textToImage env
         {| HfRequest.model := HUGGINGFACE_MODEL_NAME;
            HfRequest.inputs := GenerateArgs.prompt args;
            HfRequest.width := width dims;
            HfRequest.height := height dims |}
         (World.hf_calls w + i) = inr blob) ->
  exists d w',
    generate env fuel args w
    = (match filter_Boolean (offered_urls env w count) with
       | [] => Throw (JS.Error "Hugging Face returned no images.")
       | urls => Return {| GenerateResult.id := length (World.images w);
                           GenerateResult.imageUrls := urls;
                           GenerateResult.requestId := None |}
       end, w')
    /\ World.images w' = World.images w ++ [d]
    /\ match filter_Boolean (offered_urls env w count) with
       | [] => Doc.status d = "failed" /\ Doc.imageUrls d = None
       | urls => Doc.status d = "complete" /\ Doc.imageUrls d = Some urls
       end.
Proof.
  intros Hv Hp Htoken Hdims Hlt Hstop Hfuel Hcalls.
  destruct (validator_fields args Hv) as (Har & Hres & Hfmt & _).
  unfold generate, validated. rewrite Hv. unfold generate_handler.
  rewrite bind_run. unfold Date_now at 1. cbv beta iota zeta.
  rewrite bind_run. rewrite Hp.
  change (normalizeProvider (Some "huggingface")) with "huggingface".
  change (String.eqb "huggingface" "huggingface") with true. cbv iota.
  destruct w as [imgs sto clk hfc]. project.
  created. rewrite Htoken. cbn [negb]. rewrite ret_run, bind_run.
  rewrite Hdims. cbn [lift].
  rewrite ret_run, bind_run.
  match goal with |- context [hf_loop env fuel 0 ?n ?req ?u ?w2] =>
    destruct (hf_loop_collects env count fuel 0 n req u w2) as [sto' Hrun];
      [ exact Hlt | exact Hstop | exact Hfuel | exact Hcalls |]
  end.
  rewrite Hrun. cbn [app]. unfold offered_urls in *. project.
  generalize (filter_Boolean
    (map (fun i => Env.getUrl env (length sto + i)) (seq 0 count))).
  intros urls. cbv iota beta. rewrite bind_run.
  destruct urls as [| u urls]; cbn [length Nat.eqb].
  - rewrite throw_run.
    match goal with |- context [(Date_now env ≫= _) (World.mk (?l ++ [?d0]) ?s ?c ?h)] =>
      destruct (finish_failed env (length l)
                  (JS.Error "Hugging Face returned no images.")
                  (World.mk (l ++ [d0]) s c h) l d0 eq_refl eq_refl)
        as (d & Hfin & Hd) end.
    project_in Hfin. rewrite Hfin. eexists d, _. split; [reflexivity |].
    subst d. fields.
  - rewrite ret_run.
    match goal with |- context [(Date_now env ≫= _) (World.mk (?l ++ [?d0]) ?s ?c ?h)] =>
      destruct (finish_complete env (length l) (u :: urls) None
                  (World.mk (l ++ [d0]) s c h) l d0 eq_refl eq_refl)
        as (d & Hfin & Hd) end.
    project_in Hfin. rewrite Hfin. eexists d, _. split; [reflexivity |].
    subst d. fields.
Qed.

(** ** The Hugging Face loop when a call throws *)

Lemma hf_loop_throws (env : Env.t) (k : nat) :
  forall (fuel index : nat) (n : number) (req : HfRequest.t)
         (urls : list string) (w : World.t) (e : JS.thrown),
    (forall i, i <= k -> JS.lt (JS.of_Z (Z.of_nat (index + i))) n = true) ->
    k < fuel ->
    (forall i, i < k ->
       exists blob, Env.textToImage env req (World.hf_calls w + i) = inr blob) ->
    Env.textToImage env req (World.hf_calls w + k) = inl e ->
    exists blobs,
      length blobs = k
      /\ hf_loop env fuel index n req urls w
         = (Throw e,
            World.mk (World.images w) (World.storage w ++ blobs)
                     (World.clock_reads w) (World.hf_calls w + S k)).
Proof.
  induction k as [| k IH]; intros fuel index n req urls w e Hlt Hfuel Hcalls Hthrow.
  - destruct fuel as [| fuel]; [lia |]. cbn [hf_loop].
    pose proof (Hlt 0 ltac:(lia)) as Hfirst. rewrite Nat.add_0_r in Hfirst.
    rewrite Hfirst, bind_run, hf_textToImage_run. cbv zeta.
    rewrite Nat.add_0_r in Hthrow. rewrite Hthrow.
    exists []. split; [reflexivity |]. rewrite app_nil_r.
    do 2 f_equal. lia.
  - destruct fuel as [| fuel]; [lia |]. cbn [hf_loop].
    pose proof (Hlt 0 ltac:(lia)) as Hfirst. rewrite Nat.add_0_r in Hfirst.
    rewrite Hfirst, bind_run, hf_textToImage_run. cbv zeta.
    destruct (Hcalls 0) as [blob Hblob]; [lia |].
    rewrite Nat.add_0_r in Hblob. rewrite Hblob.
    rewrite bind_run. unfold storage_store at 1.
    rewrite bind_run. unfold storage_getUrl at 1. rewrite ret_run.
    match goal with |- context [hf_loop env fuel (S index) n req ?u ?w1] =>
      destruct (IH fuel (S index) n req u w1 e) as (blobs & Hlen & Hrun) end.
    + intros i Hi. replace (S index + i) with (index + S i) by lia. apply Hlt. lia.
    + lia.
    + intros i Hi. cbn [World.hf_calls].
      replace (S (World.hf_calls w) + i) with (World.hf_calls w + S i) by lia.
      apply Hcalls. lia.
    + cbn [World.hf_calls].
      replace (S (World.hf_calls w) + k) with (World.hf_calls w + S k) by lia.
      exact Hthrow.
    + exists (blob :: blobs). split; [cbn; lia |]. rewrite Hrun.
      cbn [World.images World.clock_reads World.hf_calls World.storage].
      f_equal. f_equal; [rewrite <- app_assoc; reflexivity | lia].
Qed.

Lemma generate_hf_throws (env : Env.t) (fuel : nat) (args : GenerateArgs.t)
    (w : World.t) (dims : Dimensions) (k : nat) (e : JS.thrown) :
  GenerateArgs.validator args = true ->
  GenerateArgs.provider args = Some "huggingface" ->
  JS.truthy (Env.HF_TOKEN env) = true ->
  resolveHuggingFaceDimensions (GenerateArgs.aspectRatio args) = inr dims ->
  (forall i, i <= k ->
     JS.lt (JS.of_Z (Z.of_nat i)) (clamped (GenerateArgs.numImages args)) = true) ->
  k < fuel ->
  (forall i, i < k ->
     exists blob,
       Env.textToImage env
         {| HfRequest.model := HUGGINGFACE_MODEL_NAME;
            HfRequest.inputs := GenerateArgs.prompt args;
            HfRequest.width := width dims;
            HfRequest.height := height dims |}
         (World.hf_calls w + i) = inr blob) ->
  Env.textToImage env
    {| HfRequest.model := HUGGINGFACE_MODEL_NAME;
       HfRequest.inputs := GenerateArgs.prompt args;
       HfRequest.width := width dims;
       HfRequest.height := height dims |}
    (World.hf_calls w + k) = inl e ->
  exists d blobs,
    generate env fuel args w
    = (Throw e,
       World.mk (World.images w ++ [d]) (World.storage w ++ blobs)
                (S (S (World.clock_reads w))) (World.hf_calls w + S k))
    /\ length blobs = k
    /\ failed_with e d
    /\ created_by env args w d.
Proof.
  intros Hv Hp Htoken Hdims Hlt Hfuel Hcalls Hthrow.
  destruct (validator_fields args Hv) as (Har & Hres & Hfmt & _).
  unfold generate, validated. rewrite Hv. unfold generate_handler.
  rewrite bind_run. unfold Date_now at 1. cbv beta iota zeta.
  rewrite bind_run. unfold created_by. rewrite Hp.
  change (normalizeProvider (Some "huggingface")) with "huggingface".
  change (String.eqb "huggingface" "huggingface") with true. cbv iota.
  destruct w as [imgs sto clk hfc]. project.
  created. rewrite Htoken. cbn [negb]. rewrite ret_run, bind_run.
  rewrite Hdims. cbn [lift].
  rewrite ret_run, bind_run.
  match goal with |- context [hf_loop env fuel 0 ?n ?req ?u ?w2] =>
    destruct (hf_loop_throws env k fuel 0 n req u w2 e) as (blobs & Hlen & Hrun);
      [ exact Hlt | exact Hfuel | exact Hcalls | exact Hthrow |]
  end.
  rewrite Hrun. project.
  match goal with |- context [(Date_now env ≫= _) (World.mk (?l ++ [?d0]) ?s ?c ?h)] =>
    destruct (finish_failed env (length l) e
                (World.mk (l ++ [d0]) s c h) l d0 eq_refl eq_refl)
      as (d & Hfin & Hd) end.
  project_in Hfin. rewrite Hfin. exists d, blobs. split; [reflexivity |].
  split; [exact Hlen |]. subst d. split; [unfold failed_with; fields | fields].
Qed.

(** ** The index [by_created_at] *)

Lemma index_insert_perm (d : Doc.t) (idx : list Doc.t) :
  Permutation (index_insert d idx) (d :: idx).
Proof.
  induction idx as [| x rest IH]; cbn [index_insert]; [reflexivity |].
  destruct (Doc.createdAt x <=? Doc.createdAt d)%Z; [reflexivity |].
  rewrite IH. apply perm_swap.
Qed.

Lemma index_insert_sorted (d : Doc.t) (idx : list Doc.t) :
  newest_first idx -> newest_first (index_insert d idx).
Proof.
  unfold newest_first. induction 1 as [| x rest Hs IH Hx]; cbn [index_insert].
  - repeat constructor.
  - destruct (Z.leb_spec (Doc.createdAt x) (Doc.createdAt d)) as [Hle | Hgt].
    + constructor; [constructor; assumption |].
      constructor; [exact Hle |].
      eapply Forall_impl; [exact Hx |]. cbn. intros; lia.
    + constructor; [exact IH |].
      rewrite index_insert_perm. constructor; [lia | exact Hx].
Qed.

Lemma by_created_at_desc_spec (table : list Doc.t) :
  newest_first (by_created_at_desc table)
  /\ Permutation (by_created_at_desc table) table.
Proof.
  unfold by_created_at_desc.
  assert (forall idx, newest_first idx ->
            newest_first (fold_left (fun idx d => index_insert d idx) table idx)
            /\ Permutation (fold_left (fun idx d => index_insert d idx) table idx)
                           (idx ++ table)) as H.
  { induction table as [| d table IH]; intros idx Hs; cbn [fold_left].
    - rewrite app_nil_r. split; [exact Hs | reflexivity].
    - destruct (IH (index_insert d idx) (index_insert_sorted d idx Hs)) as [H1 H2].
      split; [exact H1 |]. rewrite H2, index_insert_perm.
      apply Permutation_middle. }
  destruct (H [] (SSorted_nil _)) as [H1 H2]. split; assumption.
Qed.

Lemma take_count_nat (n : nat) : take_count (JS.of_Z (Z.of_nat n)) = Some n.
Proof.
  unfold take_count, JS.of_Z, JS.nonneg. rewrite Qfloor_Z, Qeq_bool_refl.
  assert (Qle_bool 0 (inject_Z (Z.of_nat n)) = true) as ->.
  { apply Qle_bool_iff. change 0%Q with (inject_Z 0). rewrite <- Zle_Qle. lia. }
  cbn [andb]. rewrite Nat2Z.id. reflexivity.
Qed.

Lemma newest_first_split (rows : list Doc.t) (n : nat) :
  newest_first rows ->
  newest_first (take n rows)
  /\ forall x y, x ∈ take n rows -> y ∈ drop n rows ->
       (Doc.createdAt y <= Doc.createdAt x)%Z.
Proof.
  unfold newest_first. intros Hs. rewrite <- (take_drop n rows) in Hs at 1.
  revert Hs. generalize (take n rows) (drop n rows). intros front back.
  induction front as [| a front IH]; cbn; intros Hs.
  - split; [constructor |]. intros x y Hx. inversion Hx.
  - inversion Hs as [| ? ? Hs' Ha]; subst. destruct (IH Hs') as [IH1 IH2].
    split.
    + constructor; [exact IH1 |]. rewrite Forall_app in Ha. tauto.
    + intros x y Hx Hy. apply elem_of_cons in Hx. destruct Hx as [-> | Hx].
      * rewrite Forall_app in Ha. destruct Ha as [_ Ha].
        rewrite Forall_forall in Ha. apply Ha. exact Hy.
      * apply IH2; assumption.
Qed.


(** ** Frame: what the operations leave alone *)

Lemma same_inputs_refl (d : Doc.t) : same_inputs d d.
Proof. unfold same_inputs. repeat split. Qed.

Lemma same_inputs_trans (d1 d2 d3 : Doc.t) :
  same_inputs d1 d2 -> same_inputs d2 d3 -> same_inputs d1 d3.
Proof. unfold same_inputs. intuition congruence. Qed.

Lemma same_inputs_patch (a : UpdateArgs.t) (d : Doc.t) :
  same_inputs d (patch_fields a d).
Proof. unfold same_inputs. repeat split. Qed.

Lemma keeps_inputs_refl (w : World.t) : keeps_inputs w w.
Proof. intros i d H. exists d. split; [exact H | apply same_inputs_refl]. Qed.

Lemma keeps_inputs_trans (w1 w2 w3 : World.t) :
  keeps_inputs w1 w2 -> keeps_inputs w2 w3 -> keeps_inputs w1 w3.
Proof.
  intros H12 H23 i d H. destruct (H12 i d H) as (d2 & H2 & S2).
  destruct (H23 i d2 H2) as (d3 & H3 & S3).
  exists d3. split; [exact H3 | eapply same_inputs_trans; eassumption].
Qed.

Lemma keeps_inputs_same_images (w w' : World.t) :
  World.images w' = World.images w -> keeps_inputs w w'.
Proof. intros E i d H. exists d. rewrite E. split; [exact H | apply same_inputs_refl]. Qed.

Lemma frame_ret {A : Type} (a : A) : frame (mret a : M A).
Proof. intros w. apply keeps_inputs_refl. Qed.

Lemma frame_throw {A : Type} (e : JS.thrown) : frame (@throw A e).
Proof. intros w. apply keeps_inputs_refl. Qed.

Lemma frame_out_of_fuel {A : Type} : frame (@out_of_fuel A).
Proof. intros w. apply keeps_inputs_refl. Qed.

Lemma frame_lift {A : Type} (r : JS.thrown + A) : frame (lift r).
Proof. destruct r; [apply frame_throw | apply frame_ret]. Qed.

Lemma frame_bind {A B : Type} (m : M A) (k : A -> M B) :
  frame m -> (forall a, frame (k a)) -> frame (m ≫= k).
Proof.
  intros Hm Hk w. rewrite bind_run. specialize (Hm w).
  destruct (m w) as [[a | e |] w1]; cbn [snd] in *; try exact Hm.
  eapply keeps_inputs_trans; [exact Hm | apply Hk].
Qed.

Lemma frame_try_catch {A : Type} (body : M A) (handler : JS.thrown -> M A) :
  frame body -> (forall e, frame (handler e)) -> frame (try_catch body handler).
Proof.
  intros Hb Hh w. unfold try_catch. specialize (Hb w).
  destruct (body w) as [[a | e |] w1]; cbn [snd] in *; try exact Hb.
  eapply keeps_inputs_trans; [exact Hb | apply Hh].
Qed.

Lemma frame_validated {Args A : Type} (validator : Args -> bool)
    (handler : Args -> M A) (args : Args) :
  frame (handler args) -> frame (validated validator handler args).
Proof. unfold validated. destruct (validator args); [auto | intros _; apply frame_throw]. Qed.

Lemma frame_get_images : frame get_images.
Proof. intros w. apply keeps_inputs_refl. Qed.

Lemma frame_create (a : CreateArgs.t) : frame (create a).
Proof.
  apply frame_validated. intros w i d H.
  unfold create_handler, db_insert. rewrite bind_run. unfold get_images.
  rewrite bind_run. unfold put_images. cbn [snd World.images].
  exists d. split; [| apply same_inputs_refl].
  rewrite ret_run. cbn [snd World.images].
  rewrite lookup_app_l; [exact H |]. eapply lookup_lt_Some; exact H.
Qed.

Lemma frame_update (a : UpdateArgs.t) : frame (update a).
Proof.
  apply frame_validated. intros w i d H.
  unfold update_handler, db_patch. rewrite bind_run. unfold get_images.
  destruct (World.images w !! UpdateArgs.id a) as [d0 |] eqn:E; cbn.
  - destruct (decide (i = UpdateArgs.id a)) as [-> | Hne].
    + exists (patch_fields a d0). split.
      * apply list_lookup_insert_eq. eapply lookup_lt_Some; exact E.
      * assert (d0 = d) by (unfold Id in *; congruence). subst. apply same_inputs_patch.
    + exists d. split; [| apply same_inputs_refl].
      rewrite list_lookup_insert_ne by congruence. exact H.
  - exists d. split; [exact H | apply same_inputs_refl].
Qed.

Lemma frame_list (limit : option number) (w : World.t) :
  snd (list_ limit w) = w.
Proof.
  unfold list_, validated. destruct (v_optional v_number limit); [| reflexivity].
  unfold list_handler. rewrite bind_run. unfold get_images, db_take.
  destruct (take_count _); reflexivity.
Qed.

Section Frames.
Variable env : Env.t.

Lemma frame_Date_now : frame (Date_now env).
Proof. intros w. apply keeps_inputs_same_images. reflexivity. Qed.

Lemma frame_hf_textToImage (req : HfRequest.t) : frame (hf_textToImage env req).
Proof.
  intros w. apply keeps_inputs_same_images. rewrite hf_textToImage_run.
  cbv zeta. destruct (Env.textToImage env req (World.hf_calls w)); reflexivity.
Qed.

Lemma frame_storage_store (blob : Blob) : frame (storage_store blob).
Proof. intros w. apply keeps_inputs_same_images. reflexivity. Qed.

Lemma frame_hf_loop (fuel index : nat) (n : number) (req : HfRequest.t)
    (urls : list string) :
  frame (hf_loop env fuel index n req urls).
Proof.
  revert index urls. induction fuel as [| fuel IH]; intros index urls;
    cbn [hf_loop]; destruct (JS.lt _ n);
    try apply frame_ret; try apply frame_out_of_fuel.
  apply frame_bind; [apply frame_hf_textToImage | intros blob].
  apply frame_bind; [apply frame_storage_store | intros storageId].
  apply frame_bind; [apply frame_ret | intros url]. apply IH.
Qed.

Lemma frame_generate (fuel : nat) (args : GenerateArgs.t) :
  frame (generate env fuel args).
Proof.
  apply frame_validated. unfold generate_handler.
  apply frame_bind; [apply frame_Date_now | intros requestedAt]. cbv zeta.
  apply frame_bind; [apply frame_create | intros imageId].
  apply frame_try_catch; [destruct (String.eqb _ "huggingface") | intros e];
    repeat first
      [ apply frame_ret | apply frame_throw | apply frame_lift
      | apply frame_hf_loop | apply frame_Date_now | apply frame_update
      | match goal with |- frame (if ?b then _ else _) => destruct b end
      | apply frame_bind; [| intros ?] ].
Qed.

End Frames.

(** On the five rows of the table the rational model and binary64 agree:
    the doubles handed to [Math.round] round to the same integers, and the
    final products are exact. *)
Lemma binary64_agrees_on_table :
  Forall Binary64.agrees
    [ ("1:1", (1, 1), (16, 16)); ("4:3", (4, 3), (16, 12));
      ("3:2", (3, 2), (16, 11)); ("16:9", (16, 9), (16, 9));
      ("9:16", (9, 16), (9, 16)) ]%Z.
Proof. repeat constructor; vm_compute; reflexivity. Qed.

(** * The claims *)

(** ** The provider adapter *)

(** C3.  Dimension resolution for Hugging Face.  For every aspect-ratio string
    whose read from the table is an entry or [undefined] (that is, every
    string but the member names of [Object.prototype]): the ratio pair is
    the table entry, or 1:1 when the string is not in the table; each
    component is scaled by 1024 over the larger component; and both results
    are rounded to the nearest multiple of 64, never below 64.  In
    particular 16:9 gives 1024 x 576, 9:16 gives 576 x 1024 and 1:1 gives
    1024 x 1024; and [roundToMultiple] of any finite value by 64 is a
    multiple of 64 that is at least 64 and, from 32 upwards, a nearest
    one. *)
Theorem resolveHuggingFaceDimensions_spec (aspectRatio : string) :
  get_property ASPECT_RATIO_MAP aspectRatio <> Inherited ->
  (exists rw rh w h : Z,
     match own_property ASPECT_RATIO_MAP aspectRatio with
     | Some entry => entry
     | None => (JS.of_Z 1, JS.of_Z 1)
     end = (JS.of_Z rw, JS.of_Z rh)
     /\ resolveHuggingFaceDimensions aspectRatio
        = inr {| width := JS.of_Z w; height := JS.of_Z h |}
     /\ nearest_multiple_of_64 (inject_Z rw * 1024 / inject_Z (Z.max rw rh)) w
     /\ nearest_multiple_of_64 (inject_Z rh * 1024 / inject_Z (Z.max rw rh)) h)
  /\ (get_property ASPECT_RATIO_MAP aspectRatio = Undefined ->
      resolveHuggingFaceDimensions aspectRatio
      = resolveHuggingFaceDimensions "1:1")
  /\ resolveHuggingFaceDimensions "16:9"
     = inr {| width := JS.of_Z 1024; height := JS.of_Z 576 |}
  /\ resolveHuggingFaceDimensions "9:16"
     = inr {| width := JS.of_Z 576; height := JS.of_Z 1024 |}
  /\ resolveHuggingFaceDimensions "1:1"
     = inr {| width := JS.of_Z 1024; height := JS.of_Z 1024 |}
  /\ (forall v : Q, exists k : Z,
        roundToMultiple (JS.Finite v) (JS.of_Z 64) = JS.of_Z (64 * k)
        /\ (1 <= k)%Z
        /\ ((32 <= v)%Q ->
            (inject_Z (64 * k) - 32 <= v /\ v < inject_Z (64 * k) + 32)%Q)
        /\ ((v < 32)%Q -> k = 1%Z)).
Proof.
  intros Hkey. split; [exact (resolve_shape aspectRatio Hkey) |].
  split.
  { unfold resolveHuggingFaceDimensions. intros ->. reflexivity. }
  repeat (split; [reflexivity |]). exact roundToMultiple_64_nearest.
Qed.

Lemma resolve_4_3_witness :
  get_property ASPECT_RATIO_MAP "4:3" <> Inherited
  /\ resolveHuggingFaceDimensions "4:3"
     = inr {| width := JS.of_Z 1024; height := JS.of_Z 768 |}
  /\ exists rw rh w h : Z,
       (JS.of_Z 4, JS.of_Z 3) = (JS.of_Z rw, JS.of_Z rh)
       /\ resolveHuggingFaceDimensions "4:3"
          = inr {| width := JS.of_Z w; height := JS.of_Z h |}
       /\ nearest_multiple_of_64 (inject_Z rw * 1024 / inject_Z (Z.max rw rh)) w
       /\ nearest_multiple_of_64 (inject_Z rh * 1024 / inject_Z (Z.max rw rh)) h.
Proof.
  split; [discriminate |]. split; [reflexivity |].
  apply (resolveHuggingFaceDimensions_spec "4:3"). discriminate.
Defined.




(** ** The image count *)


Lemma lt_Finite_false (a b : Q) :
  JS.lt (JS.Finite a) (JS.Finite b) = false <-> (b <= a)%Q.
Proof.
  cbn [JS.lt]. rewrite negb_false_iff. apply Qle_bool_iff.
Qed.

(** The clamp returns its argument, the lower bound or the upper bound. *)
Lemma clamp_cases (x : number) :
  clamped (Some x) = x \/ clamped (Some x) = JS.of_Z 1 \/ clamped (Some x) = JS.of_Z 4.
Proof.
  cbn [JS.nullish]. unfold JS.Math_min, JS.Math_max.
  destruct x as [| | q |]; cbn; auto.
  destruct (negb (Qle_bool (inject_Z 1) q)); cbn; auto.
  destruct (negb (Qle_bool q (inject_Z 4))); auto.
Qed.

Lemma clamp_identity (q : Q) :
  (1 <= q)%Q -> (q <= 4)%Q -> clamped (Some (JS.Finite q)) = JS.Finite q.
Proof.
  intros H1 H4. cbn [JS.nullish]. unfold JS.Math_max, JS.of_Z.
  cbn [JS.is_NaN orb].
  assert (JS.lt (JS.Finite q) (JS.Finite (inject_Z 1)) = false) as ->
    by (apply lt_Finite_false; exact H1).
  unfold JS.Math_min. cbn [JS.is_NaN orb].
  assert (JS.lt (JS.Finite (inject_Z 4)) (JS.Finite q) = false) as ->
    by (apply lt_Finite_false; exact H4).
  reflexivity.
Qed.

(** Away from [NaN] the clamp lands in [[1, 4]]. *)
Lemma clamp_in_range (x : option number) :
  x <> Some JS.NaN -> in_1_4 (clamped x).
Proof.
  intros Hx. unfold in_1_4.
  destruct x as [[| | q |] |]; try congruence;
    try (eexists; split; [reflexivity | split; discriminate]).
  cbn [JS.nullish]. unfold JS.Math_max, JS.of_Z. cbn [JS.is_NaN orb].
  destruct (JS.lt (JS.Finite q) (JS.Finite (inject_Z 1))) eqn:E1.
  - eexists; split; [reflexivity | split; discriminate].
  - apply lt_Finite_false in E1. unfold JS.Math_min. cbn [JS.is_NaN orb].
    destruct (JS.lt (JS.Finite (inject_Z 4)) (JS.Finite q)) eqn:E4.
    + eexists; split; [reflexivity | split; discriminate].
    + apply lt_Finite_false in E4. exists q. auto.
Qed.

Example clamp_0 : clamped (Some (JS.of_Z 0)) = JS.of_Z 1.
Proof. reflexivity. Qed.
Example clamp_7 : clamped (Some (JS.of_Z 7)) = JS.of_Z 4.
Proof. reflexivity. Qed.
Example clamp_3 : clamped (Some (JS.of_Z 3)) = JS.of_Z 3.
Proof. reflexivity. Qed.
Example clamp_omitted : clamped None = JS.of_Z 1.
Proof. reflexivity. Qed.
Example clamp_infinities :
  clamped (Some JS.Infinity) = JS.of_Z 4 /\ clamped (Some JS.NegInfinity) = JS.of_Z 1.
Proof. split; reflexivity. Qed.

Lemma NaN_not_in_1_4 : ~ in_1_4 JS.NaN.
Proof. intros (q & H & _). discriminate. Qed.

(** C7.  The count [NaN] passes the validator and the clamp unchanged: the
    record is persisted with [numImages = NaN], which is not in [[1, 4]]. *)
Theorem nan_count_is_persisted :
  GenerateArgs.validator (sample_args (Some JS.NaN) None) = true
  /\ clamped (Some JS.NaN) = JS.NaN
  /\ exists r d w',
       generate (sample_env blob_always url_of fal_two_images) 4
                (sample_args (Some JS.NaN) None) empty_world = (r, w')
       /\ World.images w' = [d]
       /\ Doc.numImages d = JS.NaN
       /\ ~ in_1_4 (Doc.numImages d).
Proof.
  split; [reflexivity |]. split; [reflexivity |].
  eexists _, _, _. split; [vm_compute; reflexivity |].
  split; [reflexivity |]. split; [reflexivity |]. exact NaN_not_in_1_4.
Qed.

(** C10.  The clamp is total and returns its argument, 1 or 4; it leaves
    every value of [[1, 4]] as it is, integral or not; the validator accepts
    every number; and [generate] persists the clamped value verbatim, so a
    request for 2.5 images is stored with [numImages = 2.5]. *)
Theorem clamp_keeps_fractions (env : Env.t) (fuel : nat) (args : GenerateArgs.t)
    (w : World.t) (q : Q) :
  (1 <= q)%Q -> (q <= 4)%Q ->
  GenerateArgs.validator args = true -> 4 <= fuel ->
  GenerateArgs.numImages args = Some (JS.Finite q) ->
  clamped (Some (JS.Finite q)) = JS.Finite q
  /\ (forall x : number,
        v_optional v_number (Some x) = true
        /\ (clamped (Some x) = x \/ clamped (Some x) = JS.of_Z 1
            \/ clamped (Some x) = JS.of_Z 4))
  /\ exists r d w',
       generate env fuel args w = (r, w')
       /\ World.images w' = World.images w ++ [d]
       /\ Doc.numImages d = JS.Finite q.
Proof.
  intros H1 H4 Hv Hfuel Hn.
  split; [exact (clamp_identity q H1 H4) |].
  split; [intros x; split; [reflexivity | apply clamp_cases] |].
  destruct (generate_lifecycle env fuel args w Hv Hfuel)
    as (r & d & w' & Hrun & Himg & _ & Hcreated & _).
  exists r, d, w'. split; [exact Hrun |]. split; [exact Himg |].
  destruct Hcreated as (_ & _ & _ & _ & _ & _ & Hnum & _).
  rewrite Hnum, Hn. exact (clamp_identity q H1 H4).
Qed.

Lemma two_and_a_half_images_witness :
  GenerateArgs.validator (sample_args (Some (JS.Finite 2.5)) None) = true
  /\ clamped (Some (JS.Finite 2.5)) = JS.Finite 2.5
  /\ exists r d w',
       generate (sample_env blob_always url_of fal_two_images) 4
                (sample_args (Some (JS.Finite 2.5)) None) empty_world = (r, w')
       /\ World.images w' = [d]
       /\ Doc.numImages d = JS.Finite 2.5.
Proof.
  split; [reflexivity |].
  destruct (clamp_keeps_fractions (sample_env blob_always url_of fal_two_images) 4
              (sample_args (Some (JS.Finite 2.5)) None) empty_world 2.5)
    as (H1 & _ & H3); try reflexivity; try lia; try discriminate.
  split; [exact H1 | exact H3].
Defined.

(** ** The lifecycle of a request *)

(** The part of the invariant that holds on both paths: once [generate] is
    over, [imageUrls] is set exactly when the status is [complete], and on the
    Hugging Face path a complete record has at least one URL. *)
Lemma imageUrls_iff_complete (env : Env.t) (fuel : nat) (args : GenerateArgs.t)
    (w : World.t) :
  GenerateArgs.validator args = true -> 4 <= fuel ->
  exists r d w',
    generate env fuel args w = (r, w')
    /\ World.images w' = World.images w ++ [d]
    /\ (Doc.imageUrls d <> None <-> Doc.status d = "complete")
    /\ (Doc.provider d = "huggingface" -> Doc.status d = "complete" ->
        Doc.imageUrls d <> Some []).
Proof.
  intros Hv Hfuel.
  destruct (generate_lifecycle env fuel args w Hv Hfuel)
    as (r & d & w' & Hrun & Himg & _ & _ & _ & Hend).
  exists r, d, w'. split; [exact Hrun |]. split; [exact Himg |].
  destruct Hend as [(res & _ & _ & (Hs & Hu & _) & Hne) | (e & _ & (Hs & Hu & _) & _)].
  - rewrite Hs, Hu. split; [split; [reflexivity | discriminate] |].
    intros Hp _ [= Hnil]. exact (Hne Hp Hnil).
  - rewrite Hs, Hu. split; [split; [congruence | discriminate] | discriminate].
Qed.

(** C1.  On the fal path an answer without images completes the record:
    with [data.images = []] the record ends with status [complete] and the
    empty list as [imageUrls], and the call returns normally. *)
Theorem fal_empty_result_completes :
  generate (sample_env blob_always url_of fal_no_images) 4
           (sample_args None None) empty_world
  = (Return {| GenerateResult.id := 0;
               GenerateResult.imageUrls := [];
               GenerateResult.requestId := Some "req-1" |},
     World.mk
       [ {| Doc.prompt := "a red fox";
            Doc.model := FAL_MODEL_NAME;
            Doc.provider := "fal";
            Doc.aspectRatio := "16:9";
            Doc.resolution := "4K";
            Doc.outputFormat := "webp";
            Doc.numImages := JS.of_Z 1;
            Doc.status := "complete";
            Doc.createdAt := sample_clock 0;
            Doc.updatedAt := sample_clock 1;
            Doc.imageUrls := Some [];
            Doc.requestId := Some "req-1";
            Doc.error := None |} ]
       [] 2 0).
Proof. reflexivity. Qed.

(** C4 (amended).  Whenever [generate] throws after the record was created,
    the thrown value is one of its own three errors or a value thrown by a
    provider call; the record is patched to [failed] with [error] set to the
    message of the thrown [Error] (the fixed text when the value is not an
    [Error]) and [updatedAt] set to the clock reading taken in the catch
    block; its input fields are untouched; and the very same value reaches
    the caller.  The message is non-empty unless the provider threw an
    [Error] with an empty message. *)
Theorem failure_is_recorded_and_rethrown (env : Env.t) (fuel : nat)
    (args : GenerateArgs.t) (w w' : World.t) (e : JS.thrown) :
  GenerateArgs.validator args = true -> 4 <= fuel ->
  generate env fuel args w = (Throw e, w') ->
  exists d,
    World.images w' = World.images w ++ [d]
    /\ created_by env args w d
    /\ failed_with e d
    /\ Doc.updatedAt d = Env.Date_now env (S (World.clock_reads w))
    /\ failure_cause env e
    /\ (e <> JS.Error "" -> Doc.error d <> Some "").
Proof.
  intros Hv Hfuel Hrun.
  destruct (generate_lifecycle env fuel args w Hv Hfuel)
    as (r & d & w1 & Hrun1 & Himg & _ & Hcreated & Hupd & Hend).
  rewrite Hrun in Hrun1. injection Hrun1 as <- <-.
  destruct Hend as [(res & Hres & _) | (e1 & [= <-] & Hfailed & Hcause)];
    [discriminate |].
  exists d. repeat (split; [assumption |]).
  destruct Hfailed as (_ & _ & _ & Herr). rewrite Herr.
  intros Hne [= Hempty]. destruct e as [m |]; [| discriminate]. congruence.
Qed.

Lemma provider_error_witness :
  let run := generate (sample_env blob_always url_of fal_unavailable) 4
                      (sample_args None None) empty_world in
  fst run = Throw (JS.Error "429 Too Many Requests")
  /\ exists d,
       World.images (snd run) = [d]
       /\ failed_with (JS.Error "429 Too Many Requests") d
       /\ Doc.updatedAt d = sample_clock 1
       /\ Doc.error d <> Some "".
Proof.
  cbv zeta. split; [reflexivity |].
  destruct (failure_is_recorded_and_rethrown
              (sample_env blob_always url_of fal_unavailable) 4
              (sample_args None None) empty_world
              (snd (generate (sample_env blob_always url_of fal_unavailable) 4
                             (sample_args None None) empty_world))
              (JS.Error "429 Too Many Requests"))
    as (d & H1 & _ & H3 & H4 & _ & H6).
  - reflexivity.
  - lia.
  - reflexivity.
  - exists d. split; [exact H1 |]. split; [exact H3 |].
    split; [exact H4 |]. apply H6. discriminate.
Defined.

(** C4, as stated, fails: a provider error with an empty message leaves the
    failed record with an empty [error]. *)
Lemma empty_provider_message_is_recorded :
  exists w' d,
    generate (sample_env blob_always url_of fal_silent_error) 4
             (sample_args None None) empty_world
    = (Throw (JS.Error ""), w')
    /\ World.images w' = [d]
    /\ Doc.status d = "failed"
    /\ Doc.error d = Some "".
Proof.
  eexists _, _. split; [vm_compute; reflexivity |].
  repeat split; reflexivity.
Qed.

(** C5 (amended).  On the Hugging Face path, with the token present: as
    long as none of the per-image calls throws, an image whose storage URL
    is missing or empty is dropped and the others are kept in call order;
    the request fails, with the error "Hugging Face returned no images.",
    exactly when no URL is left, and otherwise completes with the URLs that
    are left.  A per-image call that throws is not dropped: the first call
    that throws fails the whole request at once with the thrown value,
    whatever URLs were collected before it; the record is [failed] with that
    error and without URLs, and no further call is made.  The per-image
    calls are the calls with the request built from the prompt and the
    resolved dimensions, one per loop iteration for the clamped image
    count. *)
Theorem hf_drops_missing_urls (env : Env.t) (fuel : nat) (args : GenerateArgs.t)
    (w : World.t) (dims : Dimensions) :
  GenerateArgs.validator args = true ->
  GenerateArgs.provider args = Some "huggingface" ->
  JS.truthy (Env.HF_TOKEN env) = true ->
  4 <= fuel ->
  resolveHuggingFaceDimensions (GenerateArgs.aspectRatio args) = inr dims ->
  let count := loop_count (clamped (GenerateArgs.numImages args)) in
  let call i :=
    Env.textToImage env
      {| HfRequest.model := HUGGINGFACE_MODEL_NAME;
         HfRequest.inputs := GenerateArgs.prompt args;
         HfRequest.width := width dims;
         HfRequest.height := height dims |}
      (World.hf_calls w + i) in
  ((forall i, i < count -> exists blob, call i = inr blob) ->
   let urls := filter_Boolean (offered_urls env w count) in
   exists r d w',
     generate env fuel args w = (r, w')
     /\ World.images w' = World.images w ++ [d]
     /\ ((exists e, r = Throw e) <-> urls = [])
     /\ (urls = [] ->
         r = Throw (JS.Error "Hugging Face returned no images.")
         /\ Doc.status d = "failed" /\ Doc.imageUrls d = None)
     /\ (urls <> [] ->
         r = Return {| GenerateResult.id := length (World.images w);
                       GenerateResult.imageUrls := urls;
                       GenerateResult.requestId := None |}
         /\ Doc.status d = "complete"
         /\ Doc.imageUrls d = Some urls))
  /\ (forall (k : nat) (e : JS.thrown),
        k < count ->
        (forall i, i < k -> exists blob, call i = inr blob) ->
        call k = inl e ->
        exists d w',
          generate env fuel args w = (Throw e, w')
          /\ World.images w' = World.images w ++ [d]
          /\ failed_with e d
          /\ World.hf_calls w' = World.hf_calls w + S k
          /\ length (World.storage w') = length (World.storage w) + k).
Proof.
  intros Hv Hp Htoken Hfuel Hdims count call.
  destruct (loop_count_spec (clamped (GenerateArgs.numImages args)) (clamp_stops _))
    as (Hlt & Hstop & Hle).
  split.
  - intros Hcalls urls. subst urls.
    destruct (generate_hf_run env fuel args w dims count Hv Hp Htoken Hdims
                Hlt Hstop ltac:(unfold count; lia) Hcalls)
      as (d & w' & Hrun & Himg & Hdoc).
    eexists _, d, w'. split; [exact Hrun |]. split; [exact Himg |].
    destruct (filter_Boolean (offered_urls env w count)) as [| u urls].
    + split; [split; eauto |]. split; [intros _; tauto | congruence].
    + split; [split; [intros [e [=]] | discriminate] |].
      split; [discriminate | intros _; tauto].
  - intros k e Hk Hcalls Hthrow.
    destruct (generate_hf_throws env fuel args w dims k e Hv Hp Htoken Hdims)
      as (d & blobs & Hrun & Hlen & Hfailed & _);
      [ intros i Hi; apply Hlt; unfold count in Hk; lia
      | unfold count in Hk; lia | exact Hcalls | exact Hthrow |].
    eexists d, _. split; [exact Hrun |].
    cbn [World.images World.hf_calls World.storage].
    split; [reflexivity |]. split; [exact Hfailed |]. split; [reflexivity |].
    rewrite length_app, Hlen. reflexivity.
Qed.

Lemma two_of_four_urls_witness :
  loop_count (clamped (Some (JS.of_Z 4))) = 4
  /\ offered_urls (sample_env blob_always urls_for_even_ids fal_no_images)
       empty_world 4
     = [ Some "https://files.example/0"; None;
         Some "https://files.example/2"; None ]
  /\ (exists r d w',
        generate (sample_env blob_always urls_for_even_ids fal_no_images) 4
                 (sample_args (Some (JS.of_Z 4)) (Some "huggingface")) empty_world
        = (r, w')
        /\ World.images w' = [d]
        /\ r = Return {| GenerateResult.id := 0;
                         GenerateResult.imageUrls :=
                           [ "https://files.example/0"; "https://files.example/2" ];
                         GenerateResult.requestId := None |}
        /\ Doc.status d = "complete"
        /\ Doc.imageUrls d
           = Some [ "https://files.example/0"; "https://files.example/2" ])
  /\ exists d w',
       generate (sample_env second_call_throws url_of fal_no_images) 4
                (sample_args (Some (JS.of_Z 4)) (Some "huggingface")) empty_world
       = (Throw (JS.Error "503 Service Unavailable"), w')
       /\ World.images w' = [d]
       /\ failed_with (JS.Error "503 Service Unavailable") d
       /\ World.hf_calls w' = 2
       /\ length (World.storage w') = 1.
Proof.
  split; [reflexivity |]. split; [reflexivity |]. split.
  - destruct (hf_drops_missing_urls
                (sample_env blob_always urls_for_even_ids fal_no_images) 4
                (sample_args (Some (JS.of_Z 4)) (Some "huggingface")) empty_world
                {| width := JS.of_Z 1024; height := JS.of_Z 576 |})
      as [Hreturns _];
      [reflexivity | reflexivity | reflexivity | lia | reflexivity |].
    destruct Hreturns as (r & d & w' & Hrun & Himg & _ & _ & Hsome);
      [intros i _; eexists; reflexivity |].
    exists r, d, w'. split; [exact Hrun |]. split; [exact Himg |].
    apply Hsome. discriminate.
  - destruct (hf_drops_missing_urls
                (sample_env second_call_throws url_of fal_no_images) 4
                (sample_args (Some (JS.of_Z 4)) (Some "huggingface")) empty_world
                {| width := JS.of_Z 1024; height := JS.of_Z 576 |})
      as [_ Hthrows];
      [reflexivity | reflexivity | reflexivity | lia | reflexivity |].
    apply (Hthrows 1 (JS.Error "503 Service Unavailable")).
    + change (1 < 4). lia.
    + intros i Hi. exists "png bytes". destruct i as [| i]; [reflexivity | lia].
    + reflexivity.
Defined.

(** C5, as stated, fails: a per-image call that throws is not dropped.  The
    first call has yielded a URL, the second call throws, and the whole
    request fails with the provider's error although the URL list is not
    empty. *)
Lemma throwing_call_fails_the_request :
  exists w' d,
    generate (sample_env second_call_throws url_of fal_no_images) 4
             (sample_args (Some (JS.of_Z 4)) (Some "huggingface")) empty_world
    = (Throw (JS.Error "503 Service Unavailable"), w')
    /\ World.images w' = [d]
    /\ Doc.status d = "failed"
    /\ Doc.error d = Some "503 Service Unavailable"
    /\ World.storage w' = [ "png bytes" ]
    /\ Env.getUrl (sample_env second_call_throws url_of fal_no_images) 0
       = Some "https://files.example/0".
Proof.
  eexists _, _. split; [vm_compute; reflexivity |].
  repeat split; reflexivity.
Qed.

(** C6.  With provider ["huggingface"] the record is created with resolution
    ["1K"] and output format ["png"], whatever the caller passed. *)
Theorem huggingface_forces_1K_png (env : Env.t) (fuel : nat)
    (args : GenerateArgs.t) (w : World.t) :
  GenerateArgs.validator args = true -> 4 <= fuel ->
  GenerateArgs.provider args = Some "huggingface" ->
  exists r d w',
    generate env fuel args w = (r, w')
    /\ World.images w' = World.images w ++ [d]
    /\ Doc.provider d = "huggingface"
    /\ Doc.model d = HUGGINGFACE_MODEL_NAME
    /\ Doc.resolution d = "1K"
    /\ Doc.outputFormat d = "png".
Proof.
  intros Hv Hfuel Hp.
  destruct (generate_lifecycle env fuel args w Hv Hfuel)
    as (r & d & w' & Hrun & Himg & _ & Hcreated & _).
  unfold created_by in Hcreated. rewrite Hp in Hcreated.
  change (normalizeProvider (Some "huggingface")) with "huggingface" in Hcreated.
  change (String.eqb "huggingface" "huggingface") with true in Hcreated.
  cbv zeta iota in Hcreated.
  destruct Hcreated as (_ & Hm & Hprov & _ & Hres & Hfmt & _).
  exists r, d, w'. repeat split; assumption.
Qed.

Lemma huggingface_4K_webp_witness :
  GenerateArgs.resolution (sample_args None (Some "huggingface")) = "4K"
  /\ GenerateArgs.outputFormat (sample_args None (Some "huggingface")) = "webp"
  /\ exists r d w',
       generate (sample_env blob_always url_of fal_no_images) 4
                (sample_args None (Some "huggingface")) empty_world = (r, w')
       /\ World.images w' = [d]
       /\ Doc.provider d = "huggingface"
       /\ Doc.model d = HUGGINGFACE_MODEL_NAME
       /\ Doc.resolution d = "1K"
       /\ Doc.outputFormat d = "png".
Proof.
  split; [reflexivity |]. split; [reflexivity |].
  apply (huggingface_forces_1K_png (sample_env blob_always url_of fal_no_images) 4
           (sample_args None (Some "huggingface")) empty_world);
    [reflexivity | lia | reflexivity].
Defined.

(** ** The listing query *)

(** C8.  [list] with limit [n] returns at most [n] documents (exactly [n]
    when the table holds that many), newest first, and they are the most
    recently created ones: no document left out is newer than a document
    returned.  Without a limit the cap is 24.  The query leaves the store as
    it was, whatever the limit. *)
Theorem list_recent (w : World.t) (n : nat) :
  exists rows rest,
    list_ (Some (JS.of_Z (Z.of_nat n))) w = (Return rows, w)
    /\ length rows = Nat.min n (length (World.images w))
    /\ length rows <= n
    /\ newest_first rows
    /\ Permutation (rows ++ rest) (World.images w)
    /\ (forall x y, x ∈ rows -> y ∈ rest ->
          (Doc.createdAt y <= Doc.createdAt x)%Z)
    /\ list_ None w = list_ (Some (JS.of_Z 24)) w
    /\ (forall limit, snd (list_ limit w) = w).
Proof.
  destruct (by_created_at_desc_spec (World.images w)) as [Hs Hp].
  exists (take n (by_created_at_desc (World.images w))),
         (drop n (by_created_at_desc (World.images w))).
  split.
  { unfold list_, validated. cbn [v_optional v_number]. unfold list_handler.
    cbn [JS.nullish]. rewrite bind_run. unfold get_images. unfold db_take.
    rewrite take_count_nat. reflexivity. }
  split. { rewrite length_take. rewrite (Permutation_length Hp). reflexivity. }
  split. { rewrite length_take. lia. }
  destruct (newest_first_split _ n Hs) as [H1 H2].
  split; [exact H1 |]. split; [rewrite take_drop; exact Hp |].
  split; [exact H2 |]. split; [reflexivity | intros limit; apply frame_list].
Qed.

(** Five documents, limit 2: the two newest, newest first. *)
Example list_two_of_five :
  list_ (Some (JS.of_Z 2)) five_docs_world
  = (Return [ a_doc 50; a_doc 40 ], five_docs_world).
Proof. reflexivity. Qed.

(** ** Immutability of the input fields *)

(** C9.  No operation changes the input fields or [createdAt] of a document
    that is in the table: [update] keeps them (it patches [status],
    [imageUrls], [requestId], [error] and [updatedAt] only), [create] and
    [list] do not touch existing documents at all, and [generate], which
    writes through [create] and [update] only, keeps them as well. *)
Theorem input_fields_immutable (env : Env.t) (fuel : nat) (w : World.t)
    (i : nat) (d : Doc.t) :
  World.images w !! i = Some d ->
  (forall a : UpdateArgs.t,
     exists d', World.images (snd (update a w)) !! i = Some d'
                /\ same_inputs d d')
  /\ (forall a : UpdateArgs.t,
        UpdateArgs.id a = i ->
        World.images (snd (update a w)) !! i = Some (patch_fields a d)
        /\ same_inputs d (patch_fields a d))
  /\ (forall a : CreateArgs.t,
        World.images (snd (create a w)) !! i = Some d)
  /\ (forall limit : option number, snd (list_ limit w) = w)
  /\ (forall args : GenerateArgs.t,
        exists d', World.images (snd (generate env fuel args w)) !! i = Some d'
                   /\ same_inputs d d').
Proof.
  intros Hd. split; [intros a; exact (frame_update a w i d Hd) |].
  split.
  { intros a Hid. split; [| apply same_inputs_patch].
    unfold update, validated. rewrite UpdateArgs_validator_true.
    unfold update_handler, db_patch. rewrite bind_run. unfold get_images.
    rewrite Hid. unfold Id in *. rewrite Hd. cbn [put_images snd World.images].
    apply list_lookup_insert_eq. eapply lookup_lt_Some. exact Hd. }
  split.
  { intros a. unfold create, validated.
    destruct (CreateArgs.validator a); [| exact Hd].
    unfold create_handler, db_insert. rewrite bind_run. unfold get_images.
    rewrite bind_run. unfold put_images. rewrite ret_run. cbn [snd World.images].
    rewrite lookup_app_l; [exact Hd |]. eapply lookup_lt_Some. exact Hd. }
  split; [intros limit; apply frame_list |].
  intros args. exact (frame_generate env fuel args w i d Hd).
Qed.

Lemma second_document_witness :
  World.images five_docs_world !! 1 = Some (a_doc 30)
  /\ exists d',
       World.images
         (snd (update {| UpdateArgs.id := 1;
                         UpdateArgs.status := Some "complete";
                         UpdateArgs.imageUrls := Some [ "https://fal.example/a" ];
                         UpdateArgs.requestId := Some "req-2";
                         UpdateArgs.error := None;
                         UpdateArgs.updatedAt := 31 |} five_docs_world)) !! 1
       = Some d'
       /\ same_inputs (a_doc 30) d'.
Proof.
  split; [reflexivity |].
  apply (input_fields_immutable (sample_env blob_always url_of fal_two_images) 4
           five_docs_world 1 (a_doc 30)).
  reflexivity.
Defined.

(** * Further properties of the code *)

(** ** The provider adapter, continued *)

(** X2.  The validator and the dimension table agree: a string passes
    [aspectRatioValidator] exactly when it is a key of [ASPECT_RATIO_MAP].
    For a validated aspect ratio the table read is therefore an entry, so
    the [?? [1, 1]] fallback is never taken and the resolution cannot
    throw. *)
Theorem validator_matches_table (aspectRatio : string) :
  (aspectRatioValidator aspectRatio = true
   <-> is_Some (own_property ASPECT_RATIO_MAP aspectRatio))
  /\ (aspectRatioValidator aspectRatio = true ->
      exists entry,
        get_property ASPECT_RATIO_MAP aspectRatio = Own entry
        /\ exists dims, resolveHuggingFaceDimensions aspectRatio = inr dims).
Proof.
  assert (aspectRatioValidator aspectRatio = true ->
          exists entry, own_property ASPECT_RATIO_MAP aspectRatio = Some entry
                        /\ exists dims, resolveHuggingFaceDimensions aspectRatio = inr dims)
    as Hfwd.
  { unfold aspectRatioValidator, v_union, v_literal. cbn [existsb].
    intros H.
    repeat (apply orb_prop in H; destruct H as [H | H];
            [apply String.eqb_eq in H; subst; eexists; split;
               [reflexivity | eexists; reflexivity] |]).
    discriminate. }
  split; [split |].
  - intros H. destruct (Hfwd H) as (entry & -> & _). eauto.
  - unfold aspectRatioValidator, v_union, v_literal.
    cbn [existsb own_property ASPECT_RATIO_MAP].
    repeat match goal with
           | |- context [String.eqb aspectRatio ?lit] =>
               destruct (String.eqb aspectRatio lit); [reflexivity |]
           end.
    intros [entry H]. discriminate.
  - intros H. destruct (Hfwd H) as (entry & Hown & Hdims).
    exists entry. split; [| exact Hdims].
    unfold get_property. rewrite Hown. reflexivity.
Qed.

Lemma validator_matches_table_witness :
  aspectRatioValidator "3:2" = true
  /\ exists entry,
       get_property ASPECT_RATIO_MAP "3:2" = Own entry
       /\ exists dims, resolveHuggingFaceDimensions "3:2" = inr dims.
Proof.
  split; [reflexivity |].
  apply (proj2 (validator_matches_table "3:2")). reflexivity.
Defined.

(** X3.  For every aspect ratio the validator accepts, the resolved width
    and height are multiples of 64 between 64 and 1024, and the larger of
    the two is exactly the base size 1024. *)
Theorem resolved_dimensions_bounds (aspectRatio : string) :
  aspectRatioValidator aspectRatio = true ->
  exists w h : Z,
    resolveHuggingFaceDimensions aspectRatio
    = inr {| width := JS.of_Z w; height := JS.of_Z h |}
    /\ Z.max w h = 1024%Z
    /\ (64 <= w <= 1024)%Z /\ (64 <= h <= 1024)%Z
    /\ (w mod 64 = 0)%Z /\ (h mod 64 = 0)%Z.
Proof.
  unfold aspectRatioValidator, v_union, v_literal. cbn [existsb].
  intros H.
  repeat (apply orb_prop in H; destruct H as [H | H];
          [apply String.eqb_eq in H; subst;
           eexists _, _; split; [reflexivity | repeat split; (reflexivity || lia)] |]).
  discriminate.
Qed.

Lemma resolved_dimensions_bounds_witness :
  exists w h : Z,
    resolveHuggingFaceDimensions "9:16"
    = inr {| width := JS.of_Z w; height := JS.of_Z h |}
    /\ Z.max w h = 1024%Z
    /\ (64 <= w <= 1024)%Z /\ (64 <= h <= 1024)%Z
    /\ (w mod 64 = 0)%Z /\ (h mod 64 = 0)%Z.
Proof. apply (resolved_dimensions_bounds "9:16"). reflexivity. Defined.

(** X4.  [normalizeProvider] always yields a provider the validators accept;
    on a provider that has passed validation it only fills in the default
    (["fal"] for an absent value) and keeps a given value as it is; and it
    is idempotent. *)
Theorem normalizeProvider_normal_form (provider : option string) :
  providerValidator (normalizeProvider provider) = true
  /\ normalizeProvider (Some (normalizeProvider provider))
     = normalizeProvider provider
  /\ (v_optional providerValidator provider = true ->
      normalizeProvider provider = JS.nullish provider "fal").
Proof.
  unfold normalizeProvider.
  destruct provider as [p |]; [| repeat split; reflexivity].
  destruct (String.eqb_spec p "huggingface") as [-> | Hne].
  - repeat split; reflexivity.
  - split; [reflexivity |]. split; [reflexivity |].
    cbn [v_optional JS.nullish]. unfold providerValidator, v_union, v_literal.
    cbn [existsb]. intros H.
    apply orb_prop in H. destruct H as [H | H];
      [apply String.eqb_eq in H; congruence |].
    apply orb_prop in H. destruct H as [H | H]; [| discriminate].
    apply String.eqb_eq in H. congruence.
Qed.

Lemma normalizeProvider_normal_form_witness :
  v_optional providerValidator (Some "huggingface") = true
  /\ normalizeProvider (Some "huggingface") = "huggingface".
Proof.
  split; [reflexivity |].
  apply (proj2 (proj2 (normalizeProvider_normal_form (Some "huggingface")))).
  reflexivity.
Defined.

(** ** The store functions: [create], [update], [list] *)

Lemma v_union_literals (lits : list string) (x : string) :
  v_union (map v_literal lits) x = true <-> In x lits.
Proof.
  unfold v_union. rewrite existsb_exists. split.
  - intros (v & Hv & Hx). apply in_map_iff in Hv. destruct Hv as (lit & <- & Hlit).
    unfold v_literal in Hx. apply String.eqb_eq in Hx. subst. exact Hlit.
  - intros Hx. exists (v_literal x). split; [apply in_map; exact Hx |].
    unfold v_literal. apply String.eqb_refl.
Qed.

(** X5.  [create] with valid arguments: the new document gets the next free
    id, can be read back under that id with exactly the fields passed in and
    without [imageUrls], [requestId] or [error]; every other id reads as
    before. *)
Theorem create_then_lookup (a : CreateArgs.t) (w : World.t) :
  CreateArgs.validator a = true ->
  exists (id : Id) (d : Doc.t) (w' : World.t),
    create a w = (Return id, w')
    /\ World.images w !! id = None
    /\ World.images w' !! id = Some d
    /\ length (World.images w') = S (length (World.images w))
    /\ (forall j, j <> id -> World.images w' !! j = World.images w !! j)
    /\ Doc.prompt d = CreateArgs.prompt a
    /\ Doc.model d = CreateArgs.model a
    /\ Doc.provider d = CreateArgs.provider a
    /\ Doc.aspectRatio d = CreateArgs.aspectRatio a
    /\ Doc.resolution d = CreateArgs.resolution a
    /\ Doc.outputFormat d = CreateArgs.outputFormat a
    /\ Doc.numImages d = CreateArgs.numImages a
    /\ Doc.status d = CreateArgs.status a
    /\ Doc.createdAt d = CreateArgs.createdAt a
    /\ Doc.updatedAt d = CreateArgs.updatedAt a
    /\ Doc.imageUrls d = None /\ Doc.requestId d = None /\ Doc.error d = None.
Proof.
  intros Hv. destruct (create_run a w Hv) as (d & Hrun & Hfields).
  eexists _, d, _. split; [exact Hrun |]. cbn [World.images].
  split; [apply lookup_ge_None_2; lia |].
  split; [apply list_lookup_middle; reflexivity |].
  split; [rewrite length_app; cbn; lia |].
  split; [| exact Hfields].
  intros j Hj. destruct (decide (j < length (World.images w))) as [Hlt | Hge].
  - apply lookup_app_l. exact Hlt.
  - rewrite !lookup_ge_None_2; [reflexivity | lia |].
    rewrite length_app. cbn. unfold Id in *. lia.
Qed.

Lemma create_then_lookup_witness :
  exists (id : Id) (d : Doc.t) (w' : World.t),
    create (sample_create "4:3" 60) five_docs_world
    = (Return id, w')
    /\ id = 5
    /\ World.images w' !! id = Some d
    /\ Doc.createdAt d = 60%Z
    /\ Doc.imageUrls d = None.
Proof.
  destruct (create_then_lookup
              (sample_create "4:3" 60) five_docs_world eq_refl)
    as (id & d & w' & Hrun & _ & Hget & _ & _ & F).
  exists id, d, w'. split; [exact Hrun |].
  split; [injection Hrun as <- _; reflexivity |].
  split; [exact Hget |]. intuition.
Defined.

(** X6.  [create] accepts its arguments exactly when the provider, the
    aspect ratio, the resolution and the output format are among the
    literals of their unions; otherwise it throws the validation error and
    the store is left as it was. *)
Theorem create_validation (a : CreateArgs.t) (w : World.t) :
  (CreateArgs.validator a = true
   <-> In (CreateArgs.provider a) [ "fal"; "huggingface" ]
       /\ In (CreateArgs.aspectRatio a) [ "1:1"; "4:3"; "3:2"; "16:9"; "9:16" ]
       /\ In (CreateArgs.resolution a) [ "1K"; "2K"; "4K" ]
       /\ In (CreateArgs.outputFormat a) [ "png"; "jpeg"; "webp" ])
  /\ (CreateArgs.validator a = false ->
      create a w = (Throw ArgumentValidationError, w)).
Proof.
  split.
  - unfold CreateArgs.validator, v_string, v_number.
    rewrite !andb_true_r. cbn [andb]. rewrite !andb_true_iff.
    rewrite <- (v_union_literals [ "fal"; "huggingface" ]).
    rewrite <- (v_union_literals [ "1:1"; "4:3"; "3:2"; "16:9"; "9:16" ]).
    rewrite <- (v_union_literals [ "1K"; "2K"; "4K" ]).
    rewrite <- (v_union_literals [ "png"; "jpeg"; "webp" ]).
    unfold providerValidator, aspectRatioValidator, resolutionValidator,
      outputFormatValidator. cbn [map]. tauto.
  - intros Hv. unfold create, validated. rewrite Hv. reflexivity.
Qed.

Lemma create_validation_witness :
  create (sample_create "2:1" 60) five_docs_world
  = (Throw ArgumentValidationError, five_docs_world).
Proof.
  apply (proj2 (create_validation _ five_docs_world)). reflexivity.
Defined.

Lemma update_run_at (a : UpdateArgs.t) (w : World.t) :
  update a w =
  match World.images w !! UpdateArgs.id a with
  | Some d =>
      (Return tt,
       World.mk (<[UpdateArgs.id a := patch_fields a d]> (World.images w))
                (World.storage w) (World.clock_reads w) (World.hf_calls w))
  | None => (Throw (JS.Error "Update on nonexistent document ID"), w)
  end.
Proof.
  unfold update, validated. rewrite UpdateArgs_validator_true.
  unfold update_handler, db_patch. rewrite bind_run. unfold get_images.
  destruct (World.images w !! UpdateArgs.id a); reflexivity.
Qed.

(** X7.  [update] on an id that is not in the table throws and leaves the
    store as it was.  On an id that is in the table it returns normally,
    replaces that one document by its patched version and leaves the number
    of documents and every other document as they were. *)
Theorem update_touches_one_document (a : UpdateArgs.t) (w : World.t) :
  (World.images w !! UpdateArgs.id a = None ->
   exists e, update a w = (Throw e, w))
  /\ (forall d, World.images w !! UpdateArgs.id a = Some d ->
      exists w',
        update a w = (Return tt, w')
        /\ World.images w' !! UpdateArgs.id a = Some (patch_fields a d)
        /\ length (World.images w') = length (World.images w)
        /\ (forall j, j <> UpdateArgs.id a ->
              World.images w' !! j = World.images w !! j)
        /\ World.storage w' = World.storage w).
Proof.
  rewrite update_run_at. split.
  - intros ->. eauto.
  - intros d Hd. rewrite Hd. eexists. split; [reflexivity |]. cbn [World.images World.storage].
    split; [apply list_lookup_insert_eq; eapply lookup_lt_Some; exact Hd |].
    split; [apply length_insert |]. split; [| reflexivity].
    intros j Hj. apply list_lookup_insert_ne. congruence.
Qed.

Lemma update_touches_one_document_witness :
  (exists e,
     update (sample_failed_patch 7) five_docs_world
     = (Throw e, five_docs_world))
  /\ exists w',
       update (sample_failed_patch 2) five_docs_world
       = (Return tt, w')
       /\ length (World.images w') = 5
       /\ World.images w' !! 1 = Some (a_doc 30).
Proof.
  split.
  - apply (proj1 (update_touches_one_document _ five_docs_world)). reflexivity.
  - destruct (proj2 (update_touches_one_document
                       (sample_failed_patch 2) five_docs_world)
                    (a_doc 20) eq_refl)
      as (w' & Hrun & _ & Hlen & Hother & _).
    exists w'. split; [exact Hrun |]. split; [exact Hlen |].
    rewrite Hother; [reflexivity | discriminate].
Defined.

Lemma patch_fields_idempotent (a : UpdateArgs.t) (d : Doc.t) :
  patch_fields a (patch_fields a d) = patch_fields a d.
Proof.
  unfold patch_fields. cbn.
  destruct (UpdateArgs.status a), (UpdateArgs.imageUrls a),
    (UpdateArgs.requestId a), (UpdateArgs.error a); reflexivity.
Qed.

(** X8.  [update] is idempotent: sending the same patch a second time gives
    the same outcome and leaves the store exactly as the first one did. *)
Theorem update_idempotent (a : UpdateArgs.t) (w : World.t) :
  update a (snd (update a w)) = update a w.
Proof.
  rewrite !update_run_at.
  destruct (World.images w !! UpdateArgs.id a) as [d |] eqn:Hd;
    cbn [snd World.images World.storage World.clock_reads World.hf_calls].
  - rewrite list_lookup_insert_eq by (eapply lookup_lt_Some; exact Hd).
    rewrite patch_fields_idempotent, list_insert_insert_eq. reflexivity.
  - rewrite Hd. reflexivity.
Qed.

(** X9.  [update] never removes a result: a document that has [imageUrls],
    [requestId] or [error] before an update still has that field after it,
    whatever the patch, and the value only changes when the patch carries
    the key. *)
Theorem update_never_unsets (a : UpdateArgs.t) (w : World.t) (i : nat)
    (d : Doc.t) :
  World.images w !! i = Some d ->
  exists d',
    World.images (snd (update a w)) !! i = Some d'
    /\ (is_Some (Doc.imageUrls d) -> is_Some (Doc.imageUrls d'))
    /\ (is_Some (Doc.requestId d) -> is_Some (Doc.requestId d'))
    /\ (is_Some (Doc.error d) -> is_Some (Doc.error d'))
    /\ (UpdateArgs.imageUrls a = None -> Doc.imageUrls d' = Doc.imageUrls d)
    /\ (UpdateArgs.requestId a = None -> Doc.requestId d' = Doc.requestId d)
    /\ (UpdateArgs.error a = None -> Doc.error d' = Doc.error d)
    /\ (UpdateArgs.status a = None -> Doc.status d' = Doc.status d).
Proof.
  intros Hd. rewrite update_run_at.
  destruct (World.images w !! UpdateArgs.id a) as [d0 |] eqn:Hd0; cbn [snd World.images].
  - destruct (decide (i = UpdateArgs.id a)) as [-> | Hne].
    + assert (d0 = d) by (unfold Id in *; congruence). subst d0.
      exists (patch_fields a d).
      split; [apply list_lookup_insert_eq; eapply lookup_lt_Some; exact Hd |].
      unfold patch_fields; cbn.
      destruct (UpdateArgs.imageUrls a), (UpdateArgs.requestId a),
        (UpdateArgs.error a), (UpdateArgs.status a);
        repeat split; eauto; discriminate.
    + exists d. split; [rewrite list_lookup_insert_ne by congruence; exact Hd |].
      repeat split; auto.
  - exists d. split; [exact Hd |]. repeat split; auto.
Qed.

Lemma update_never_unsets_witness :
  exists d',
    World.images (snd (update (sample_failed_patch 0) one_complete_world)) !! 0
    = Some d'
    /\ Doc.imageUrls d' = Some [ "https://fal.example/a" ]
    /\ Doc.requestId d' = Some "req-2"
    /\ Doc.status d' = "failed".
Proof.
  destruct (update_never_unsets (sample_failed_patch 0) one_complete_world 0
              a_complete_doc eq_refl)
    as (d' & Hget & _ & _ & _ & Hurls & Hreq & _).
  exists d'. split; [exact Hget |]. split; [rewrite Hurls; reflexivity |].
  split; [rewrite Hreq; reflexivity |].
  cbn in Hget. injection Hget as <-. reflexivity.
Defined.

(** ** Listing after a write *)

Lemma list_run (n : nat) (w : World.t) :
  list_ (Some (JS.of_Z (Z.of_nat n))) w
  = (Return (take n (by_created_at_desc (World.images w))), w).
Proof.
  unfold list_, validated. cbn [v_optional v_number]. unfold list_handler.
  cbn [JS.nullish]. rewrite bind_run. unfold get_images, db_take.
  rewrite take_count_nat. reflexivity.
Qed.

Section Relabel.
(** A relation between documents that respects the creation time. *)
Variable R : Doc.t -> Doc.t -> Prop.
Hypothesis R_createdAt : forall d d', R d d' -> Doc.createdAt d' = Doc.createdAt d.

Lemma index_insert_related (d d' : Doc.t) (idx idx' : list Doc.t) :
  R d d' -> Forall2 R idx idx' ->
  Forall2 R (index_insert d idx) (index_insert d' idx').
Proof.
  intros Hd. induction 1 as [| x x' idx idx' Hx Hidx IH]; cbn [index_insert].
  - repeat constructor. exact Hd.
  - rewrite (R_createdAt _ _ Hd), (R_createdAt _ _ Hx).
    destruct (Doc.createdAt x <=? Doc.createdAt d)%Z.
    + repeat constructor; assumption.
    + constructor; assumption.
Qed.

Lemma by_created_at_desc_related (table table' : list Doc.t) :
  Forall2 R table table' ->
  Forall2 R (by_created_at_desc table) (by_created_at_desc table').
Proof.
  unfold by_created_at_desc.
  assert (forall idx idx', Forall2 R idx idx' -> Forall2 R table table' ->
            Forall2 R (fold_left (fun idx d => index_insert d idx) table idx)
                      (fold_left (fun idx d => index_insert d idx) table' idx')) as H.
  { intros idx idx' Hidx Ht. revert idx idx' Hidx.
    induction Ht as [| d d' table table' Hd Ht IH]; intros idx idx' Hidx;
      cbn [fold_left]; [exact Hidx |].
    apply IH. apply index_insert_related; assumption. }
  apply H. constructor.
Qed.
End Relabel.

(** X10.  An [update] does not reorder the listing: [list] with the same
    limit returns, position by position, the same documents as before, the
    updated one in its patched form.  In particular the prompts and creation
    times listed are the same. *)
Theorem list_stable_under_update (a : UpdateArgs.t) (w : World.t) (n : nat) :
  exists rows rows',
    list_ (Some (JS.of_Z (Z.of_nat n))) w = (Return rows, w)
    /\ list_ (Some (JS.of_Z (Z.of_nat n))) (snd (update a w))
       = (Return rows', snd (update a w))
    /\ Forall2 (fun r r' => r' = r \/ r' = patch_fields a r) rows rows'
    /\ map Doc.createdAt rows' = map Doc.createdAt rows
    /\ map Doc.prompt rows' = map Doc.prompt rows.
Proof.
  rewrite !list_run. eexists _, _. split; [reflexivity |]. split; [reflexivity |].
  set (R := fun r r' : Doc.t => r' = r \/ r' = patch_fields a r).
  assert (Forall2 R (World.images w) (World.images (snd (update a w)))) as Htables.
  { rewrite update_run_at.
    destruct (World.images w !! UpdateArgs.id a) as [d |] eqn:Hd; cbn [snd World.images].
    - apply Forall2_same_length_lookup. split; [symmetry; apply length_insert |].
      intros i x y Hx Hy.
      destruct (decide (i = UpdateArgs.id a)) as [-> | Hne].
      + rewrite list_lookup_insert_eq in Hy by (eapply lookup_lt_Some; exact Hd).
        right. unfold Id in *. congruence.
      + rewrite list_lookup_insert_ne in Hy by congruence. left. congruence.
    - apply Forall_Forall2_diag. apply Forall_forall. intros x _. left. reflexivity. }
  assert (Forall2 R (take n (by_created_at_desc (World.images w)))
                    (take n (by_created_at_desc (World.images (snd (update a w))))))
    as Hrows.
  { apply Forall2_take. apply by_created_at_desc_related; [| exact Htables].
    intros d d' [-> | ->]; reflexivity. }
  split; [exact Hrows |].
  split; induction Hrows as [| r r' rows rows' [-> | ->] _ IH]; cbn [map];
    try reflexivity; rewrite IH; reflexivity.
Qed.

Example list_after_failed_patch :
  fst (list_ (Some (JS.of_Z 2)) (snd (update (sample_failed_patch 3) five_docs_world)))
  = Return [ patch_fields (sample_failed_patch 3) (a_doc 50); a_doc 40 ].
Proof. reflexivity. Qed.

Lemma by_created_at_desc_snoc (table : list Doc.t) (d : Doc.t) :
  by_created_at_desc (table ++ [d]) = index_insert d (by_created_at_desc table).
Proof. unfold by_created_at_desc. rewrite fold_left_app. reflexivity. Qed.

Lemma index_insert_newest (d : Doc.t) (idx : list Doc.t) :
  Forall (fun x => (Doc.createdAt x <= Doc.createdAt d)%Z) idx ->
  index_insert d idx = d :: idx.
Proof.
  destruct 1 as [| x idx Hx _]; cbn [index_insert]; [reflexivity |].
  destruct (Z.leb_spec (Doc.createdAt x) (Doc.createdAt d)); [reflexivity | lia].
Qed.

Lemma by_created_at_desc_newest (table : list Doc.t) (d : Doc.t) :
  Forall (fun x => (Doc.createdAt x <= Doc.createdAt d)%Z) table ->
  by_created_at_desc (table ++ [d]) = d :: by_created_at_desc table.
Proof.
  intros H. rewrite by_created_at_desc_snoc. apply index_insert_newest.
  destruct (by_created_at_desc_spec table) as [_ Hperm].
  rewrite Forall_forall in *. intros x Hx. apply H.
  rewrite <- Hperm. exact Hx.
Qed.

(** X11.  A document created with a time stamp that is not older than any
    document in the table is listed first: [list] with limit [n + 1] after
    the [create] returns the new document followed by what [list] with
    limit [n] returned before. *)
Theorem created_document_is_listed_first (a : CreateArgs.t) (w : World.t)
    (n : nat) :
  CreateArgs.validator a = true ->
  Forall (fun x => (Doc.createdAt x <= CreateArgs.createdAt a)%Z) (World.images w) ->
  exists id d w' rows,
    create a w = (Return id, w')
    /\ World.images w' !! id = Some d
    /\ list_ (Some (JS.of_Z (Z.of_nat n))) w = (Return rows, w)
    /\ list_ (Some (JS.of_Z (Z.of_nat (S n)))) w' = (Return (d :: rows), w').
Proof.
  intros Hv Hnewest.
  destruct (create_run a w Hv) as (d & Hrun & F).
  eexists _, d, _, _. split; [exact Hrun |]. cbn [World.images].
  split; [apply list_lookup_middle; reflexivity |].
  rewrite !list_run. split; [reflexivity |]. cbn [World.images].
  rewrite by_created_at_desc_newest; [reflexivity |].
  destruct F as (_ & _ & _ & _ & _ & _ & _ & _ & -> & _). exact Hnewest.
Qed.

Lemma created_document_is_listed_first_witness :
  exists id d w' rows,
    create (sample_create "4:3" 60) five_docs_world = (Return id, w')
    /\ World.images w' !! id = Some d
    /\ list_ (Some (JS.of_Z 2)) five_docs_world = (Return rows, five_docs_world)
    /\ list_ (Some (JS.of_Z 3)) w' = (Return (d :: rows), w').
Proof.
  apply (created_document_is_listed_first (sample_create "4:3" 60) five_docs_world 2).
  - reflexivity.
  - repeat constructor; cbn; lia.
Defined.

(** X12.  Listings with different limits agree: the result for a smaller
    limit is a prefix of the result for a larger one, and a limit of at
    least the table size returns every document exactly once. *)
Theorem list_limits_agree (w : World.t) (n m : nat) :
  n <= m ->
  exists rows_n rows_m,
    list_ (Some (JS.of_Z (Z.of_nat n))) w = (Return rows_n, w)
    /\ list_ (Some (JS.of_Z (Z.of_nat m))) w = (Return rows_m, w)
    /\ rows_n = take n rows_m
    /\ (length (World.images w) <= n -> Permutation rows_n (World.images w)).
Proof.
  intros Hnm. rewrite !list_run. eexists _, _.
  split; [reflexivity |]. split; [reflexivity |].
  split; [rewrite take_take; f_equal; lia |].
  intros Hall. destruct (by_created_at_desc_spec (World.images w)) as [_ Hperm].
  rewrite take_ge; [exact Hperm |]. rewrite (Permutation_length Hperm). exact Hall.
Qed.

Lemma list_limits_agree_witness :
  exists rows_n rows_m,
    list_ (Some (JS.of_Z 5)) five_docs_world = (Return rows_n, five_docs_world)
    /\ list_ (Some (JS.of_Z 18)) five_docs_world = (Return rows_m, five_docs_world)
    /\ rows_n = take 5 rows_m
    /\ (5 <= 5 -> Permutation rows_n (World.images five_docs_world)).
Proof. apply (list_limits_agree five_docs_world 5 18). lia. Defined.

(** ** [generate]: the branches, run *)

(* Unfolds [generate] on validated arguments up to the [create] call. *)
Ltac enter_generate Hv :=
  unfold generate, validated; rewrite Hv; unfold generate_handler;
  rewrite bind_run; unfold Date_now at 1; cbv beta iota zeta;
  rewrite bind_run.

Ltac as_huggingface Hp :=
  rewrite Hp;
  change (normalizeProvider (Some "huggingface")) with "huggingface";
  change (String.eqb "huggingface" "huggingface") with true; cbv iota.

Lemma not_huggingface_is_fal (args : GenerateArgs.t) :
  GenerateArgs.validator args = true ->
  GenerateArgs.provider args <> Some "huggingface" ->
  normalizeProvider (GenerateArgs.provider args) = "fal".
Proof.
  intros Hv Hp. destruct (validator_fields args Hv) as (_ & _ & _ & [H | [H | H]]);
    rewrite H in *; [reflexivity | reflexivity | congruence].
Qed.

Ltac as_fal Hv Hp :=
  rewrite (not_huggingface_is_fal _ Hv Hp);
  change (String.eqb "fal" "huggingface") with false; cbv iota.

(* Ends a run in the catch block with the thrown value [e]. *)
Ltac end_failed env e :=
  rewrite ?throw_run;
  match goal with
  | |- context [(Date_now env ≫= _) (World.mk (?l ++ [?d0]) ?s ?c ?h)] =>
      let d := fresh "d" in
      let Hfin := fresh "Hfin" in
      let Hd := fresh "Hd" in
      destruct (finish_failed env (length l) e (World.mk (l ++ [d0]) s c h)
                  l d0 eq_refl eq_refl) as (d & Hfin & Hd);
      project_in Hfin; rewrite Hfin; exists d; split; [reflexivity |];
      subst d
  end.

Ltac end_complete env :=
  rewrite ?ret_run;
  match goal with
  | |- context [(Date_now env ≫= λ now, update (UpdateArgs.mk _ _ (Some ?urls) ?rid _ _) ≫= _)
                  (World.mk (?l ++ [?d0]) ?s ?c ?h)] =>
      let d := fresh "d" in
      let Hfin := fresh "Hfin" in
      let Hd := fresh "Hd" in
      destruct (finish_complete env (length l) urls rid
                  (World.mk (l ++ [d0]) s c h) l d0 eq_refl eq_refl)
        as (d & Hfin & Hd);
      project_in Hfin; rewrite Hfin; exists d; split; [reflexivity |];
      subst d
  end.

Lemma generate_without_hf_token (env : Env.t) (fuel : nat)
    (args : GenerateArgs.t) (w : World.t) :
  GenerateArgs.validator args = true ->
  GenerateArgs.provider args = Some "huggingface" ->
  JS.truthy (Env.HF_TOKEN env) = false ->
  exists d,
    generate env fuel args w
    = (Throw (JS.Error "Missing HF_TOKEN environment variable."),
       World.mk (World.images w ++ [d]) (World.storage w)
                (S (S (World.clock_reads w))) (World.hf_calls w))
    /\ failed_with (JS.Error "Missing HF_TOKEN environment variable.") d
    /\ created_by env args w d.
Proof.
  intros Hv Hp Htoken.
  destruct (validator_fields args Hv) as (Har & Hres & Hfmt & _).
  enter_generate Hv. unfold created_by. as_huggingface Hp.
  destruct w as [imgs sto clk hfc]. project.
  created. rewrite Htoken. cbn [negb].
  end_failed env (JS.Error "Missing HF_TOKEN environment variable.").
  split; [unfold failed_with; fields | fields].
Qed.

Lemma generate_without_fal_key (env : Env.t) (fuel : nat)
    (args : GenerateArgs.t) (w : World.t) :
  GenerateArgs.validator args = true ->
  GenerateArgs.provider args <> Some "huggingface" ->
  JS.truthy (Env.FAL_KEY env) = false ->
  exists d,
    generate env fuel args w
    = (Throw (JS.Error "Missing FAL_KEY environment variable."),
       World.mk (World.images w ++ [d]) (World.storage w)
                (S (S (World.clock_reads w))) (World.hf_calls w))
    /\ failed_with (JS.Error "Missing FAL_KEY environment variable.") d
    /\ created_by env args w d.
Proof.
  intros Hv Hp Hkey.
  destruct (validator_fields args Hv) as (Har & Hres & Hfmt & _).
  enter_generate Hv. unfold created_by. as_fal Hv Hp.
  destruct w as [imgs sto clk hfc]. project.
  created. rewrite Hkey. cbn [negb].
  end_failed env (JS.Error "Missing FAL_KEY environment variable.").
  split; [unfold failed_with; fields | fields].
Qed.

Lemma generate_fal_run (env : Env.t) (fuel : nat) (args : GenerateArgs.t)
    (w : World.t) :
  GenerateArgs.validator args = true ->
  GenerateArgs.provider args <> Some "huggingface" ->
  JS.truthy (Env.FAL_KEY env) = true ->
  exists d,
    generate env fuel args w
    = (match Env.subscribe env FAL_MODEL_NAME
               {| FalInput.prompt := GenerateArgs.prompt args;
                  FalInput.aspect_ratio := GenerateArgs.aspectRatio args;
                  FalInput.resolution := GenerateArgs.resolution args;
                  FalInput.output_format := GenerateArgs.outputFormat args;
                  FalInput.num_images := clamped (GenerateArgs.numImages args) |}
       with
       | inl e => Throw e
       | inr result =>
           Return {| GenerateResult.id := length (World.images w);
                     GenerateResult.imageUrls := fal_urls result;
                     GenerateResult.requestId := FalResult.requestId result |}
       end,
       World.mk (World.images w ++ [d]) (World.storage w)
                (S (S (World.clock_reads w))) (World.hf_calls w))
    /\ created_by env args w d
    /\ match Env.subscribe env FAL_MODEL_NAME
               {| FalInput.prompt := GenerateArgs.prompt args;
                  FalInput.aspect_ratio := GenerateArgs.aspectRatio args;
                  FalInput.resolution := GenerateArgs.resolution args;
                  FalInput.output_format := GenerateArgs.outputFormat args;
                  FalInput.num_images := clamped (GenerateArgs.numImages args) |}
       with
       | inl e => failed_with e d
       | inr result =>
           Doc.status d = "complete"
           /\ Doc.imageUrls d = Some (fal_urls result)
           /\ Doc.requestId d = FalResult.requestId result
           /\ Doc.error d = None
       end.
Proof.
  intros Hv Hp Hkey.
  destruct (validator_fields args Hv) as (Har & Hres & Hfmt & _).
  enter_generate Hv. unfold created_by, fal_urls. as_fal Hv Hp.
  destruct w as [imgs sto clk hfc]. project.
  created. rewrite Hkey. cbn [negb]. rewrite ret_run, bind_run.
  unfold fal_subscribe at 1.
  destruct (Env.subscribe env _ _) as [e | result]; cbn [lift].
  - end_failed env e. split; [fields | unfold failed_with; fields].
  - end_complete env. split; fields.
Qed.

Lemma hf_loop_stores (env : Env.t) (count : nat) :
  forall (fuel index : nat) (n : number) (req : HfRequest.t)
         (urls : list string) (w : World.t),
    (forall i, i < count -> JS.lt (JS.of_Z (Z.of_nat (index + i))) n = true) ->
    JS.lt (JS.of_Z (Z.of_nat (index + count))) n = false ->
    count <= fuel ->
    (forall i, i < count ->
       exists blob, Env.textToImage env req (World.hf_calls w + i) = inr blob) ->
    exists blobs,
      length blobs = count
      /\ hf_loop env fuel index n req urls w
         = (Return (urls ++ filter_Boolean (offered_urls env w count)),
            World.mk (World.images w) (World.storage w ++ blobs)
                     (World.clock_reads w) (World.hf_calls w + count)).
Proof.
  induction count as [| count IH]; intros fuel index n req urls w Hlt Hstop Hfuel Hcalls.
  - rewrite Nat.add_0_r in Hstop. exists []. split; [reflexivity |].
    destruct fuel; cbn [hf_loop]; rewrite Hstop;
      rewrite ret_run, !app_nil_r, Nat.add_0_r; destruct w; reflexivity.
  - destruct fuel as [| fuel]; [lia |]. cbn [hf_loop].
    pose proof (Hlt 0 ltac:(lia)) as Hfirst. rewrite Nat.add_0_r in Hfirst.
    rewrite Hfirst.
    rewrite bind_run, hf_textToImage_run. cbv zeta.
    destruct (Hcalls 0) as [blob Hblob]; [lia |].
    rewrite Nat.add_0_r in Hblob. rewrite Hblob.
    rewrite bind_run. unfold storage_store at 1.
    rewrite bind_run. unfold storage_getUrl at 1. rewrite ret_run.
    match goal with |- context [hf_loop env fuel (S index) n req ?u ?w1] =>
      destruct (IH fuel (S index) n req u w1) as (blobs & Hlen & Hrun) end.
    + intros i Hi. replace (S index + i) with (index + S i) by lia. apply Hlt. lia.
    + replace (S index + count) with (index + S count) by lia. exact Hstop.
    + lia.
    + intros i Hi. cbn [World.hf_calls].
      replace (S (World.hf_calls w) + i) with (World.hf_calls w + S i) by lia.
      apply Hcalls. lia.
    + exists (blob :: blobs). split; [cbn; lia |]. rewrite Hrun.
      cbn [World.images World.clock_reads World.hf_calls World.storage].
      f_equal; [f_equal | f_equal; [rewrite <- app_assoc; reflexivity | lia]].
      unfold offered_urls. cbn [seq map filter_Boolean World.storage].
      rewrite Nat.add_0_r, <- seq_shift, map_map, length_app. cbn [length].
      assert (map (fun i => Env.getUrl env (length (World.storage w) + 1 + i)) (seq 0 count)
              = map (fun i => Env.getUrl env (length (World.storage w) + S i)) (seq 0 count)) as ->.
      { apply map_ext. intros i. f_equal. lia. }
      destruct (Env.getUrl env (length (World.storage w))) as [u |]; [| reflexivity].
      destruct (JS.truthy (Some u)); [| reflexivity].
      rewrite <- app_assoc. reflexivity.
Qed.

Lemma generate_hf_calls (env : Env.t) (fuel : nat) (args : GenerateArgs.t)
    (w : World.t) (dims : Dimensions) :
  GenerateArgs.validator args = true ->
  GenerateArgs.provider args = Some "huggingface" ->
  JS.truthy (Env.HF_TOKEN env) = true ->
  4 <= fuel ->
  resolveHuggingFaceDimensions (GenerateArgs.aspectRatio args) = inr dims ->
  (forall i, i < loop_count (clamped (GenerateArgs.numImages args)) ->
     exists blob,
       Env.textToImage env
         {| HfRequest.model := HUGGINGFACE_MODEL_NAME;
            HfRequest.inputs := GenerateArgs.prompt args;
            HfRequest.width := width dims;
            HfRequest.height := height dims |}
         (World.hf_calls w + i) = inr blob) ->
  exists r d blobs,
    generate env fuel args w
    = (r, World.mk (World.images w ++ [d]) (World.storage w ++ blobs)
                   (S (S (World.clock_reads w)))
                   (World.hf_calls w + loop_count (clamped (GenerateArgs.numImages args))))
    /\ length blobs = loop_count (clamped (GenerateArgs.numImages args)).
Proof.
  intros Hv Hp Htoken Hfuel Hdims Hcalls.
  destruct (validator_fields args Hv) as (Har & Hres & Hfmt & _).
  destruct (loop_count_spec (clamped (GenerateArgs.numImages args)) (clamp_stops _))
    as (Hlt & Hstop & Hle).
  enter_generate Hv. as_huggingface Hp.
  destruct w as [imgs sto clk hfc]. project.
  created. rewrite Htoken. cbn [negb]. rewrite ret_run, bind_run.
  rewrite Hdims. cbn [lift]. rewrite ret_run, bind_run.
  match goal with |- context [hf_loop env fuel 0 ?n ?req ?u ?w2] =>
    destruct (hf_loop_stores env _ fuel 0 n req u w2 Hlt Hstop ltac:(lia))
      as (blobs & Hlen & Hrun); [exact Hcalls |]
  end.
  rewrite Hrun. cbn [app]. project.
  generalize (filter_Boolean
    (offered_urls env (World.mk (imgs ++ [d0]) sto (S clk) hfc)
       (loop_count (clamped (GenerateArgs.numImages args))))).
  intros urls. cbv iota beta. rewrite bind_run.
  destruct urls as [| u urls]; cbn [length Nat.eqb].
  - rewrite throw_run.
    match goal with |- context [(Date_now env ≫= _) (World.mk (?l ++ [?d0]) ?s ?c ?h)] =>
      destruct (finish_failed env (length l)
                  (JS.Error "Hugging Face returned no images.")
                  (World.mk (l ++ [d0]) s c h) l d0 eq_refl eq_refl)
        as (d & Hfin & Hd) end.
    project_in Hfin. rewrite Hfin. eexists _, d, blobs. split; [reflexivity | exact Hlen].
  - rewrite ret_run.
    match goal with |- context [(Date_now env ≫= _) (World.mk (?l ++ [?d0]) ?s ?c ?h)] =>
      destruct (finish_complete env (length l) (u :: urls) None
                  (World.mk (l ++ [d0]) s c h) l d0 eq_refl eq_refl)
        as (d & Hfin & Hd) end.
    project_in Hfin. rewrite Hfin. eexists _, d, blobs. split; [reflexivity | exact Hlen].
Qed.

(** ** [generate]: outcomes *)

(** X13.  A run of [generate] on validated arguments adds exactly one
    document and leaves it in a terminal state: the call returns exactly
    when the record is [complete] and throws exactly when it is [failed];
    the record is never left [queued]; [error] is set exactly for a failed
    record; and the clock is read exactly twice. *)
Theorem generate_reaches_terminal_state (env : Env.t) (fuel : nat)
    (args : GenerateArgs.t) (w : World.t) :
  GenerateArgs.validator args = true -> 4 <= fuel ->
  exists r d w',
    generate env fuel args w = (r, w')
    /\ World.images w' = World.images w ++ [d]
    /\ World.clock_reads w' = S (S (World.clock_reads w))
    /\ ((exists res, r = Return res) <-> Doc.status d = "complete")
    /\ ((exists e, r = Throw e) <-> Doc.status d = "failed")
    /\ Doc.status d <> "queued"
    /\ (is_Some (Doc.error d) <-> Doc.status d = "failed").
Proof.
  intros Hv Hfuel.
  destruct (generate_lifecycle env fuel args w Hv Hfuel)
    as (r & d & w' & Hrun & Himg & Hclock & _ & _ & Hend).
  exists r, d, w'. split; [exact Hrun |]. split; [exact Himg |].
  split; [exact Hclock |].
  destruct Hend as [(res & -> & _ & (Hs & _ & _ & He) & _)
                   | (e & -> & (Hs & _ & _ & He) & _)];
    rewrite Hs, He.
  - split; [split; eauto |].
    split; [split; [intros [e [=]] | discriminate] |].
    split; [discriminate |]. split; [intros [x [=]] | discriminate].
  - split; [split; [intros [res [=]] | discriminate] |].
    split; [split; eauto |].
    split; [discriminate |]. split; eauto.
Qed.

Lemma generate_reaches_terminal_state_witness :
  exists r d w',
    generate (sample_env blob_always url_of fal_two_images) 4
             (sample_args None None) empty_world = (r, w')
    /\ World.images w' = [d]
    /\ World.clock_reads w' = 2
    /\ ((exists res, r = Return res) <-> Doc.status d = "complete")
    /\ ((exists e, r = Throw e) <-> Doc.status d = "failed")
    /\ Doc.status d <> "queued"
    /\ (is_Some (Doc.error d) <-> Doc.status d = "failed").
Proof.
  apply (generate_reaches_terminal_state
           (sample_env blob_always url_of fal_two_images) 4
           (sample_args None None) empty_world); [reflexivity | lia].
Defined.

(** X14.  What [generate] returns is what it stored: the returned id is the
    id of the record it created, and the returned [imageUrls] and
    [requestId] are those of that record. *)
Theorem generate_returns_the_record (env : Env.t) (fuel : nat)
    (args : GenerateArgs.t) (w w' : World.t) (res : GenerateResult.t) :
  GenerateArgs.validator args = true -> 4 <= fuel ->
  generate env fuel args w = (Return res, w') ->
  exists d,
    World.images w !! GenerateResult.id res = None
    /\ World.images w' !! GenerateResult.id res = Some d
    /\ created_by env args w d
    /\ Doc.status d = "complete"
    /\ Doc.imageUrls d = Some (GenerateResult.imageUrls res)
    /\ Doc.requestId d = GenerateResult.requestId res.
Proof.
  intros Hv Hfuel Hrun.
  destruct (generate_lifecycle env fuel args w Hv Hfuel)
    as (r & d & w1 & Hrun1 & Himg & _ & Hcreated & _ & Hend).
  rewrite Hrun in Hrun1. injection Hrun1 as <- <-.
  destruct Hend as [(res1 & [= <-] & Hid & (Hs & Hu & Hr & _) & _) | (e & [=] & _)].
  exists d. rewrite Hid, Himg.
  split; [apply lookup_ge_None_2; lia |].
  split; [apply list_lookup_middle; reflexivity |]. tauto.
Qed.

Lemma generate_returns_the_record_witness :
  let run := generate (sample_env blob_always url_of fal_two_images) 4
                      (sample_args None None) empty_world in
  exists res d,
    fst run = Return res
    /\ GenerateResult.imageUrls res
       = [ "https://fal.example/a"; "https://fal.example/b" ]
    /\ World.images (snd run) !! GenerateResult.id res = Some d
    /\ Doc.imageUrls d = Some (GenerateResult.imageUrls res)
    /\ Doc.requestId d = GenerateResult.requestId res.
Proof.
  cbv zeta.
  destruct (generate_returns_the_record
              (sample_env blob_always url_of fal_two_images) 4
              (sample_args None None) empty_world
              (snd (generate (sample_env blob_always url_of fal_two_images) 4
                             (sample_args None None) empty_world))
              {| GenerateResult.id := 0;
                 GenerateResult.imageUrls :=
                   [ "https://fal.example/a"; "https://fal.example/b" ];
                 GenerateResult.requestId := Some "req-2" |})
    as (d & _ & Hget & _ & _ & Hu & Hr); [reflexivity | lia | reflexivity |].
  eexists _, d. split; [reflexivity |]. split; [reflexivity |].
  split; [exact Hget |]. split; [exact Hu | exact Hr].
Defined.

(** X15.  [generate] writes to no record but its own: whatever the request,
    valid or not, every document that was in the table is still there under
    the same id and entirely unchanged, and at most one document is
    added.  A request that fails validation changes nothing at all. *)
Theorem generate_leaves_other_documents (env : Env.t) (fuel : nat)
    (args : GenerateArgs.t) (w : World.t) :
  4 <= fuel ->
  (forall i d, World.images w !! i = Some d ->
     World.images (snd (generate env fuel args w)) !! i = Some d)
  /\ length (World.images (snd (generate env fuel args w)))
     <= S (length (World.images w))
  /\ (GenerateArgs.validator args = false ->
      generate env fuel args w = (Throw ArgumentValidationError, w)).
Proof.
  intros Hfuel. destruct (GenerateArgs.validator args) eqn:Hv.
  - destruct (generate_lifecycle env fuel args w Hv Hfuel)
      as (r & d & w' & Hrun & Himg & _).
    rewrite Hrun. cbn [snd]. rewrite Himg.
    split; [| split; [rewrite length_app; cbn [length]; lia | discriminate]].
    intros i d0 Hi. rewrite lookup_app_l; [exact Hi |].
    eapply lookup_lt_Some. exact Hi.
  - unfold generate, validated. rewrite Hv, throw_run. cbn [snd].
    split; [auto |]. split; [lia | reflexivity].
Qed.

Lemma generate_leaves_other_documents_witness :
  World.images
    (snd (generate (sample_env blob_always url_of fal_unavailable) 4
                   (sample_args None None) five_docs_world)) !! 3
  = Some (a_doc 50).
Proof.
  apply (generate_leaves_other_documents
           (sample_env blob_always url_of fal_unavailable) 4
           (sample_args None None) five_docs_world); [lia | reflexivity].
Defined.

(** X16.  The time stamps of the record [generate] leaves behind are the two
    readings of the clock: [createdAt] the one taken on entry and
    [updatedAt] the one taken at the terminal patch.  With a clock that does
    not run backwards, [updatedAt] is not earlier than [createdAt]. *)
Theorem generate_time_stamps (env : Env.t) (fuel : nat)
    (args : GenerateArgs.t) (w : World.t) :
  GenerateArgs.validator args = true -> 4 <= fuel ->
  (Env.Date_now env (World.clock_reads w)
   <= Env.Date_now env (S (World.clock_reads w)))%Z ->
  exists r d w',
    generate env fuel args w = (r, w')
    /\ World.images w' = World.images w ++ [d]
    /\ Doc.createdAt d = Env.Date_now env (World.clock_reads w)
    /\ Doc.updatedAt d = Env.Date_now env (S (World.clock_reads w))
    /\ (Doc.createdAt d <= Doc.updatedAt d)%Z.
Proof.
  intros Hv Hfuel Hclock.
  destruct (generate_lifecycle env fuel args w Hv Hfuel)
    as (r & d & w' & Hrun & Himg & _ & Hcreated & Hupd & _).
  destruct Hcreated as (_ & _ & _ & _ & _ & _ & _ & Hc).
  exists r, d, w'. rewrite Hc, Hupd. auto.
Qed.

Lemma generate_time_stamps_witness :
  exists r d w',
    generate (sample_env blob_always url_of fal_two_images) 4
             (sample_args None None) empty_world = (r, w')
    /\ World.images w' = [d]
    /\ Doc.createdAt d = sample_clock 0
    /\ Doc.updatedAt d = sample_clock 1
    /\ (Doc.createdAt d <= Doc.updatedAt d)%Z.
Proof.
  apply (generate_time_stamps (sample_env blob_always url_of fal_two_images) 4
           (sample_args None None) empty_world); [reflexivity | lia |].
  cbn. unfold sample_clock. lia.
Defined.

(** X17.  After [generate], the listing shows the new record first, provided
    the clock reading taken on entry is not older than the [createdAt] of
    any document already stored: [list] with limit [n + 1] returns the new
    record followed by what [list] with limit [n] returned before. *)
Theorem generated_record_is_listed_first (env : Env.t) (fuel : nat)
    (args : GenerateArgs.t) (w : World.t) (n : nat) :
  GenerateArgs.validator args = true -> 4 <= fuel ->
  Forall (fun x => (Doc.createdAt x <= Env.Date_now env (World.clock_reads w))%Z)
         (World.images w) ->
  exists r d w' rows,
    generate env fuel args w = (r, w')
    /\ World.images w' = World.images w ++ [d]
    /\ list_ (Some (JS.of_Z (Z.of_nat n))) w = (Return rows, w)
    /\ list_ (Some (JS.of_Z (Z.of_nat (S n)))) w' = (Return (d :: rows), w').
Proof.
  intros Hv Hfuel Hnewest.
  destruct (generate_lifecycle env fuel args w Hv Hfuel)
    as (r & d & w' & Hrun & Himg & _ & Hcreated & _).
  destruct Hcreated as (_ & _ & _ & _ & _ & _ & _ & Hc).
  exists r, d, w', (take n (by_created_at_desc (World.images w))).
  split; [exact Hrun |]. split; [exact Himg |].
  rewrite !list_run. split; [reflexivity |].
  rewrite Himg, by_created_at_desc_newest; [reflexivity |].
  rewrite Hc. exact Hnewest.
Qed.

Lemma generated_record_is_listed_first_witness :
  exists r d w' rows,
    generate (sample_env blob_always url_of fal_two_images) 4
             (sample_args None None) five_docs_world = (r, w')
    /\ World.images w' = World.images five_docs_world ++ [d]
    /\ list_ (Some (JS.of_Z 2)) five_docs_world = (Return rows, five_docs_world)
    /\ list_ (Some (JS.of_Z 3)) w' = (Return (d :: rows), w').
Proof.
  apply (generated_record_is_listed_first
           (sample_env blob_always url_of fal_two_images) 4
           (sample_args None None) five_docs_world 2); [reflexivity | lia |].
  repeat constructor; cbn; unfold sample_clock; lia.
Defined.

(** ** [generate]: the credentials and the provider calls *)

(** X18.  Without [HF_TOKEN] (unset or empty) a Hugging Face request fails
    fast: the record is created and patched to [failed] with the message
    "Missing HF_TOKEN environment variable.", the same error is thrown, and
    neither a provider call nor a file store has taken place.  This holds
    for every loop bound. *)
Theorem missing_hf_token_fails_fast (env : Env.t) (fuel : nat)
    (args : GenerateArgs.t) (w : World.t) :
  GenerateArgs.validator args = true ->
  GenerateArgs.provider args = Some "huggingface" ->
  JS.truthy (Env.HF_TOKEN env) = false ->
  exists d w',
    generate env fuel args w
    = (Throw (JS.Error "Missing HF_TOKEN environment variable."), w')
    /\ World.images w' = World.images w ++ [d]
    /\ Doc.status d = "failed"
    /\ Doc.error d = Some "Missing HF_TOKEN environment variable."
    /\ World.hf_calls w' = World.hf_calls w
    /\ World.storage w' = World.storage w.
Proof.
  intros Hv Hp Htoken.
  destruct (generate_without_hf_token env fuel args w Hv Hp Htoken)
    as (d & Hrun & (Hs & _ & _ & He) & _).
  eexists d, _. split; [exact Hrun |]. cbn. auto.
Qed.

Lemma missing_hf_token_fails_fast_witness :
  exists d w',
    generate (env_without_credentials fal_two_images) 0
             (sample_args (Some (JS.of_Z 3)) (Some "huggingface")) empty_world
    = (Throw (JS.Error "Missing HF_TOKEN environment variable."), w')
    /\ World.images w' = [d]
    /\ Doc.status d = "failed"
    /\ Doc.error d = Some "Missing HF_TOKEN environment variable."
    /\ World.hf_calls w' = 0
    /\ World.storage w' = [].
Proof.
  apply (missing_hf_token_fails_fast (env_without_credentials fal_two_images) 0
           (sample_args (Some (JS.of_Z 3)) (Some "huggingface")) empty_world);
    reflexivity.
Defined.

(** X19.  Without [FAL_KEY] (unset or empty) a fal request fails with the
    message "Missing FAL_KEY environment variable.", whatever the endpoint
    would have answered: the record is created and patched to [failed] with
    that message and the same error is thrown. *)
Theorem missing_fal_key_fails_fast (env : Env.t) (fuel : nat)
    (args : GenerateArgs.t) (w : World.t) :
  GenerateArgs.validator args = true ->
  GenerateArgs.provider args <> Some "huggingface" ->
  JS.truthy (Env.FAL_KEY env) = false ->
  exists d w',
    generate env fuel args w
    = (Throw (JS.Error "Missing FAL_KEY environment variable."), w')
    /\ World.images w' = World.images w ++ [d]
    /\ Doc.status d = "failed"
    /\ Doc.error d = Some "Missing FAL_KEY environment variable."
    /\ Doc.imageUrls d = None.
Proof.
  intros Hv Hp Hkey.
  destruct (generate_without_fal_key env fuel args w Hv Hp Hkey)
    as (d & Hrun & (Hs & Hu & _ & He) & _).
  eexists d, _. split; [exact Hrun |]. cbn. auto.
Qed.

Lemma missing_fal_key_fails_fast_witness :
  exists d w',
    generate (env_without_credentials fal_two_images) 4
             (sample_args None None) empty_world
    = (Throw (JS.Error "Missing FAL_KEY environment variable."), w')
    /\ World.images w' = [d]
    /\ Doc.status d = "failed"
    /\ Doc.error d = Some "Missing FAL_KEY environment variable."
    /\ Doc.imageUrls d = None.
Proof.
  apply (missing_fal_key_fails_fast (env_without_credentials fal_two_images) 4
           (sample_args None None) empty_world);
    [reflexivity | discriminate | reflexivity].
Defined.

(** X20.  A fal request with the key present is decided by the answer of
    the endpoint [fal-ai/nano-banana-pro] to the input made of the prompt,
    the aspect ratio, the resolution, the output format and the clamped
    image count.  When that call returns, [generate] returns and stores the
    URLs of the returned images in their order, without the missing and the
    empty ones (the empty list when the answer has no [data] or no
    [images]), together with the request id of the answer. *)
Theorem fal_success (env : Env.t) (fuel : nat) (args : GenerateArgs.t)
    (w : World.t) (result : FalResult.t) :
  GenerateArgs.validator args = true ->
  GenerateArgs.provider args <> Some "huggingface" ->
  JS.truthy (Env.FAL_KEY env) = true ->
  Env.subscribe env FAL_MODEL_NAME
    {| FalInput.prompt := GenerateArgs.prompt args;
       FalInput.aspect_ratio := GenerateArgs.aspectRatio args;
       FalInput.resolution := GenerateArgs.resolution args;
       FalInput.output_format := GenerateArgs.outputFormat args;
       FalInput.num_images := clamped (GenerateArgs.numImages args) |}
  = inr result ->
  exists d w',
    generate env fuel args w
    = (Return {| GenerateResult.id := length (World.images w);
                 GenerateResult.imageUrls := fal_urls result;
                 GenerateResult.requestId := FalResult.requestId result |}, w')
    /\ World.images w' = World.images w ++ [d]
    /\ Doc.status d = "complete"
    /\ Doc.imageUrls d = Some (fal_urls result)
    /\ Doc.requestId d = FalResult.requestId result
    /\ urls_truthy (fal_urls result)
    /\ (forall images,
          FalResult.data result = Some {| FalResult.images := Some images |} ->
          fal_urls result
          = omap (fun image =>
                    match FalResult.url image with
                    | Some u => if String.eqb u "" then None else Some u
                    | None => None
                    end) images)
    /\ (FalResult.data result = None -> fal_urls result = []).
Proof.
  intros Hv Hp Hkey Hcall.
  destruct (generate_fal_run env fuel args w Hv Hp Hkey) as (d & Hrun & _ & Hd).
  rewrite Hcall in Hrun, Hd. destruct Hd as (Hs & Hu & Hr & _).
  eexists d, _. split; [exact Hrun |]. cbn [World.images].
  repeat (split; [assumption || reflexivity |]).
  assert (forall l, urls_truthy (filter_Boolean l)) as Htruthy.
  { induction l as [| [u |] l IH]; cbn [filter_Boolean JS.truthy];
      [constructor | | exact IH].
    destruct (String.eqb_spec u ""); cbn [negb]; [exact IH |].
    constructor; assumption. }
  assert (forall images,
            filter_Boolean (map FalResult.url images)
            = omap (fun image =>
                      match FalResult.url image with
                      | Some u => if String.eqb u "" then None else Some u
                      | None => None
                      end) images) as Homap.
  { induction images as [| [[u |]] images IH]; simpl;
      [reflexivity | | exact IH].
    destruct (String.eqb u ""); simpl; rewrite IH; reflexivity. }
  unfold fal_urls. split; [| split].
  - destruct (FalResult.data result) as [[[images |]] |]; cbn; try constructor.
    apply Htruthy.
  - intros images ->. cbn. apply Homap.
  - intros ->. reflexivity.
Qed.

Lemma fal_success_witness :
  exists d w',
    generate (sample_env blob_always url_of fal_two_images) 4
             (sample_args (Some (JS.of_Z 7)) (Some "fal")) empty_world
    = (Return {| GenerateResult.id := 0;
                 GenerateResult.imageUrls :=
                   [ "https://fal.example/a"; "https://fal.example/b" ];
                 GenerateResult.requestId := Some "req-2" |}, w')
    /\ World.images w' = [d]
    /\ Doc.status d = "complete"
    /\ Doc.imageUrls d
       = Some [ "https://fal.example/a"; "https://fal.example/b" ].
Proof.
  destruct (fal_success (sample_env blob_always url_of fal_two_images) 4
              (sample_args (Some (JS.of_Z 7)) (Some "fal")) empty_world
              {| FalResult.data :=
                   Some {| FalResult.images :=
                             Some [ {| FalResult.url := Some "https://fal.example/a" |};
                                    {| FalResult.url := Some "" |};
                                    {| FalResult.url := Some "https://fal.example/b" |} ] |};
                 FalResult.requestId := Some "req-2" |})
    as (d & w' & Hrun & Himg & Hs & Hu & _);
    [reflexivity | discriminate | reflexivity | reflexivity |].
  exists d, w'. split; [exact Hrun |]. split; [exact Himg |].
  split; [exact Hs | exact Hu].
Defined.






(** X22.  A Hugging Face request with the token present issues one provider
    call per loop iteration, each with the model [ByteDance/SDXL-Lightning],
    the prompt and the width and height resolved from the aspect ratio, and
    stores one file per call: as long as those calls return, the call
    counter and the file storage both grow by the number of iterations. *)
Theorem hf_one_call_per_image (env : Env.t) (fuel : nat) (args : GenerateArgs.t)
    (w : World.t) (dims : Dimensions) :
  GenerateArgs.validator args = true ->
  GenerateArgs.provider args = Some "huggingface" ->
  JS.truthy (Env.HF_TOKEN env) = true ->
  4 <= fuel ->
  resolveHuggingFaceDimensions (GenerateArgs.aspectRatio args) = inr dims ->
  (forall i, i < loop_count (clamped (GenerateArgs.numImages args)) ->
     exists blob,
       Env.textToImage env
         {| HfRequest.model := HUGGINGFACE_MODEL_NAME;
            HfRequest.inputs := GenerateArgs.prompt args;
            HfRequest.width := width dims;
            HfRequest.height := height dims |}
         (World.hf_calls w + i) = inr blob) ->
  exists r w',
    generate env fuel args w = (r, w')
    /\ World.hf_calls w'
       = World.hf_calls w + loop_count (clamped (GenerateArgs.numImages args))
    /\ length (World.storage w')
       = length (World.storage w)
         + loop_count (clamped (GenerateArgs.numImages args))
    /\ length (World.images w') = S (length (World.images w)).
Proof.
  intros Hv Hp Htoken Hfuel Hdims Hcalls.
  destruct (generate_hf_calls env fuel args w dims Hv Hp Htoken Hfuel Hdims Hcalls)
    as (r & d & blobs & Hrun & Hlen).
  eexists r, _. split; [exact Hrun |]. cbn [World.hf_calls World.storage World.images].
  split; [reflexivity |]. rewrite !length_app, Hlen. cbn [length]. lia.
Qed.

Lemma hf_one_call_per_image_witness :
  exists r w',
    generate (sample_env blob_always url_of fal_no_images) 4
             (sample_args (Some (JS.Finite 2.5)) (Some "huggingface")) empty_world
    = (r, w')
    /\ World.hf_calls w' = 3
    /\ length (World.storage w') = 3
    /\ length (World.images w') = 1.
Proof.
  destruct (hf_one_call_per_image (sample_env blob_always url_of fal_no_images) 4
              (sample_args (Some (JS.Finite 2.5)) (Some "huggingface")) empty_world
              {| width := JS.of_Z 1024; height := JS.of_Z 576 |})
    as (r & w' & Hrun & Hcalls & Hsto & Himg);
    [reflexivity | reflexivity | reflexivity | lia | reflexivity
    | intros i _; eexists; reflexivity |].
  exists r, w'. split; [exact Hrun |]. split; [exact Hcalls |].
  split; [exact Hsto | exact Himg].
Defined.

(** X23.  On the Hugging Face path the resolution and the output format of
    the request have no influence at all: two validated requests that differ
    only in these two fields give the same outcome and the same final
    store. *)
Theorem hf_ignores_resolution_and_format (env : Env.t) (fuel : nat)
    (args : GenerateArgs.t) (resolution outputFormat : string) (w : World.t) :
  GenerateArgs.validator args = true ->
  GenerateArgs.provider args = Some "huggingface" ->
  resolutionValidator resolution = true ->
  outputFormatValidator outputFormat = true ->
  generate env fuel
    {| GenerateArgs.prompt := GenerateArgs.prompt args;
       GenerateArgs.aspectRatio := GenerateArgs.aspectRatio args;
       GenerateArgs.resolution := resolution;
       GenerateArgs.outputFormat := outputFormat;
       GenerateArgs.numImages := GenerateArgs.numImages args;
       GenerateArgs.provider := GenerateArgs.provider args |} w
  = generate env fuel args w.
Proof.
  intros Hv Hp Hres Hfmt.
  destruct (validator_fields args Hv) as (Har & _ & _ & _).
  destruct args as [prompt aspectRatio res0 fmt0 numImages provider].
  cbn [GenerateArgs.prompt GenerateArgs.aspectRatio GenerateArgs.numImages
       GenerateArgs.provider] in *. subst provider.
  unfold generate, validated. rewrite Hv.
  assert (GenerateArgs.validator
            {| GenerateArgs.prompt := prompt;
               GenerateArgs.aspectRatio := aspectRatio;
               GenerateArgs.resolution := resolution;
               GenerateArgs.outputFormat := outputFormat;
               GenerateArgs.numImages := numImages;
               GenerateArgs.provider := Some "huggingface" |} = true) as ->.
  { unfold GenerateArgs.validator.
    cbn [GenerateArgs.prompt GenerateArgs.aspectRatio GenerateArgs.resolution
         GenerateArgs.outputFormat GenerateArgs.numImages GenerateArgs.provider].
    rewrite Har, Hres, Hfmt. destruct numImages; reflexivity. }
  reflexivity.
Qed.

Lemma hf_ignores_resolution_and_format_witness :
  generate (sample_env blob_always url_of fal_no_images) 4
    {| GenerateArgs.prompt := "a red fox";
       GenerateArgs.aspectRatio := "16:9";
       GenerateArgs.resolution := "1K";
       GenerateArgs.outputFormat := "png";
       GenerateArgs.numImages := Some (JS.of_Z 2);
       GenerateArgs.provider := Some "huggingface" |} empty_world
  = generate (sample_env blob_always url_of fal_no_images) 4
      (sample_args (Some (JS.of_Z 2)) (Some "huggingface")) empty_world.
Proof.
  apply (hf_ignores_resolution_and_format
           (sample_env blob_always url_of fal_no_images) 4
           (sample_args (Some (JS.of_Z 2)) (Some "huggingface")) "1K" "png"
           empty_world); reflexivity.
Defined.

(** ** An invariant of the table: no empty URL *)

Section Keeps.
Variable I : World.t -> Prop.

Lemma keeps_ret {A : Type} (a : A) (Q : A -> Prop) :
  Q a -> keeps I (mret a : M A) Q.
Proof. intros Ha w Hw. split; [exact Hw |]. intros b [= <-]. exact Ha. Qed.

Lemma keeps_throw {A : Type} (e : JS.thrown) (Q : A -> Prop) :
  keeps I (@throw A e) Q.
Proof. intros w Hw. split; [exact Hw |]. intros b [=]. Qed.

Lemma keeps_out_of_fuel {A : Type} (Q : A -> Prop) : keeps I (@out_of_fuel A) Q.
Proof. intros w Hw. split; [exact Hw |]. intros b [=]. Qed.

Lemma keeps_lift {A : Type} (r : JS.thrown + A) (Q : A -> Prop) :
  (forall a, r = inr a -> Q a) -> keeps I (lift r) Q.
Proof.
  destruct r as [e | a]; intros H; [apply keeps_throw | apply keeps_ret; auto].
Qed.

Lemma keeps_bind {A B : Type} (m : M A) (k : A -> M B) (Q : A -> Prop)
    (R : B -> Prop) :
  keeps I m Q -> (forall a, Q a -> keeps I (k a) R) -> keeps I (m ≫= k) R.
Proof.
  intros Hm Hk w Hw. rewrite bind_run. destruct (Hm w Hw) as [Hw1 Hq].
  destruct (m w) as [[a | e |] w1]; cbn [fst snd] in *.
  - apply (Hk a (Hq a eq_refl) w1 Hw1).
  - split; [exact Hw1 | intros b [=]].
  - split; [exact Hw1 | intros b [=]].
Qed.

Lemma keeps_try_catch {A : Type} (body : M A) (handler : JS.thrown -> M A)
    (Q : A -> Prop) :
  keeps I body Q -> (forall e, keeps I (handler e) Q) ->
  keeps I (try_catch body handler) Q.
Proof.
  intros Hb Hh w Hw. unfold try_catch. destruct (Hb w Hw) as [Hw1 Hq].
  destruct (body w) as [[a | e |] w1]; cbn [fst snd] in *.
  - split; [exact Hw1 | exact Hq].
  - apply (Hh e w1 Hw1).
  - split; [exact Hw1 | intros b [=]].
Qed.

Lemma keeps_validated {Args A : Type} (validator : Args -> bool)
    (handler : Args -> M A) (args : Args) (Q : A -> Prop) :
  keeps I (handler args) Q -> keeps I (validated validator handler args) Q.
Proof.
  unfold validated. destruct (validator args); [auto | intros _; apply keeps_throw].
Qed.

Lemma keeps_same_images {A : Type} (m : M A) :
  (forall w w', World.images w' = World.images w -> I w -> I w') ->
  (forall w, World.images (snd (m w)) = World.images w) ->
  keeps I m (fun _ => True).
Proof. intros Hext Hm w Hw. split; [eapply Hext; eauto | auto]. Qed.
End Keeps.

Lemma no_empty_urls_ext (w w' : World.t) :
  World.images w' = World.images w -> no_empty_urls w -> no_empty_urls w'.
Proof. unfold no_empty_urls. intros ->. auto. Qed.

Lemma filter_Boolean_truthy (l : list (option string)) :
  urls_truthy (filter_Boolean l).
Proof.
  induction l as [| [u |] l IH]; cbn [filter_Boolean JS.truthy];
    [constructor | | exact IH].
  destruct (String.eqb_spec u ""); cbn [negb]; [exact IH |].
  constructor; assumption.
Qed.

Lemma keeps_create (a : CreateArgs.t) :
  keeps no_empty_urls (create a) (fun _ => True).
Proof.
  apply keeps_validated. intros w Hw. split; [| auto].
  unfold create_handler, db_insert. rewrite bind_run. unfold get_images.
  rewrite bind_run. unfold put_images. rewrite ret_run. cbn [snd].
  intros d urls Hd Hurls. cbn [World.images] in Hd.
  apply elem_of_app in Hd. destruct Hd as [Hd | Hd]; [eapply Hw; eauto |].
  apply list_elem_of_singleton in Hd. subst d. discriminate.
Qed.

Lemma keeps_update (a : UpdateArgs.t) :
  (forall urls, UpdateArgs.imageUrls a = Some urls -> urls_truthy urls) ->
  keeps no_empty_urls (update a) (fun _ => True).
Proof.
  intros Ha w Hw. split; [| auto]. rewrite update_run_at.
  destruct (World.images w !! UpdateArgs.id a) as [d0 |] eqn:Hd0; cbn [snd]; [| exact Hw].
  intros d urls Hd Hurls. cbn [World.images] in Hd.
  apply list_elem_of_lookup in Hd. destruct Hd as [i Hi].
  destruct (decide (i = UpdateArgs.id a)) as [-> | Hne].
  - rewrite list_lookup_insert_eq in Hi by (eapply lookup_lt_Some; exact Hd0).
    injection Hi as <-. cbn [patch_fields Doc.imageUrls] in Hurls.
    destruct (UpdateArgs.imageUrls a) as [u |] eqn:Hu.
    + injection Hurls as <-. apply Ha. reflexivity.
    + eapply Hw; [| exact Hurls]. apply list_elem_of_lookup. eauto.
  - rewrite list_lookup_insert_ne in Hi by congruence.
    eapply Hw; [| exact Hurls]. apply list_elem_of_lookup. eauto.
Qed.

Section KeepsGenerate.
Variable env : Env.t.
(** An invariant that looks at the table only and that [create] and an
    [update] with non-empty URLs keep. *)
Variable I : World.t -> Prop.
Hypothesis I_ext :
  forall w w', World.images w' = World.images w -> I w -> I w'.
Hypothesis I_create : forall a, keeps I (create a) (fun _ => True).
Hypothesis I_update :
  forall a,
    (forall urls, UpdateArgs.imageUrls a = Some urls -> urls_truthy urls) ->
    keeps I (update a) (fun _ => True).

Lemma keeps_Date_now : keeps I (Date_now env) (fun _ => True).
Proof. apply keeps_same_images; [exact I_ext | reflexivity]. Qed.

Lemma keeps_hf_loop (fuel index : nat) (n : number) (req : HfRequest.t)
    (urls : list string) :
  urls_truthy urls ->
  keeps I (hf_loop env fuel index n req urls) urls_truthy.
Proof.
  revert index urls. induction fuel as [| fuel IH]; intros index urls Hurls;
    cbn [hf_loop]; destruct (JS.lt _ n);
    try (apply keeps_ret; exact Hurls); try apply keeps_out_of_fuel.
  eapply keeps_bind with (Q := fun _ => True).
  { apply keeps_same_images; [exact I_ext |].
    intros w. rewrite hf_textToImage_run. cbv zeta.
    destruct (Env.textToImage env req (World.hf_calls w)); reflexivity. }
  intros blob _. eapply keeps_bind with (Q := fun _ => True).
  { apply keeps_same_images; [exact I_ext | reflexivity]. }
  intros storageId _. eapply keeps_bind with (Q := fun _ => True).
  { apply keeps_ret. exact Logic.I. }
  intros [u |] _; apply IH; [| exact Hurls].
  cbn [JS.truthy]. destruct (String.eqb_spec u ""); cbn [negb]; [exact Hurls |].
  apply Forall_app. split; [exact Hurls |]. repeat constructor. assumption.
Qed.

Lemma keeps_generate (fuel : nat) (args : GenerateArgs.t) :
  keeps I (generate env fuel args)
        (fun res => urls_truthy (GenerateResult.imageUrls res)).
Proof.
  apply keeps_validated. unfold generate_handler.
  eapply keeps_bind; [apply keeps_Date_now | intros requestedAt _]. cbv zeta.
  eapply keeps_bind; [apply I_create | intros imageId _].
  apply keeps_try_catch.
  - destruct (String.eqb _ "huggingface").
    + eapply keeps_bind with (Q := fun _ => True);
        [destruct (negb _); [apply keeps_throw | apply keeps_ret; exact Logic.I] |].
      intros _ _. eapply keeps_bind with (Q := fun _ => True);
        [apply keeps_lift; auto |].
      intros dims _. eapply keeps_bind; [apply keeps_hf_loop; constructor |].
      intros imageUrls Hurls. eapply keeps_bind with (Q := fun _ => True);
        [destruct (Nat.eqb _ 0); [apply keeps_throw | apply keeps_ret; exact Logic.I] |].
      intros _ _. eapply keeps_bind; [apply keeps_Date_now | intros now _].
      eapply keeps_bind; [apply I_update | intros _ _; apply keeps_ret; exact Hurls].
      intros urls [= <-]. exact Hurls.
    + eapply keeps_bind with (Q := fun _ => True);
        [destruct (negb _); [apply keeps_throw | apply keeps_ret; exact Logic.I] |].
      intros _ _. eapply keeps_bind with (Q := fun _ => True);
        [apply keeps_lift; auto |].
      intros result _.
      assert (urls_truthy (fal_urls result)) as Hurls.
      { unfold fal_urls.
        destruct (FalResult.data result) as [[[images |]] |]; cbn; try constructor.
        apply filter_Boolean_truthy. }
      eapply keeps_bind; [apply keeps_Date_now | intros now _].
      eapply keeps_bind; [apply I_update | intros _ _; apply keeps_ret; exact Hurls].
      intros urls [= <-]. exact Hurls.
  - intros e. eapply keeps_bind; [apply keeps_Date_now | intros now _].
    eapply keeps_bind; [apply I_update | intros _ _; apply keeps_throw].
    intros urls [=].
Qed.
End KeepsGenerate.

Lemma generate_returns_truthy (env : Env.t) (fuel : nat)
    (args : GenerateArgs.t) (w : World.t) (res : GenerateResult.t) :
  fst (generate env fuel args w) = Return res ->
  urls_truthy (GenerateResult.imageUrls res).
Proof.
  intros Hrun.
  refine (proj2 (keeps_generate env (fun _ => True) _ _ _ fuel args w Logic.I)
                res Hrun);
    [intros; exact Logic.I | intros a w0 _; auto | intros a _ w0 _; auto].
Qed.

(** X24.  [generate] never stores or returns an empty URL: if no document of
    the table carries an empty string among its [imageUrls] before the call,
    none does after it, whatever the request, the providers' answers and the
    outcome; and the URLs it returns are all non-empty. *)
Theorem generate_keeps_urls_non_empty (env : Env.t) (fuel : nat)
    (args : GenerateArgs.t) (w : World.t) :
  no_empty_urls w ->
  no_empty_urls (snd (generate env fuel args w))
  /\ forall res, fst (generate env fuel args w) = Return res ->
       urls_truthy (GenerateResult.imageUrls res).
Proof.
  exact (keeps_generate env no_empty_urls no_empty_urls_ext keeps_create
           keeps_update fuel args w).
Qed.

Lemma generate_keeps_urls_non_empty_witness :
  no_empty_urls
    (snd (generate (sample_env blob_always url_of fal_two_images) 4
                   (sample_args None None) one_complete_world)).
Proof.
  apply (generate_keeps_urls_non_empty
           (sample_env blob_always url_of fal_two_images) 4
           (sample_args None None) one_complete_world).
  intros d urls Hd Hurls. cbn in Hd.
  apply list_elem_of_singleton in Hd. subst d. injection Hurls as <-.
  repeat constructor. discriminate.
Defined.

(** ** The form *)

Lemma clampImages_not_NaN (value : number) :
  value <> JS.NaN -> clampImages value = clamped (Some value).
Proof. destruct value; [congruence | reflexivity ..]. Qed.

Lemma clampImages_range (value : number) : in_1_4 (clampImages value).
Proof.
  destruct value as [| | q |];
    try (rewrite clampImages_not_NaN by discriminate;
         apply clamp_in_range; discriminate).
  exists (inject_Z 1). split; [reflexivity | split; discriminate].
Qed.

(** X25.  The clamp of the image count in the form: the value kept is in
    [[1, 4]] for every number typed, [NaN] included, which becomes 1; except
    for [NaN] it is the value the clamp of [generate] computes; and the
    clamp of [generate] leaves every value kept by the form as it is. *)
Theorem form_clamp_in_range (value : number) :
  in_1_4 (clampImages value)
  /\ clampImages JS.NaN = JS.of_Z 1
  /\ (value <> JS.NaN -> clampImages value = clamped (Some value))
  /\ clamped (Some (clampImages value)) = clampImages value.
Proof.
  split; [apply clampImages_range |]. split; [reflexivity |].
  split; [apply clampImages_not_NaN |].
  destruct (clampImages_range value) as (q & -> & Hlo & Hhi).
  apply clamp_identity; assumption.
Qed.

Lemma in_1_4_one : in_1_4 (JS.of_Z 1).
Proof. exists (inject_Z 1). split; [reflexivity | split; discriminate]. Qed.

Lemma initial_form_ok (window : option Window.t) : form_ok (initial_form window).
Proof.
  unfold form_ok, initial_form, aspectRatios, resolutions, outputFormats.
  cbn. repeat split; auto using in_1_4_one.
Qed.

(* Reduces the projections of a state built by the setters. *)
Ltac settings :=
  cbn [Form.theme Form.prompt Form.provider Form.aspectRatio Form.resolution
       Form.outputFormat Form.numImages Form.isGenerating Form.error
       setTheme setPrompt setProvider setAspectRatio setResolution
       setOutputFormat setNumImages setIsGenerating setError
       handleProviderChange handleReset images_onChange handleSubmit_settle
       fst snd].

Ltac settings_kept :=
  settings; repeat (split; [assumption |]); assumption.

Lemma handle_form_ok (trim : string -> string) (ev : Event) (ui : Form.t) :
  form_ok ui -> offered ui ev -> form_ok (handle trim ev ui).
Proof.
  unfold form_ok. intros (Hp & Ha & Hr & Hf & Hn & Hhf) Hev.
  destruct ev; cbn [offered handle] in Hev |- *.
  - destruct Hev as [<- | [<- | []]]; cbn [ProviderOption.id];
      unfold handleProviderChange.
    + change (String.eqb "fal" "huggingface") with false. settings.
      split; [left; reflexivity |]. repeat (split; [assumption |]).
      intros H. discriminate H.
    + change (String.eqb "huggingface" "huggingface") with true. settings.
      split; [right; left; reflexivity |]. split; [assumption |].
      split; [left; reflexivity |]. split; [left; reflexivity |].
      split; [assumption |]. intros _. split; reflexivity.
  - settings_kept.
  - settings. split; [assumption |]. split; [exact Hev |].
    repeat (split; [assumption |]); assumption.
  - destruct Hev as [Hv Hnot]. settings. repeat (split; [assumption |]).
    intros H. contradiction.
  - destruct Hev as [Hv Hnot]. settings. repeat (split; [assumption |]).
    intros H. contradiction.
  - settings. repeat (split; [assumption |]).
    split; [apply clampImages_range | assumption].
  - settings. split; [left; reflexivity |]. split; [left; reflexivity |].
    split; [left; reflexivity |]. split; [left; reflexivity |].
    split; [apply in_1_4_one |]. intros H. discriminate H.
  - settings_kept.
  - unfold handleSubmit_start. destruct (negb _); settings_kept.
  - destruct settled as [[m |] | res]; settings_kept.
Qed.

Lemma run_form_ok (trim : string -> string) (evs : list Event) :
  forall ui, form_ok ui -> all_offered trim evs ui -> form_ok (run trim evs ui).
Proof.
  induction evs as [| ev evs IH]; intros ui Hok Hoff; cbn [run all_offered] in *;
    [exact Hok |].
  destruct Hoff as [Hev Hoff]. apply IH; [| exact Hoff].
  apply handle_form_ok; assumption.
Qed.

Lemma form_ok_request (p : string) (ui : Form.t) :
  form_ok ui -> GenerateArgs.validator (request p ui) = true.
Proof.
  intros (Hp & Ha & Hr & Hf & _).
  unfold GenerateArgs.validator, request.
  cbn [GenerateArgs.prompt GenerateArgs.aspectRatio GenerateArgs.resolution
       GenerateArgs.outputFormat GenerateArgs.numImages GenerateArgs.provider
       v_optional v_string v_number andb].
  apply (v_union_literals aspectRatios) in Ha.
  apply (v_union_literals resolutions) in Hr.
  apply (v_union_literals outputFormats) in Hf.
  apply (v_union_literals [ "fal"; "huggingface" ]) in Hp.
  unfold aspectRatioValidator, resolutionValidator, outputFormatValidator,
    providerValidator.
  cbn [map aspectRatios resolutions outputFormats] in *.
  rewrite Ha, Hr, Hf, Hp. reflexivity.
Qed.

(** X26.  The form only ever sends requests the backend accepts.  After any
    sequence of events that the rendered controls offer, starting from the
    initial state, the provider, aspect ratio, resolution and format are
    among the literals of the validators of [generate], the image count is
    in [[1, 4]], and with Hugging Face selected the resolution and the
    format shown are ["1K"] and ["png"].  A request that [handleSubmit]
    sends from such a state passes the validator of [generate] and has a
    non-empty prompt. *)
Theorem form_sends_valid_requests (trim : string -> string)
    (window : option Window.t) (evs : list Event) :
  all_offered trim evs (initial_form window) ->
  let ui := run trim evs (initial_form window) in
  form_ok ui
  /\ forall args,
       snd (handleSubmit_start trim ui) = Some args ->
       GenerateArgs.validator args = true
       /\ GenerateArgs.prompt args <> ""
       /\ GenerateArgs.numImages args <> Some JS.NaN.
Proof.
  intros Hoff ui.
  assert (form_ok ui) as Hok by (apply run_form_ok; [apply initial_form_ok | exact Hoff]).
  split; [exact Hok |]. intros args. unfold handleSubmit_start.
  destruct (String.eqb_spec (trim (Form.prompt ui)) "") as [He | Hne];
    cbn [JS.truthy negb snd]; [rewrite He; cbn; discriminate |].
  rewrite (proj2 (String.eqb_neq _ _) Hne). cbn [negb snd].
  intros [= <-]. split; [apply form_ok_request; exact Hok |].
  split; [exact Hne |]. cbn [request GenerateArgs.numImages].
  destruct Hok as (_ & _ & _ & _ & (q & Hq & _) & _). rewrite Hq. discriminate.
Qed.

Lemma form_sends_valid_requests_witness :
  let ui := run trim_spaces
                [ ImagesInput JS.NaN; ResolutionSelect "4K";
                  ProviderButton huggingface_option; PromptInput " a red fox " ]
                (initial_form (Some a_window)) in
  form_ok ui
  /\ forall args,
       snd (handleSubmit_start trim_spaces ui) = Some args ->
       GenerateArgs.validator args = true
       /\ GenerateArgs.prompt args <> ""
       /\ GenerateArgs.numImages args <> Some JS.NaN.
Proof.
  apply (form_sends_valid_requests trim_spaces (Some a_window)
           [ ImagesInput JS.NaN; ResolutionSelect "4K";
             ProviderButton huggingface_option; PromptInput " a red fox " ]).
  cbn. repeat split; auto; discriminate.
Defined.

(** ** The form and the backend together *)

Lemma form_ok_created (env : Env.t) (p : string) (ui : Form.t) (w : World.t)
    (d : Doc.t) :
  form_ok ui -> created_by env (request p ui) w d ->
  Doc.prompt d = p
  /\ Doc.provider d = Form.provider ui
  /\ Doc.aspectRatio d = Form.aspectRatio ui
  /\ Doc.resolution d = Form.resolution ui
  /\ Doc.outputFormat d = Form.outputFormat ui
  /\ Doc.numImages d = Form.numImages ui.
Proof.
  intros (Hp & _ & _ & _ & (q & Hq & Hlo & Hhi) & Hhf).
  unfold created_by, request.
  cbn [GenerateArgs.prompt GenerateArgs.aspectRatio GenerateArgs.resolution
       GenerateArgs.outputFormat GenerateArgs.numImages GenerateArgs.provider].
  intros (H1 & _ & H3 & H4 & H5 & H6 & H7 & _).
  rewrite H1, H3, H4, H5, H6, H7, Hq, (clamp_identity q Hlo Hhi).
  destruct Hp as [Hp | [Hp | []]]; rewrite <- Hp in *.
  - repeat split; reflexivity.
  - destruct (Hhf eq_refl) as [-> ->]. repeat split; reflexivity.
Qed.

(** X27.  Submitting the form, end to end, when the outcome of the action
    reaches the browser.  From a state reached by offered events,
    [handleSubmit] with a blank prompt sends nothing: the table is
    untouched and the form asks for a description.  Otherwise [generate]
    adds one record whose prompt is the trimmed prompt and whose provider,
    aspect ratio, resolution, format and image count are exactly the ones
    the form shows; when the call has settled the form is no longer
    generating, and the prompt is cleared exactly when the record is
    [complete], an error shown exactly when it is [failed].  The settings
    of the form are never changed by a submit. *)
Theorem submit_stores_what_the_form_shows (trim : string -> string)
    (report : JS.thrown -> JS.thrown) (env : Env.t) (fuel : nat)
    (window : option Window.t) (evs : list Event) (w : World.t) :
  all_offered trim evs (initial_form window) -> 4 <= fuel ->
  let ui := run trim evs (initial_form window) in
  exists ui' w',
    handleSubmit trim (useAction report (generate env fuel)) ui w = (ui', w')
    /\ same_settings ui ui'
    /\ (trim (Form.prompt ui) = "" ->
        w' = w
        /\ Form.error ui' = Some "Describe the image you want to create."
        /\ Form.prompt ui' = Form.prompt ui
        /\ Form.isGenerating ui' = Form.isGenerating ui)
    /\ (trim (Form.prompt ui) <> "" ->
        exists d,
          World.images w' = World.images w ++ [d]
          /\ Doc.prompt d = trim (Form.prompt ui)
          /\ Doc.provider d = Form.provider ui
          /\ Doc.aspectRatio d = Form.aspectRatio ui
          /\ Doc.resolution d = Form.resolution ui
          /\ Doc.outputFormat d = Form.outputFormat ui
          /\ Doc.numImages d = Form.numImages ui
          /\ Form.isGenerating ui' = false
          /\ (Doc.status d = "complete"
              /\ Form.prompt ui' = "" /\ Form.error ui' = None
              \/ Doc.status d = "failed"
                 /\ Form.prompt ui' = Form.prompt ui
                 /\ is_Some (Form.error ui') /\ is_Some (Doc.error d))).
Proof.
  intros Hoff Hfuel ui.
  assert (form_ok ui) as Hok by (apply run_form_ok; [apply initial_form_ok | exact Hoff]).
  unfold handleSubmit, handleSubmit_start.
  destruct (String.eqb_spec (trim (Form.prompt ui)) "") as [He | Hne];
    cbn [JS.truthy negb].
  - rewrite He. cbn [String.eqb negb]. eexists _, w. split; [reflexivity |].
    split; [repeat split |]. split; [| congruence].
    intros _. repeat split.
  - rewrite (proj2 (String.eqb_neq _ _) Hne). cbn [negb].
    destruct (generate_lifecycle env fuel (request (trim (Form.prompt ui)) ui) w
                (form_ok_request _ ui Hok) Hfuel)
      as (r & d & w' & Hrun & Himg & _ & Hcreated & _ & Hend).
    destruct (form_ok_created env _ ui w d Hok Hcreated)
      as (F1 & F2 & F3 & F4 & F5 & F6).
    unfold useAction. rewrite Hrun.
    destruct Hend as [(res & -> & _ & (Hs & _) & _) | (e & -> & (Hs & _ & _ & He) & _)].
    + eexists _, w'. split; [reflexivity |]. split; [repeat split |].
      split; [congruence |]. intros _. exists d.
      repeat (split; [assumption || reflexivity |]). left. repeat split. exact Hs.
    + eexists _, w'. split; [reflexivity |]. split; [repeat split |].
      split; [congruence |]. intros _. exists d.
      repeat (split; [assumption || reflexivity |]). right.
      split; [exact Hs |]. split; [reflexivity |]. rewrite He.
      split; cbn; eauto.
Qed.

Lemma submit_stores_what_the_form_shows_witness :
  let ui := run trim_spaces
                [ ImagesInput (JS.Finite 2.5); FormatSelect "webp";
                  ProviderButton huggingface_option; PromptInput " a red fox " ]
                (initial_form (Some a_window)) in
  let end_ := handleSubmit trim_spaces
                (useAction (fun _ => JS.Error "Server Error")
                   (generate (sample_env blob_always url_of fal_no_images) 4))
                ui empty_world in
  exists d,
    World.images (snd end_) = [d]
    /\ Doc.prompt d = "a red fox"
    /\ Doc.outputFormat d = "png"
    /\ Doc.numImages d = JS.Finite 2.5
    /\ Form.outputFormat ui = "png"
    /\ Form.isGenerating (fst end_) = false.
Proof.
  cbv zeta.
  destruct (submit_stores_what_the_form_shows trim_spaces
              (fun _ => JS.Error "Server Error")
              (sample_env blob_always url_of fal_no_images) 4 (Some a_window)
              [ ImagesInput (JS.Finite 2.5); FormatSelect "webp";
                ProviderButton huggingface_option; PromptInput " a red fox " ]
              empty_world)
    as (ui' & w' & Hrun & _ & _ & Hsent).
  - cbn. repeat split; auto; discriminate.
  - lia.
  - destruct Hsent as (d & Himg & Hp & _ & _ & _ & Hf & Hn & Hg & _);
      [discriminate |].
    rewrite Hrun. cbn [fst snd]. exists d. split; [exact Himg |].
    split; [exact Hp |]. split; [exact Hf |]. split; [exact Hn |].
    split; [reflexivity | exact Hg].
Defined.

(** ** The theme *)

Lemma getInitialTheme_is_theme (window : option Window.t) :
  getInitialTheme window = "light" \/ getInitialTheme window = "dark".
Proof.
  destruct window as [window |]; cbn [getInitialTheme]; [| auto].
  destruct (Window.localStorage window !! "theme") as [stored |].
  - destruct (String.eqb_spec stored "light"); cbn [orb]; [auto |].
    destruct (String.eqb_spec stored "dark"); [auto |].
    destruct (Window.matchMedia window _); auto.
  - destruct (Window.matchMedia window _); auto.
Qed.

Lemma toggles_is_theme (theme : string) (toggles : nat) :
  theme = "light" \/ theme = "dark" ->
  Nat.iter toggles toggleTheme theme = "light"
  \/ Nat.iter toggles toggleTheme theme = "dark".
Proof.
  intros H. induction toggles as [| k IH]; [exact H |].
  rewrite Nat.iter_succ. destruct IH as [-> | ->]; cbn; auto.
Qed.

(** X28.  The theme survives a reload.  Whatever the browser had stored and
    whatever colour scheme it prefers, the theme the component starts with
    is ["light"] or ["dark"], it stays one of the two under the toggle, and
    once the effect has stored it, [getInitialTheme] on the next load
    returns exactly the theme that was shown last, the stored value taking
    precedence over the media query.  Toggling twice gives the theme back. *)
Theorem theme_survives_reload (window : option Window.t)
    (browser : Window.t) (toggles : nat) :
  let theme := Nat.iter toggles toggleTheme (getInitialTheme window) in
  (theme = "light" \/ theme = "dark")
  /\ getInitialTheme (Some (theme_effect theme browser)) = theme
  /\ toggleTheme theme <> theme
  /\ toggleTheme (toggleTheme theme) = theme.
Proof.
  cbv zeta.
  destruct (toggles_is_theme _ toggles (getInitialTheme_is_theme window))
    as [-> | ->].
  - split; [auto |]. split; [| split; [discriminate | reflexivity]].
    cbn [getInitialTheme theme_effect Window.localStorage].
    rewrite lookup_insert_eq. reflexivity.
  - split; [auto |]. split; [| split; [discriminate | reflexivity]].
    cbn [getInitialTheme theme_effect Window.localStorage].
    rewrite lookup_insert_eq. reflexivity.
Qed.

(** ** The gallery *)

Lemma card_of_urls (d : Doc.t) (urls : list string) :
  Doc.imageUrls d = Some urls -> urls_truthy urls ->
  Card.img (card d) = head urls
  /\ Card.count (card d)
     = (if (1 <? length urls)%nat then Some (length urls - 1) else None).
Proof.
  intros Hu Htruthy. unfold card, primaryImage, extraImages.
  cbn [Card.img Card.count]. rewrite Hu. cbn [mbind option_bind].
  destruct Htruthy as [| u urls Hne _]; [split; reflexivity |].
  cbn [lookup list_lookup head JS.truthy length].
  rewrite (proj2 (String.eqb_neq _ _) Hne). cbn [negb].
  split; [reflexivity |].
  destruct urls as [| u' urls]; [reflexivity |]. cbn. reflexivity.
Qed.

(** X29.  The gallery card of the record [generate] leaves behind.  When
    [generate] returned, the card shows the first returned URL as its
    picture and counts the remaining ones in its [+n] badge; with no URL
    returned (possible for fal only) it shows the placeholder.  When
    [generate] threw, the card shows the placeholder, no badge, the status
    [failed], and the recorded error text unless that is empty.  The
    provider label is the label of the entry of [providerOptions] for the
    provider of the record. *)
Theorem card_of_generated_record (env : Env.t) (fuel : nat)
    (args : GenerateArgs.t) (w : World.t) :
  GenerateArgs.validator args = true -> 4 <= fuel ->
  exists r d w',
    generate env fuel args w = (r, w')
    /\ World.images w' = World.images w ++ [d]
    /\ match r with
       | Return res =>
           Card.status (card d) = "complete"
           /\ Card.img (card d) = head (GenerateResult.imageUrls res)
           /\ Card.count (card d)
              = (if (1 <? length (GenerateResult.imageUrls res))%nat
                 then Some (length (GenerateResult.imageUrls res) - 1)
                 else None)
           /\ Card.error (card d) = None
           /\ (Doc.provider d = "huggingface" -> is_Some (Card.img (card d)))
       | Throw e =>
           Card.status (card d) = "failed"
           /\ Card.img (card d) = None
           /\ Card.count (card d) = None
           /\ exists message,
                Doc.error d = Some message
                /\ Card.error (card d)
                   = (if String.eqb message "" then None else Some message)
       | OutOfFuel => False
       end
    /\ exists option_,
         In option_ providerOptions
         /\ ProviderOption.id option_ = Doc.provider d
         /\ Card.provider (card d) = ProviderOption.label option_.
Proof.
  intros Hv Hfuel.
  destruct (generate_lifecycle env fuel args w Hv Hfuel)
    as (r & d & w' & Hrun & Himg & _ & Hcreated & _ & Hend).
  exists r, d, w'. split; [exact Hrun |]. split; [exact Himg |]. split.
  - destruct Hend as [(res & -> & _ & (Hs & Hu & _ & He) & Hhf)
                     | (e & -> & (Hs & Hu & _ & He) & _)].
    + assert (urls_truthy (GenerateResult.imageUrls res)) as Htruthy
        by (apply (generate_returns_truthy env fuel args w); rewrite Hrun; reflexivity).
      destruct (card_of_urls d _ Hu Htruthy) as [Hi Hc].
      split; [exact Hs |]. split; [exact Hi |]. split; [exact Hc |].
      split; [unfold card; cbn [Card.error]; rewrite He; reflexivity |].
      intros Hp. rewrite Hi. specialize (Hhf Hp).
      destruct (GenerateResult.imageUrls res); [congruence | cbn; eauto].
    + split; [exact Hs |]. unfold card, primaryImage, extraImages.
      cbn [Card.img Card.count Card.error]. rewrite Hu, He.
      split; [reflexivity |]. split; [reflexivity |].
      eexists. split; [reflexivity |]. cbn [JS.truthy].
      destruct (String.eqb _ ""); reflexivity.
  - destruct Hcreated as (_ & _ & Hp & _).
    unfold card, providerLabel. cbn [Card.provider]. rewrite Hp.
    destruct (validator_fields args Hv) as (_ & _ & _ & [H | [H | H]]);
      rewrite H; cbn; eauto 6.
Qed.

Lemma card_of_generated_record_witness :
  exists r d w',
    generate (sample_env blob_always url_of fal_two_images) 4
             (sample_args None None) empty_world = (r, w')
    /\ World.images w' = [d]
    /\ Card.img (card d) = Some "https://fal.example/a"
    /\ Card.count (card d) = Some 1
    /\ Card.provider (card d) = "Fal.ai".
Proof.
  destruct (card_of_generated_record
              (sample_env blob_always url_of fal_two_images) 4
              (sample_args None None) empty_world eq_refl)
    as (r & d & w' & Hrun & Himg & Hcard & _); [lia |].
  exists r, d, w'. split; [exact Hrun |]. split; [exact Himg |].
  injection Hrun as <- <-. cbn in Himg. injection Himg as <-.
  repeat split; reflexivity.
Defined.
